(** * The Puppeteer tool server (src/puppeteer/index.ts)

    A shallow embedding of the session manager, the configuration merger,
    the danger filter, the tool dispatcher and the resource handlers of
    [index.ts], followed by the properties the specification states about
    them.

    Conventions of the embedding.
    - JavaScript values are trees; every array and object carries the
      reference (address) under which it lives, because [Set], [Map] and
      [===] compare composite values by reference and not by content.
    - Numbers are the integers that a double holds exactly, as it does every
      integer up to 2^53; they are printed as JavaScript prints the double.
      Fractions, NaN and the infinities are not modelled, and an integer
      that no double holds stands for no number of the program (where one is
      printed it is rounded to the nearest double first).  Strings are
      sequences of bytes.
    - The properties of an object are listed in the order in which
      JavaScript enumerates them.  Objects are plain: only own properties
      are modelled, and an object keeps the prototype it was created with.
      A method inherited from a prototype reads as [undefined]: the keys
      the server reads an argument under name no method, and the merger
      tests what it reads with [Array.isArray] and [typeof ... "object"]
      only, which answer the same for both.  The accessor [__proto__] is
      outside the model: in JavaScript, reading the key "__proto__" of an
      object that has no own property of that name yields the prototype of
      the object, and writing it replaces the prototype, where the model
      reads and writes an own property.  The two differ only when the merger
      meets the key "__proto__" in an override; the statements that depend
      on what it does then are stated for overrides free of that key
      ([proto_free]).
    - The browser library is a parameter: a type of hidden browser states
      and an outcome for every call the server makes to it.  The calls made
      and the notifications sent are recorded in a trace.
    - [ensureBrowser] is cut in three along its text: the merge of the
      configurations, the check of the arguments, and the reuse or launch
      of the browser. *)

From Stdlib Require Import Ascii.
From stdpp Require Import prelude pretty.

(** ** Values *)

Definition ref := nat.

Local Unset Elimination Schemes.

Inductive value : Type :=
| VUndef
| VNull
| VBool (b : bool)
| VNum (n : Z)
| VStr (s : string)
| VArr (r : ref) (elems : list value)
| VObj (r : ref) (props : list (string * value)).

Local Set Elimination Schemes.

Abbreviation props := (list (string * value)).

(** Thrown values: both kinds carry the [message] that [(e as Error).message]
    reads. *)
Inductive exn := Error (message : string) | TypeError (message : string).

Definition message (e : exn) : string :=
  match e with Error m | TypeError m => m end.

Inductive result (A : Type) := Ok (a : A) | Throw (e : exn).
Arguments Ok {A} a.
Arguments Throw {A} e.

(** [typeof v] *)
Definition typeof (v : value) : string :=
  match v with
  | VUndef => "undefined"
  | VBool _ => "boolean"
  | VNum _ => "number"
  | VStr _ => "string"
  | VNull | VArr _ _ | VObj _ _ => "object"
  end.

(** Truthiness, as tested by [if (v)], [v || d], [v && w], [!v], [c ? a : b]. *)
Definition truthy (v : value) : bool :=
  match v with
  | VUndef | VNull => false
  | VBool b => b
  | VNum n => negb (n =? 0)%Z
  | VStr s => negb (String.eqb s "")
  | VArr _ _ | VObj _ _ => true
  end.

(** [Array.isArray(v)] *)
Definition isArray (v : value) : bool :=
  match v with VArr _ _ => true | _ => false end.

Definition elems_of (v : value) : list value :=
  match v with VArr _ es => es | _ => [] end.

(** [a ?? d] *)
Definition nullish_or (a d : value) : value :=
  match a with VUndef | VNull => d | _ => a end.

(** *** Property keys *)

Fixpoint digits_value (s : string) (acc : N) : option N :=
  match s with
  | "" => Some acc
  | String c s' =>
      match Ascii.is_nat c with
      | Some d => digits_value s' (10 * acc + N.of_nat d)%N
      | None => None
      end
  end.

(** A key is an array index when it is the canonical decimal form of an
    integer below 2^32 - 1. *)
Definition array_index (k : string) : option N :=
  match digits_value k 0 with
  | Some n =>
      if bool_decide (n < 4294967295)%N && bool_decide (pretty n = k)
      then Some n else None
  | None => None
  end.

(** The keys of an array are the decimal forms of its positions. *)
Fixpoint indexed (i : nat) (es : list value) : props :=
  match es with
  | [] => []
  | e :: rest => (pretty i, e) :: indexed (S i) rest
  end.

(** First property stored under a key. *)
Fixpoint own (ps : props) (k : string) : option value :=
  match ps with
  | [] => None
  | (k', v) :: rest => if bool_decide (k' = k) then Some v else own rest k
  end.

(** [v[k]], for a value that is not a string and a key that is not
    "__proto__", among the own properties of [v].  Reading a property of
    [null] or [undefined] throws. *)
Definition get (v : value) (k : string) : result value :=
  match v with
  | VUndef => Throw (TypeError "Cannot read properties of undefined")
  | VNull => Throw (TypeError "Cannot read properties of null")
  | VObj _ ps => Ok (default VUndef (own ps k))
  | VArr _ es =>
      match array_index k with
      | Some i => Ok (default VUndef (es !! N.to_nat i))
      | None =>
          Ok (if bool_decide (k = "length") then VNum (Z.of_nat (length es))
              else VUndef)
      end
  | VBool _ | VNum _ | VStr _ => Ok VUndef
  end.

(** Own enumerable properties in enumeration order: what [{...v}] copies and
    what [Object.keys(v)] lists, for a value whose [typeof] is "object". *)
Definition entries (v : value) : props :=
  match v with
  | VObj _ ps => ps
  | VArr _ es => indexed 0 es
  | _ => []
  end.

(** [k] is enumerated before [k']: array indices come first, in increasing
    order; the other keys follow in the order of their creation. *)
Definition key_before (k k' : string) : bool :=
  match array_index k, array_index k' with
  | Some n, Some n' => bool_decide (n < n')%N
  | Some _, None => true
  | None, _ => false
  end.

Fixpoint update (ps : props) (k : string) (v : value) : props :=
  match ps with
  | [] => []
  | (k', v') :: rest =>
      if bool_decide (k' = k) then (k', v) :: rest
      else (k', v') :: update rest k v
  end.

Fixpoint insert_new (ps : props) (k : string) (v : value) : props :=
  match ps with
  | [] => [(k, v)]
  | (k', v') :: rest =>
      if key_before k k' then (k, v) :: ps
      else (k', v') :: insert_new rest k v
  end.

(** [out[k] = v] on a plain object, for a key that is not "__proto__" or
    that [out] has already: an existing property keeps its place. *)
Definition assign (ps : props) (k : string) (v : value) : props :=
  match own ps k with
  | Some _ => update ps k v
  | None => insert_new ps k v
  end.

(** *** Sets and maps *)

(** SameValueZero, the equality of [Set] and [Map]: primitives by value,
    arrays and objects by reference. *)
Definition same_value_zero (a b : value) : bool :=
  match a, b with
  | VUndef, VUndef | VNull, VNull => true
  | VBool x, VBool y => bool_decide (x = y)
  | VNum x, VNum y => bool_decide (x = y)
  | VStr x, VStr y => bool_decide (x = y)
  | VArr r _, VArr r' _ | VObj r _, VObj r' _ => bool_decide (r = r')
  | _, _ => false
  end.

(** [set.add(x)] on the insertion-ordered content of a [Set]. *)
Definition Set_add (seen : list value) (x : value) : list value :=
  if existsb (same_value_zero x) seen then seen else seen ++ [x].

(** The elements of [new Set(l)], in insertion order. *)
Definition Set_from (l : list value) : list value := fold_left Set_add l [].

(** [map.get(k)] and [map.set(k, x)] on the insertion-ordered content of a
    [Map]. *)
Fixpoint Map_get {A} (m : list (value * A)) (k : value) : option A :=
  match m with
  | [] => None
  | (k', x) :: rest => if same_value_zero k' k then Some x else Map_get rest k
  end.

Fixpoint Map_set {A} (m : list (value * A)) (k : value) (x : A)
  : list (value * A) :=
  match m with
  | [] => [(k, x)]
  | (k', x') :: rest =>
      if same_value_zero k' k then (k', x) :: rest
      else (k', x') :: Map_set rest k x
  end.

(** *** Strings *)

Definition nl : string := String "010"%char "".

(** [l.join(sep)] on strings. *)
Definition join (sep : string) (l : list string) : string :=
  String.concat sep l.

(** [a.startsWith(d)] *)
Definition startsWith (a d : string) : bool := String.prefix d a.

(** [s.split(sep)] for a separator that is not empty.  [skip] counts the
    characters of a separator just matched that are still to be passed;
    [cur] is the piece read so far. *)
Fixpoint split_go (sep s : string) (skip : nat) (cur : string) : list string :=
  match s with
  | "" => [cur]
  | String c s' =>
      match skip with
      | S k => split_go sep s' k cur
      | O =>
          if String.prefix sep s
          then cur :: split_go sep s' (String.length sep - 1) ""
          else split_go sep s' 0 (cur +:+ String c "")
      end
  end.

Definition str_split (s sep : string) : list string := split_go sep s 0 "".

(** *** Numbers as text *)

(** The double nearest to a natural number, as a natural number: beyond 53
    bits the number is rounded to 53 bits, a tie to the even side. *)
Definition round_double (x : Z) : Z :=
  let sh := (Z.log2 x - 52)%Z in
  if (sh <=? 0)%Z then x
  else
    let q := Z.shiftr x sh in
    let r := Z.land x (Z.ones sh) in
    let half := Z.shiftl 1 (sh - 1) in
    let q' := if (half <? r)%Z || ((r =? half)%Z && Z.odd q)
              then (q + 1)%Z else q in
    Z.shiftl q' sh.

Definition digits10 (x : Z) : Z := Z.of_nat (String.length (pretty x)).

(** Among the multiples of [10 ^ e] that the double [x] is the nearest
    double to, the one nearest to [x]; of two equally near, the one with
    the even digits. *)
Definition candidate (x e : Z) : option Z :=
  let p := (10 ^ e)%Z in
  let lo := (x / p * p)%Z in
  let hi := (lo + p)%Z in
  let ok y := (round_double y =? x)%Z in
  match ok lo, ok hi with
  | true, true =>
      if (x - lo <? hi - x)%Z then Some lo
      else if (hi - x <? x - lo)%Z then Some hi
      else if Z.even (x / p) then Some lo else Some hi
  | true, false => Some lo
  | false, true => Some hi
  | false, false => None
  end.

Fixpoint shortest_go (fuel : nat) (x e : Z) : Z :=
  match fuel with
  | O => x
  | S f =>
      match candidate x e with
      | Some y => y
      | None => shortest_go f x (e - 1)%Z
      end
  end.

(** The decimal with the fewest significant digits that denotes the double
    [x]: one digit is tried first, then two, and so on up to the digits of
    [x] itself. *)
Definition shortest (x : Z) : Z :=
  shortest_go (Z.to_nat (digits10 x)) x (digits10 x - 1)%Z.

Fixpoint strip_zeros (fuel : nat) (y : Z) : Z :=
  match fuel with
  | O => y
  | S f => if (y mod 10 =? 0)%Z then strip_zeros f (y / 10)%Z else y
  end.

(** [d.ddde+n], the form of the numbers from 10^21 on. *)
Definition exponent_form (y : Z) : string :=
  let d := digits10 y in
  match pretty (strip_zeros (Z.to_nat d) y) with
  | String c "" => String c ("e+" +:+ pretty (d - 1)%Z)
  | String c rest => String c ("." +:+ rest +:+ "e+" +:+ pretty (d - 1)%Z)
  | "" => ""
  end.

(** [String(n)] for a number: the shortest decimal that denotes the double,
    written in full below 10^21 and with an exponent from there on.  Up to
    2^53 these are the digits of the integer. *)
Definition Number_toString (n : Z) : string :=
  if (n =? 0)%Z then "0"
  else
    let y := shortest (round_double (Z.abs n)) in
    (if (n <? 0)%Z then "-" else "")
    +:+ (if (digits10 y <=? 21)%Z then pretty y else exponent_form y).

(** [String(v)], the conversion a template literal applies. *)
Fixpoint ToString (v : value) : string :=
  match v with
  | VUndef => "undefined"
  | VNull => "null"
  | VBool b => if b then "true" else "false"
  | VNum n => Number_toString n
  | VStr s => s
  | VArr _ es =>
      join "," (map (fun e => match e with
                              | VUndef | VNull => ""
                              | _ => ToString e
                              end) es)
  | VObj _ _ => "[object Object]"
  end.

(** [v.join(sep)] on a value: only arrays have the method. *)
Definition array_join (v : value) (sep : string) : result string :=
  match v with
  | VArr _ es =>
      Ok (join sep (map (fun e => match e with
                                  | VUndef | VNull => ""
                                  | _ => ToString e
                                  end) es))
  | _ => Throw (TypeError "join is not a function")
  end.

(** ** JSON.stringify *)

Definition dquote : ascii := "034"%char.
Definition backslash : ascii := "092"%char.

Definition hex_digit (n : N) : ascii :=
  match n with
  | 0 => "0" | 1 => "1" | 2 => "2" | 3 => "3" | 4 => "4" | 5 => "5"
  | 6 => "6" | 7 => "7" | 8 => "8" | 9 => "9" | 10 => "a" | 11 => "b"
  | 12 => "c" | 13 => "d" | 14 => "e" | _ => "f"
  end%char%N.

(** How [JSON.stringify] writes one character of a string. *)
Definition escape_char (c : ascii) : string :=
  match N_of_ascii c with
  | 8 => String backslash "b"
  | 9 => String backslash "t"
  | 10 => String backslash "n"
  | 12 => String backslash "f"
  | 13 => String backslash "r"
  | 34 => String backslash (String dquote "")
  | 92 => String backslash (String backslash "")
  | n =>
      if (n <? 32)%N
      then String backslash
             ("u00" +:+ String (hex_digit (n / 16))
                          (String (hex_digit (n mod 16)) ""))
      else String c ""
  end%N.

Fixpoint escape (s : string) : string :=
  match s with
  | "" => ""
  | String c s' => escape_char c +:+ escape s'
  end.

Definition quote (s : string) : string :=
  String dquote (escape s +:+ String dquote "").

(** The text of one property, absent when its value has no JSON text. *)
Definition member (sep : string) (f : value -> option string)
  (kv : string * value) : option string :=
  (fun s => quote kv.1 +:+ sep +:+ s) <$> f kv.2.

(** [JSON.stringify(v)]: [None] stands for the result [undefined].  The
    server only compares this text with another, in [ensureBrowser]; a
    number is written here with all its digits and not as JavaScript writes
    it: the digits of two numbers differ exactly when their texts in
    JavaScript do. *)
Fixpoint JSON_stringify (v : value) : option string :=
  match v with
  | VUndef => None
  | VNull => Some "null"
  | VBool b => Some (if b then "true" else "false")
  | VNum n => Some (pretty n)
  | VStr s => Some (quote s)
  | VArr _ es =>
      Some ("[" +:+ join "," (map (fun e => default "null" (JSON_stringify e)) es)
              +:+ "]")
  | VObj _ ps =>
      Some ("{" +:+ join "," (omap (member ":" JSON_stringify) ps) +:+ "}")
  end.

(** [JSON.stringify(v, null, 2)] below the indentation [indent]. *)
Fixpoint JSON_stringify_indent (indent : string) (v : value) : option string :=
  let inner := indent +:+ "  " in
  let wrap (l r : string) (items : list string) :=
    match items with
    | [] => l +:+ r
    | _ => l +:+ nl +:+ inner +:+ join ("," +:+ nl +:+ inner) items
             +:+ nl +:+ indent +:+ r
    end in
  match v with
  | VUndef => None
  | VNull => Some "null"
  | VBool b => Some (if b then "true" else "false")
  | VNum n => Some (Number_toString n)
  | VStr s => Some (quote s)
  | VArr _ es =>
      Some (wrap "[" "]"
              (map (fun e => default "null" (JSON_stringify_indent inner e)) es))
  | VObj _ ps =>
      Some (wrap "{" "}" (omap (member ": " (JSON_stringify_indent inner)) ps))
  end.

(** ** Allocation *)

(** Computations that create objects: they take the next free reference and
    return the one after the last they used, or throw. *)
Definition alloc (A : Type) : Type := ref -> result (A * ref).

Definition aret {A} (a : A) : alloc A := fun h => Ok (a, h).

Definition abind {A B} (m : alloc A) (k : A -> alloc B) : alloc B :=
  fun h => match m h with
           | Ok (a, h') => k a h'
           | Throw e => Throw e
           end.

Definition athrow {A} (e : exn) : alloc A := fun _ => Throw e.

Definition alift {A} (r : result A) : alloc A :=
  fun h => match r with Ok a => Ok (a, h) | Throw e => Throw e end.

Notation "'let*' x := m 'in' k" := (abind m (fun x => k))
  (at level 10, x name, m at level 99, k at level 200).

(** The reference of a new object. *)
Definition fresh : alloc ref := fun h => Ok (h, S h).

(** An object literal, and an array literal. *)
Definition new_object (ps : props) : alloc value :=
  let* r := fresh in aret (VObj r ps).
Definition new_array (es : list value) : alloc value :=
  let* r := fresh in aret (VArr r es).

(** ** Config merger *)

(** The value the loop of [deepMerge] stores under a key, from the value
    [t] of the target and the value [s] of the source at that key;
    [rec t s] is [deepMerge(t, s)]. *)
Definition merge_value (rec : value -> value -> alloc value) (t s : value)
  : alloc value :=
  if isArray t && isArray s
  then new_array (Set_from (elems_of t ++ elems_of s))
  else if truthy s && bool_decide (typeof s = "object") then rec t s
  else aret s.

(** One turn of the loop, for the key [key] of the source. *)
Definition merge_key (rec : value -> value -> alloc value) (target : value)
  (key : string) (s : value) (out : props) : alloc props :=
  let* t := alift (get target key) in
  let* v := merge_value rec t s in
  aret (assign out key v).

(** The loop [for (const key of Object.keys(source))] over the properties of
    an object, and over the elements of an array from position [i] on. *)
Fixpoint merge_props (rec : value -> value -> alloc value) (target : value)
  (ps : props) (out : props) : alloc props :=
  match ps with
  | [] => aret out
  | (key, s) :: rest =>
      let* out := merge_key rec target key s out in
      merge_props rec target rest out
  end.

Fixpoint merge_elems (rec : value -> value -> alloc value) (target : value)
  (i : nat) (es : list value) (out : props) : alloc props :=
  match es with
  | [] => aret out
  | s :: rest =>
      let* out := merge_key rec target (pretty i) s out in
      merge_elems rec target (S i) rest out
  end.

Fixpoint deepMerge (target source : value) {struct source} : alloc value :=
  if bool_decide (typeof target ≠ "object")
     || bool_decide (typeof source ≠ "object")
  then aret source
  else
    let* r := fresh in
    match source with
    | VObj _ ps =>
        let* out := merge_props deepMerge target ps (entries target) in
        aret (VObj r out)
    | VArr _ es =>
        let* out := merge_elems deepMerge target 0 es (entries target) in
        aret (VObj r out)
    | _ => athrow (TypeError "Cannot convert undefined or null to object")
    end.

(** *** Comparing values by content *)

(** A value with its references forgotten: two values have the same content
    when they are equal once erased. *)
Fixpoint erase (v : value) : value :=
  match v with
  | VArr _ es => VArr 0 (map erase es)
  | VObj _ ps => VObj 0 (map (fun kv => (kv.1, erase kv.2)) ps)
  | _ => v
  end.

Definition same_content (a b : value) : Prop := erase a = erase b.

(** No array anywhere in a value. *)
Fixpoint no_arrays (v : value) : bool :=
  match v with
  | VArr _ _ => false
  | VObj _ ps => forallb (fun kv => no_arrays kv.2) ps
  | _ => true
  end.

(** The keys of every object in a value are distinct, as the keys of a
    JavaScript object are. *)
Fixpoint distinct_keys (v : value) : Prop :=
  match v with
  | VArr _ es => (fix all (es : list value) : Prop :=
                    match es with
                    | [] => True
                    | e :: rest => distinct_keys e /\ all rest
                    end) es
  | VObj _ ps => NoDup ps.*1 /\
                 (fix all (ps : props) : Prop :=
                    match ps with
                    | [] => True
                    | (_, v) :: rest => distinct_keys v /\ all rest
                    end) ps
  | _ => True
  end.

(** A value that came out of [JSON.parse]: no [undefined] inside. *)
Fixpoint is_json (v : value) : bool :=
  match v with
  | VUndef => false
  | VArr _ es => forallb is_json es
  | VObj _ ps => forallb (fun kv => is_json kv.2) ps
  | _ => true
  end.

(** No object anywhere in a value has a key named "__proto__". *)
Fixpoint proto_free (v : value) : bool :=
  match v with
  | VArr _ es => forallb proto_free es
  | VObj _ ps =>
      forallb (fun kv => negb (String.eqb kv.1 "__proto__") && proto_free kv.2) ps
  | _ => true
  end.

(** No two elements of a list are the same value for [Set]. *)
Inductive duplicate_free : list value -> Prop :=
| duplicate_free_nil : duplicate_free []
| duplicate_free_cons x l :
    (forall y, y ∈ l -> same_value_zero x y = false) ->
    duplicate_free l -> duplicate_free (x :: l).

(** [m] already holds what merging [s] into it would write: under every key
    of [s] it has the value of [s], or for an object a value that holds it in
    turn. *)
Fixpoint absorbs (m s : value) : Prop :=
  match s with
  | VObj _ sps =>
      match m with
      | VObj _ mps =>
          (fix all (sps : props) : Prop :=
             match sps with
             | [] => True
             | (k, sv) :: rest =>
                 (exists mv, own mps k = Some mv /\ absorbs mv sv) /\ all rest
             end) sps
      | _ => False
      end
  | _ => m = s
  end.

(** ** Notions used in the proofs *)

Definition erase_props (ps : props) : props :=
  map (fun kv => (kv.1, erase kv.2)) ps.

(** No [null] anywhere in a value. *)
Fixpoint null_free (v : value) : bool :=
  match v with
  | VNull => false
  | VArr _ es => forallb null_free es
  | VObj _ ps => forallb (fun kv => null_free kv.2) ps
  | _ => true
  end.

(** [s.includes(sub)] *)
Fixpoint contains (sub s : string) : bool :=
  String.prefix sub s
  || match s with
     | "" => false
     | String _ s' => contains sub s'
     end.

Definition hex_value (c : ascii) : N :=
  match c with
  | "0" => 0 | "1" => 1 | "2" => 2 | "3" => 3 | "4" => 4 | "5" => 5
  | "6" => 6 | "7" => 7 | "8" => 8 | "9" => 9 | "a" => 10 | "b" => 11
  | "c" => 12 | "d" => 13 | "e" => 14 | _ => 15
  end%char%N.

(** Reads back the first character written by [escape_char]. *)
Definition unescape (s : string) : option (ascii * string) :=
  match s with
  | "" => None
  | String c rest =>
      if Ascii.eqb c dquote then None
      else if Ascii.eqb c backslash then
        match rest with
        | String "b" r => Some ("008"%char, r)
        | String "t" r => Some ("009"%char, r)
        | String "n" r => Some ("010"%char, r)
        | String "f" r => Some ("012"%char, r)
        | String "r" r => Some ("013"%char, r)
        | String "u" (String _ (String _ (String x (String y r)))) =>
            Some (ascii_of_N (16 * hex_value x + hex_value y), r)
        | String c' r => Some (c', r)
        | "" => None
        end
      else Some (c, rest)
  end.

Definition digit (c : ascii) : bool :=
  match Ascii.is_nat c with Some _ => true | None => false end.

Fixpoint all_digits (s : string) : bool :=
  match s with
  | "" => true
  | String c s' => digit c && all_digits s'
  end.

(** The text that follows a number does not go on with a digit. *)
Definition no_digit (r : string) : Prop :=
  match r with "" => True | String c _ => digit c = false end.

(** The text of a value that has one. *)
Definition text (v : value) : string := default "null" (JSON_stringify v).

Definition member_text (kv : string * value) : string :=
  quote kv.1 +:+ ":" +:+ text kv.2.

(** The first character of the text of a value tells its kind. *)
Definition kind (v : value) : nat :=
  match v with
  | VNull => 0 | VBool _ => 1 | VNum _ => 2 | VStr _ => 3
  | VArr _ _ => 4 | VObj _ _ => 5 | VUndef => 7
  end.

Definition kind_of_char (c : ascii) : nat :=
  if digit c then 2
  else if Ascii.eqb c dquote then 3
  else match c with
       | "n" => 0 | "t" | "f" => 1 | "-" => 2 | "[" => 4 | "{" => 5 | _ => 6
       end%char.

(** What may follow an item of an array or an object: a comma or the closing
    bracket. *)
Definition sep_next (close : ascii) (R : string) : Prop :=
  exists R', R = String "," R' \/ R = String close R'.

(** The text of an item, followed by a separator, determines the item. *)
Definition item_apart {A B} (txt : A -> string) (E : A -> B) (ok : A -> Prop)
  (close : ascii) (x : A) : Prop :=
  forall y R1 R2, ok y -> txt x +:+ R1 = txt y +:+ R2 ->
    sep_next close R1 -> sep_next close R2 -> E x = E y /\ R1 = R2.

Definition more (l : list string) : string :=
  match l with [] => "" | _ => "," +:+ join "," l end.

Definition tells_apart (a : value) : Prop :=
  forall b r1 r2, is_json b = true -> text a +:+ r1 = text b +:+ r2 ->
    no_digit r1 -> no_digit r2 -> erase a = erase b /\ r1 = r2.

(** ** The browser library and the process environment *)

Definition handle := nat.

(** Calls on a page that return nothing. *)
Inductive page_op :=
| Goto (url : value)
| SetViewport (width height : value)
| Click (selector : value)
| WaitForSelector (selector : value)
| TypeText (selector text : value)
| Select (selector choice : value)
| Hover (selector : value).

(** The three uses of [pg.evaluate] by the evaluate tool. *)
Inductive script :=
| InstallHelper
| UserScript (code : value)
| CollectLogs.

Inductive shot_target := WholePage (p : handle) | Element (el : handle).

(** What the browser library answers.  [W] is its hidden state; every call
    returns an outcome and the next hidden state. *)
Class Puppeteer (W : Type) := {
  launch : value -> W -> result handle * W;
  isConnected : handle -> W -> bool;
  close : handle -> W -> result unit * W;
  pages : handle -> W -> result (list handle) * W;
  perform : handle -> page_op -> W -> result unit * W;
  query : handle -> value -> W -> result (option handle) * W;
  screenshot : shot_target -> W -> result string * W;
  evaluate : handle -> script -> W -> result value * W
}.

(** The environment variables the server reads.  [JSON.parse] is not
    modelled: [PUPPETEER_LAUNCH_OPTIONS] is the value the variable parses to,
    and [None] when it is unset, empty or not JSON. *)
Record process_env := {
  PUPPETEER_LAUNCH_OPTIONS : option value;
  ALLOW_DANGEROUS : option string;
  DOCKER_CONTAINER : option string
}.

(** What the server does to the outside, in order. *)
Inductive event :=
| Launch (config : value)
| Close (b : handle)
| Pages (b : handle)
| OnConsole (p : handle)
| Perform (p : handle) (o : page_op)
| Query (p : handle) (selector : value)
| Screenshot (t : shot_target)
| Evaluate (p : handle) (s : script)
| Notification (method : string) (uri : option string).

Inductive content_item :=
| TextContent (text : string)
| ImageContent (data mimeType : string).

Record CallToolResult := {
  content : list content_item;
  isError : bool
}.

Record resource := {
  res_uri : string;
  res_mimeType : string;
  res_name : string
}.

Inductive resource_contents :=
| TextResource (uri mimeType text : string)
| BlobResource (uri mimeType blob : string).

Definition DANGEROUS_ARGS : list string :=
  [ "--no-sandbox"; "--disable-setuid-sandbox"; "--single-process";
    "--disable-web-security"; "--ignore-certificate-errors";
    "--disable-features=IsolateOrigins"; "--disable-site-isolation-trials";
    "--allow-running-insecure-content" ].

(** The names of [TOOLS]. *)
Definition TOOLS : list string :=
  [ "puppeteer_navigate"; "puppeteer_screenshot"; "puppeteer_click";
    "puppeteer_fill"; "puppeteer_select"; "puppeteer_hover";
    "puppeteer_evaluate" ].

(** [DANGEROUS_ARGS.some(d => a.startsWith(d))] *)
Definition dangerous (a : string) : bool :=
  existsb (startsWith a) DANGEROUS_ARGS.

Fixpoint strings_of (es : list value) : option (list string) :=
  match es with
  | [] => Some []
  | VStr s :: rest => cons s <$> strings_of rest
  | _ :: _ => None
  end.

(** [mergedConfig.args.filter(a => DANGEROUS_ARGS.some(...))]: a value that
    is not an array has no [filter], an element that is not a string has no
    [startsWith]. *)
Definition filter_dangerous (margs : value) : result (list string) :=
  match margs with
  | VArr _ es =>
      match strings_of es with
      | Some l => Ok (List.filter dangerous l)
      | None => Throw (TypeError "a.startsWith is not a function")
      end
  | _ => Throw (TypeError "mergedConfig.args.filter is not a function")
  end.

(** Is an environment variable set to a non-empty string, is it this string. *)
Definition env_truthy (x : option string) : bool :=
  match x with Some s => negb (String.eqb s "") | None => false end.

Definition env_is (x : option string) (s : string) : bool :=
  match x with Some s' => String.eqb s' s | None => false end.

(** ** Global state *)

Section Server.

Context {W : Type} `{!Puppeteer W}.
Variable env : process_env.

(** The module-level variables of [index.ts], with three additions of the
    model: the next free reference [heap], the hidden state [world] of the
    browser library, and the [trace] of what the server did to the outside,
    oldest first.  [page] is [None] for [null] and [undefined]. *)
Record state := {
  browser : option handle;
  page : option handle;
  consoleLogs : list string;
  screenshots : list (value * string);
  previousLaunchOptions : value;
  heap : ref;
  world : W;
  trace : list event
}.

Definition initial (h : ref) (w : W) : state :=
  {| browser := None; page := None; consoleLogs := []; screenshots := [];
     previousLaunchOptions := VNull; heap := h; world := w; trace := [] |}.

Definition set_browser (b : option handle) (st : state) : state :=
  {| browser := b; page := page st; consoleLogs := consoleLogs st;
     screenshots := screenshots st;
     previousLaunchOptions := previousLaunchOptions st; heap := heap st;
     world := world st; trace := trace st |}.

Definition set_page (p : option handle) (st : state) : state :=
  {| browser := browser st; page := p; consoleLogs := consoleLogs st;
     screenshots := screenshots st;
     previousLaunchOptions := previousLaunchOptions st; heap := heap st;
     world := world st; trace := trace st |}.

Definition set_consoleLogs (l : list string) (st : state) : state :=
  {| browser := browser st; page := page st; consoleLogs := l;
     screenshots := screenshots st;
     previousLaunchOptions := previousLaunchOptions st; heap := heap st;
     world := world st; trace := trace st |}.

Definition set_screenshots (m : list (value * string)) (st : state) : state :=
  {| browser := browser st; page := page st; consoleLogs := consoleLogs st;
     screenshots := m;
     previousLaunchOptions := previousLaunchOptions st; heap := heap st;
     world := world st; trace := trace st |}.

Definition set_previousLaunchOptions (v : value) (st : state) : state :=
  {| browser := browser st; page := page st; consoleLogs := consoleLogs st;
     screenshots := screenshots st;
     previousLaunchOptions := v; heap := heap st;
     world := world st; trace := trace st |}.

Definition set_heap (h : ref) (st : state) : state :=
  {| browser := browser st; page := page st; consoleLogs := consoleLogs st;
     screenshots := screenshots st;
     previousLaunchOptions := previousLaunchOptions st; heap := h;
     world := world st; trace := trace st |}.

(** One call to the outside: the event is recorded and the hidden state of
    the browser moves on. *)
Definition record (e : event) (w : W) (st : state) : state :=
  {| browser := browser st; page := page st; consoleLogs := consoleLogs st;
     screenshots := screenshots st;
     previousLaunchOptions := previousLaunchOptions st; heap := heap st;
     world := w; trace := trace st ++ [e] |}.

(** Statements of the server: they read and write the global state and may
    throw; what was written before a throw stays written. *)
Definition M (A : Type) : Type := state -> result A * state.

Definition ret {A} (a : A) : M A := fun st => (Ok a, st).

Definition bind {A B} (m : M A) (k : A -> M B) : M B :=
  fun st => match m st with
            | (Ok a, st') => k a st'
            | (Throw e, st') => (Throw e, st')
            end.

Definition throw {A} (e : exn) : M A := fun st => (Throw e, st).

Definition try_catch {A} (m : M A) (handler : exn -> M A) : M A :=
  fun st => match m st with
            | (Ok a, st') => (Ok a, st')
            | (Throw e, st') => handler e st'
            end.

Definition lift {A} (r : result A) : M A := fun st => (r, st).

Definition gets {A} (f : state -> A) : M A := fun st => (Ok (f st), st).

Definition modify (f : state -> state) : M unit := fun st => (Ok tt, f st).

Definition run {A} (m : alloc A) : M A :=
  fun st => match m (heap st) with
            | Ok (a, h) => (Ok a, set_heap h st)
            | Throw e => (Throw e, st)
            end.

Definition call {A} (e : event) (f : W -> result A * W) : M A :=
  fun st => let (r, w) := f (world st) in (r, record e w st).

(** [server.notification(...)] *)
Definition notification (method : string) (uri : option string) : M unit :=
  fun st => (Ok tt, record (Notification method uri) (world st) st).

(** A method call on [pg], which is [undefined] when the browser had no
    page. *)
Definition on_page {A} (pg : option handle) (f : handle -> M A) : M A :=
  match pg with
  | Some p => f p
  | None => throw (TypeError "Cannot read properties of undefined")
  end.

Notation "'do' x <- m ; k" := (bind m (fun x => k))
  (at level 10, x name, m at level 99, k at level 200).
Notation "m ;; k" := (bind m (fun _ => k))
  (at level 100, k at level 200, right associativity).

(** The listener installed by [page.on('console', ...)], run for a console
    message of type [type] and text [text]. *)
Definition console_listener (type text : string) : M unit :=
  modify (fun st =>
    set_consoleLogs (consoleLogs st ++ ["[" +:+ type +:+ "] " +:+ text]) st) ;;
  notification "notifications/resources/updated" (Some "console://logs").

(** ** Session manager *)

(** The merged configuration of [ensureBrowser]: the configuration of the
    environment, overridden by the per-call options. *)
Definition merge_launch_options (launchOptions : value) : alloc value :=
  let* envConfig := match PUPPETEER_LAUNCH_OPTIONS env with
                    | Some v => aret v
                    | None => new_object []
                    end in
  let* source := (if truthy launchOptions then aret launchOptions
                  else new_object []) in
  deepMerge envConfig source.

(** The first half of [ensureBrowser]: the merge and the check of the
    arguments of the merged configuration. *)
Definition mergedConfig_of (launchOptions allowDangerous : value) : M value :=
  do mergedConfig <- run (merge_launch_options launchOptions);
  do margs <- lift (get mergedConfig "args");
  (if truthy margs then
     do invalid <- lift (filter_dangerous margs);
     if negb (length invalid =? 0)
        && negb (truthy allowDangerous || env_is (ALLOW_DANGEROUS env) "true")
     then throw (Error ("Dangerous args detected: " +:+ join ", " invalid))
     else ret tt
   else ret tt) ;;
  ret mergedConfig.

(** The second half of [ensureBrowser]: close if disconnected or options
    changed, remember the options, launch when there is no browser, return
    the page. *)
Definition reuse_or_launch (launchOptions mergedConfig : value)
  : M (option handle) :=
  try_catch
    (do b <- gets browser;
     match b with
     | Some b =>
         do connected <- gets (fun st => isConnected b (world st));
         do previous <- gets previousLaunchOptions;
         if negb connected
         then call (Close b) (close b) ;; modify (set_browser None)
         else if truthy launchOptions
                 && bool_decide (JSON_stringify launchOptions
                                 <> JSON_stringify previous)
         then call (Close b) (close b) ;; modify (set_browser None)
         else ret tt
     | None => ret tt
     end)
    (fun _ => modify (set_browser None)) ;;
  modify (set_previousLaunchOptions launchOptions) ;;
  do b <- gets browser;
  match b with
  | Some _ => ret tt
  | None =>
      do defaults <- run (if env_truthy (DOCKER_CONTAINER env)
                          then let* a := new_array [VStr "--no-sandbox";
                                                    VStr "--single-process";
                                                    VStr "--no-zygote"] in
                               new_object [("headless", VBool true); ("args", a)]
                          else new_object [("headless", VBool false)]);
      do config <- run (deepMerge defaults mergedConfig);
      do b <- call (Launch config) (launch config);
      modify (set_browser (Some b)) ;;
      do ps <- call (Pages b) (pages b);
      modify (set_page (head ps)) ;;
      on_page (head ps) (fun p => call (OnConsole p) (fun w => (Ok tt, w)))
  end ;;
  gets page.

Definition ensureBrowser (args : value) : M (option handle) :=
  do launchOptions <- lift (get args "launchOptions");
  do allowDangerous <- lift (get args "allowDangerous");
  do mergedConfig <- mergedConfig_of launchOptions allowDangerous;
  reuse_or_launch launchOptions mergedConfig.

(** ** Tool dispatcher *)

Definition text_result (text : string) (err : bool) : CallToolResult :=
  {| content := [TextContent text]; isError := err |}.

Definition handleToolCall (name : string) (args : value) : M CallToolResult :=
  do pg <- ensureBrowser args;
  if String.eqb name "puppeteer_navigate" then
    do url <- lift (get args "url");
    on_page pg (fun p => call (Perform p (Goto url)) (perform p (Goto url))) ;;
    ret (text_result ("Navigated to " +:+ ToString url) false)
  else if String.eqb name "puppeteer_screenshot" then
    do width <- lift (get args "width");
    do height <- lift (get args "height");
    let w := nullish_or width (VNum 800) in
    let h := nullish_or height (VNum 600) in
    on_page pg (fun p =>
      call (Perform p (SetViewport w h)) (perform p (SetViewport w h))) ;;
    do selector <- lift (get args "selector");
    do shot <- (if truthy selector
                then do el <- on_page pg (fun p =>
                                 call (Query p selector) (query p selector));
                     match el with
                     | Some el =>
                         do s <- call (Screenshot (Element el))
                                   (screenshot (Element el));
                         ret (Some s)
                     | None => ret None
                     end
                else do s <- on_page pg (fun p =>
                                call (Screenshot (WholePage p))
                                  (screenshot (WholePage p)));
                     ret (Some s));
    match shot with
    | None | Some "" => ret (text_result "Screenshot failed" true)
    | Some shot =>
        do name <- lift (get args "name");
        modify (fun st => set_screenshots (Map_set (screenshots st) name shot) st) ;;
        notification "notifications/resources/updated"
          (Some ("screenshot://" +:+ ToString name)) ;;
        notification "notifications/resources/list_changed" None ;;
        do encoded <- lift (get args "encoded");
        ret {| content :=
                 [ TextContent ("Screenshot '" +:+ ToString name +:+ "' at "
                                +:+ ToString w +:+ "x" +:+ ToString h);
                   if truthy encoded
                   then TextContent ("data:image/png;base64," +:+ shot)
                   else ImageContent shot "image/png" ];
               isError := false |}
    end
  else if String.eqb name "puppeteer_click" then
    try_catch
      (do selector <- lift (get args "selector");
       on_page pg (fun p =>
         call (Perform p (Click selector)) (perform p (Click selector))) ;;
       ret (text_result ("Clicked " +:+ ToString selector) false))
      (fun e => ret (text_result ("Click failed: " +:+ message e) true))
  else if String.eqb name "puppeteer_fill" then
    try_catch
      (do selector <- lift (get args "selector");
       on_page pg (fun p =>
         call (Perform p (WaitForSelector selector))
           (perform p (WaitForSelector selector))) ;;
       do text <- lift (get args "value");
       on_page pg (fun p =>
         call (Perform p (TypeText selector text))
           (perform p (TypeText selector text))) ;;
       ret (text_result ("Filled " +:+ ToString selector) false))
      (fun e => ret (text_result ("Fill failed: " +:+ message e) true))
  else if String.eqb name "puppeteer_select" then
    try_catch
      (do selector <- lift (get args "selector");
       on_page pg (fun p =>
         call (Perform p (WaitForSelector selector))
           (perform p (WaitForSelector selector))) ;;
       do choice <- lift (get args "value");
       on_page pg (fun p =>
         call (Perform p (Select selector choice))
           (perform p (Select selector choice))) ;;
       ret (text_result ("Selected " +:+ ToString selector) false))
      (fun e => ret (text_result ("Select failed: " +:+ message e) true))
  else if String.eqb name "puppeteer_hover" then
    try_catch
      (do selector <- lift (get args "selector");
       on_page pg (fun p =>
         call (Perform p (WaitForSelector selector))
           (perform p (WaitForSelector selector))) ;;
       on_page pg (fun p =>
         call (Perform p (Hover selector)) (perform p (Hover selector))) ;;
       ret (text_result ("Hovered " +:+ ToString selector) false))
      (fun e => ret (text_result ("Hover failed: " +:+ message e) true))
  else if String.eqb name "puppeteer_evaluate" then
    try_catch
      (on_page pg (fun p =>
         call (Evaluate p InstallHelper) (evaluate p InstallHelper)) ;;
       do code <- lift (get args "script");
       do res <- on_page pg (fun p =>
                   call (Evaluate p (UserScript code))
                     (evaluate p (UserScript code)));
       do logs <- on_page pg (fun p =>
                    call (Evaluate p CollectLogs) (evaluate p CollectLogs));
       do lines <- lift (array_join logs nl);
       ret (text_result
              ("Result:" +:+ nl
               +:+ default "undefined" (JSON_stringify_indent "" res)
               +:+ nl +:+ "Logs:" +:+ nl +:+ lines) false))
      (fun e => ret (text_result ("Eval failed: " +:+ message e) true))
  else
    ret (text_result ("Unknown tool: " +:+ name) true).

(** ** Resource handlers *)

(** The handler of [ListResourcesRequestSchema]. *)
Definition listResources (st : state) : list resource :=
  {| res_uri := "console://logs"; res_mimeType := "text/plain";
     res_name := "Browser console logs" |}
  :: map (fun n => {| res_uri := "screenshot://" +:+ ToString n;
                      res_mimeType := "image/png";
                      res_name := "Screenshot: " +:+ ToString n |})
       (map fst (screenshots st)).

(** [l[1]] on the pieces of a split. *)
Definition second (l : list string) : value :=
  match l !! 1 with Some s => VStr s | None => VUndef end.

(** The handler of [ReadResourceRequestSchema]. *)
Definition readResource (st : state) (uri : string) : result resource_contents :=
  if String.eqb uri "console://logs"
  then Ok (TextResource uri "text/plain" (join nl (consoleLogs st)))
  else
    match (if startsWith uri "screenshot://"
           then Map_get (screenshots st) (second (str_split uri "://"))
           else None) with
    | Some (String c b) => Ok (BlobResource uri "image/png" (String c b))
    | _ => Throw (Error ("Resource not found: " +:+ uri))
    end.

(** The handler of [CallToolRequestSchema]: a request without arguments is
    served with [{}]. *)
Definition callTool (name : string) (arguments : value) : M CallToolResult :=
  do args <- (if truthy arguments then ret arguments else run (new_object []));
  handleToolCall name args.

(** A run of the server over a list of tool calls: the outcome of each call
    with the events it caused. *)
Fixpoint serve (calls : list (string * value)) (st : state)
  : list (result CallToolResult * list event) * state :=
  match calls with
  | [] => ([], st)
  | (name, arguments) :: rest =>
      let (r, st') := callTool name arguments st in
      let (rs, st'') := serve rest st' in
      ((r, drop (length (trace st)) (trace st')) :: rs, st'')
  end.

End Server.

Arguments state W : clear implicits.
Arguments M W A : clear implicits.

(** The events that are not a close or a launch, and those that are not a
    notification. *)
Definition quiet (e : event) : Prop :=
  match e with Close _ | Launch _ => False | _ => True end.

Definition silent (e : event) : Prop :=
  match e with Notification _ _ => False | _ => True end.

(** A capture that succeeds on the page [p], from the hidden state [w1] to
    [w2]: of the element a selector finds when one is given, of the whole
    page otherwise; [evs] are the calls made. *)
Definition captured {W} `{!Puppeteer W} (p : handle) (selector : value)
  (w1 : W) (shot : string) (evs : list event) (w2 : W) : Prop :=
  if truthy selector
  then exists el w', query p selector w1 = (Ok (Some el), w')
                     /\ screenshot (Element el) w' = (Ok shot, w2)
                     /\ evs = [Query p selector; Screenshot (Element el)]
  else screenshot (WholePage p) w1 = (Ok shot, w2)
       /\ evs = [Screenshot (WholePage p)].

(** ** Notions used in the further properties *)

(** The defaults of a launch: those of a container when [DOCKER_CONTAINER]
    is set. *)
Definition launch_defaults (env : process_env) : alloc value :=
  if env_truthy (DOCKER_CONTAINER env)
  then let* a := new_array [VStr "--no-sandbox"; VStr "--single-process";
                            VStr "--no-zygote"] in
       new_object [("headless", VBool true); ("args", a)]
  else new_object [("headless", VBool false)].

Arguments launch_defaults : simpl never.

(** A merged configuration whose [args] passed the check without an
    override: there are none, or they are strings none of which starts with
    a prefix of the deny list. *)
Definition args_checked (margs : value) : Prop :=
  truthy margs = false
  \/ exists r es l, margs = VArr r es /\ strings_of es = Some l
                    /\ Forall (fun a => dangerous a = false) l.

(** The calls [ops] on the page [p] succeed one after the other, from the
    hidden state [w] to [w']. *)
Fixpoint performed {W} `{!Puppeteer W} (p : handle) (ops : list page_op)
  (w w' : W) : Prop :=
  match ops with
  | [] => w' = w
  | o :: rest =>
      exists w1, perform p o w = (Ok tt, w1) /\ performed p rest w1 w'
  end.

(** The names under which a [Map] holds something. *)
Definition Map_keys {A} (m : list (value * A)) : list value := m.*1.

(** What the stored screenshots satisfy: no name is stored twice, and no
    picture is empty. *)
Definition screenshots_ok (m : list (value * string)) : Prop :=
  duplicate_free (Map_keys m) /\ Forall (fun kv => kv.2 <> "") m.





(** ** Runs of the server *)

(** One step of the server: it serves a tool call, or the listener of the
    page receives a console message. *)
Inductive step {W} `{!Puppeteer W} (env : process_env) (st : state W)
  : state W -> Prop :=
| step_call name arguments : step env st (callTool env name arguments st).2
| step_console type text : step env st (console_listener type text st).2.

(** ** A scripted browser, for the examples

    Its hidden state is the next free handle.  Every launch succeeds and
    opens one page; browsers stay connected; navigation succeeds for the
    URLs that start with "http" and fails for all others; every other call
    on a page succeeds; a screenshot of the page is one picture and a
    screenshot of an element another. *)

Definition scripted_perform (p : handle) (o : page_op) (w : nat)
  : result unit * nat :=
  match o with
  | Goto (VStr url) =>
      if startsWith url "http" then (Ok tt, w)
      else (Throw (Error "Cannot navigate to invalid URL"), w)
  | Goto _ => (Throw (Error "Cannot navigate to invalid URL"), w)
  | _ => (Ok tt, w)
  end.

Definition scripted_evaluate (p : handle) (s : script) (w : nat)
  : result value * nat :=
  match s with
  | InstallHelper => (Ok VUndef, w)
  | UserScript _ => (Ok (VNum 2), w)
  | CollectLogs => (Ok (VArr 0 []), w)
  end.

Definition scripted_screenshot (t : shot_target) (w : nat)
  : result string * nat :=
  match t with
  | WholePage _ => (Ok "iVBORw0KGgo=", w)
  | Element _ => (Ok "R0lGODlhAQABAAAAACw=", w)
  end.

#[local] Instance scripted : Puppeteer nat := {|
  launch _ w := (Ok w, S (S w));
  isConnected _ _ := true;
  close _ w := (Ok tt, w);
  pages b w := (Ok [S b], w);
  perform := scripted_perform;
  query _ _ w := (Ok (Some w), S w);
  screenshot := scripted_screenshot;
  evaluate := scripted_evaluate
|}.

(** No environment variable is set. *)
Definition no_env : process_env :=
  {| PUPPETEER_LAUNCH_OPTIONS := None; ALLOW_DANGEROUS := None;
     DOCKER_CONTAINER := None |}.

(** Inputs of the examples. *)
Definition headless : value := VObj 1 [("headless", VBool true)].

Definition navigate_headless : value :=
  VObj 0 [("url", VStr "https://example.com"); ("launchOptions", headless)].

Definition click_go : value := VObj 0 [("selector", VStr "#go")].

Definition sandbox_off : value :=
  VObj 1 [("args", VArr 2 [VStr "--no-sandbox"; VStr "--window-size=800,600";
                          VStr "--disable-web-security=1"])].

Definition navigate_sandbox_off : value :=
  VObj 0 [("url", VStr "https://example.com"); ("launchOptions", sandbox_off)].

Definition navigate_nowhere : value := VObj 0 [("url", VStr "not a url")].

Definition shot_home : value := VObj 0 [("name", VStr "home")].

Definition shot_logo : value :=
  VObj 0 [("name", VStr "home://logo"); ("selector", VStr "#logo")].

(** The server after a first navigation with [headless] launched the
    browser 0 with the page 1, and after a click that followed. *)
Definition after_navigate : state nat :=
  Eval vm_compute in
    (serve no_env [("puppeteer_navigate", navigate_headless)] (initial 100 0)).2.

Definition after_click : state nat :=
  Eval vm_compute in
    (serve no_env [("puppeteer_click", click_go)] after_navigate).2.

(** The server after a second navigation, with the options [sandbox_off],
    was refused. *)
Definition after_refused : state nat :=
  Eval vm_compute in
    (serve no_env [("puppeteer_navigate", navigate_headless);
                   ("puppeteer_navigate", navigate_sandbox_off)]
       (initial 100 0)).2.

(** The server after two screenshots, named "home" and "home://logo". *)
Definition after_shots : state nat :=
  Eval vm_compute in
    (serve no_env [("puppeteer_screenshot", shot_home);
                   ("puppeteer_screenshot", shot_logo)] (initial 100 0)).2.

(** The server after the session-ensure step of a first call without
    per-call options. *)
Definition launched : state nat :=
  Eval vm_compute in (ensureBrowser no_env shot_home (initial 100 0)).2.

(** An environment whose launch configuration asks for a headless browser,
    and the server after a first navigation with the empty options [{}]. *)
Definition env_headless : process_env :=
  {| PUPPETEER_LAUNCH_OPTIONS := Some (VObj 50 [("headless", VBool true)]);
     ALLOW_DANGEROUS := None; DOCKER_CONTAINER := None |}.

Definition navigate_plain : value :=
  VObj 0 [("url", VStr "https://example.com"); ("launchOptions", VObj 1 [])].

Definition after_navigate_plain : state nat :=
  Eval vm_compute in
    (serve env_headless [("puppeteer_navigate", navigate_plain)] (initial 100 0)).2.

Definition base_config : value :=
  VObj 0 [("headless", VBool false); ("timeout", VObj 1 [("connect", VNum 5)])].

Definition override_config : value :=
  VObj 2 [("headless", VBool true); ("timeout", VObj 3 [("idle", VNull)])].

(** ** Two more browsers, for the examples

    A browser that cannot be launched, and one that launches but then fails
    at every turn: it is never connected, refuses to close, finds no
    element, and throws when it waits for a selector, takes a picture or
    runs the script of the caller. *)


Definition flaky_perform (p : handle) (o : page_op) (w : nat)
  : result unit * nat :=
  match o with
  | WaitForSelector _ => (Throw (Error "Waiting for selector failed"), w)
  | _ => (Ok tt, w)
  end.

Definition flaky_evaluate (p : handle) (s : script) (w : nat)
  : result value * nat :=
  match s with
  | UserScript _ => (Throw (Error "boom"), w)
  | _ => (Ok VUndef, w)
  end.

Definition flaky : Puppeteer nat := {|
  launch _ w := (Ok w, S (S w));
  isConnected _ _ := false;
  close _ w := (Throw (Error "Connection closed"), w);
  pages b w := (Ok [S b], w);
  perform := flaky_perform;
  query _ _ w := (Ok None, w);
  screenshot _ w := (Throw (Error "Target closed"), w);
  evaluate := flaky_evaluate
|}.



(** The server on the flaky browser after a first call. *)
Definition launched_flaky : state nat :=
  Eval vm_compute in (@ensureBrowser nat flaky no_env click_go (initial 100 0)).2.

(** A container. *)
Definition env_container : process_env :=
  {| PUPPETEER_LAUNCH_OPTIONS := None; ALLOW_DANGEROUS := None;
     DOCKER_CONTAINER := Some "true" |}.

(** More inputs of the examples. *)
Definition window_size : value :=
  VObj 1 [("args", VArr 2 [VStr "--window-size=800,600"])].

Definition navigate_window_size : value :=
  VObj 0 [("url", VStr "https://example.com"); ("launchOptions", window_size)].

Definition fill_name : value :=
  VObj 0 [("selector", VStr "#name"); ("value", VStr "Ada")].

Definition evaluate_title : value := VObj 0 [("script", VStr "document.title")].


Definition shot_wide : value :=
  VObj 0 [("name", VStr "home"); ("width", VNum 1024); ("height", VNum 768)].

Definition viewport_null : value := VObj 0 [("defaultViewport", VNull)].

Definition viewport_wide : value :=
  VObj 1 [("defaultViewport", VObj 2 [("width", VNum 1280)])].

(** The server after a screenshot call that came without arguments. *)
Definition after_unnamed_shot : state nat :=
  Eval vm_compute in
    (serve no_env [("puppeteer_screenshot", VUndef)] (initial 100 0)).2.

(** The merge of [override_config] into [base_config]. *)
Definition merged_config : value :=
  VObj 10 [("headless", VBool true);
           ("timeout", VObj 11 [("connect", VNum 5); ("idle", VNull)])].

(** The server after the session-ensure step of a first call with the
    options [window_size]: under [env_headless], and in a container. *)
Definition windowed : state nat :=
  Eval vm_compute in
    (ensureBrowser env_headless navigate_window_size (initial 100 0)).2.

Definition contained : state nat :=
  Eval vm_compute in
    (ensureBrowser env_container navigate_window_size (initial 100 0)).2.






(** * Properties *)

#[local] Set Warnings "-clear-no-such-hyp".

(** ** Induction on values *)

Lemma value_ind (P : value -> Prop) :
  P VUndef -> P VNull -> (forall b, P (VBool b)) -> (forall n, P (VNum n)) ->
  (forall s, P (VStr s)) ->
  (forall r es, Forall P es -> P (VArr r es)) ->
  (forall r ps, Forall (fun kv => P kv.2) ps -> P (VObj r ps)) ->
  forall v, P v.
Proof.
  intros Hu Hn Hb Hz Hs Ha Ho.
  fix IH 1. intros [| |b|n|s|r es|r ps].
  - exact Hu.
  - exact Hn.
  - apply Hb.
  - apply Hz.
  - apply Hs.
  - apply Ha. induction es as [|e es IHes]; constructor; [apply IH|exact IHes].
  - apply Ho. induction ps as [|[k v] ps IHps]; constructor; [apply IH|exact IHps].
Qed.

(** ** Numbers as text *)

(** Up to 2^53 a number is printed with its digits; beyond, with the fewest
    digits that denote the double, followed by zeros up to 10^21 and by an
    exponent from there on. *)
Example Number_toString_examples :
  Number_toString 800 = "800" /\ Number_toString (-600) = "-600"
  /\ Number_toString (2 ^ 53) = "9007199254740992"
  /\ Number_toString (2 ^ 64) = "18446744073709552000"
  /\ Number_toString (10 ^ 21 - 131072) = "999999999999999900000"
  /\ Number_toString (10 ^ 21) = "1e+21"
  /\ Number_toString (2 ^ 70) = "1.1805916207174113e+21"
  /\ Number_toString (10 ^ 23) = "1e+23"
  /\ Number_toString (2 ^ 1024 - 2 ^ 971) = "1.7976931348623157e+308".
Proof. by vm_compute. Qed.

(** ** Properties of objects *)

Ltac cases :=
  repeat (case_decide || case_bool_decide); simplify_eq/=; try done.

Lemma own_update ps k v k' :
  own (update ps k v) k' =
    if decide (k = k') then (fun _ => v) <$> own ps k else own ps k'.
Proof.
  induction ps as [|[k0 v0] ps IH]; simpl; cases.
  all: rewrite ?IH; cases.
Qed.

Lemma own_insert_new ps k v k' :
  own ps k = None ->
  own (insert_new ps k v) k' = if decide (k = k') then Some v else own ps k'.
Proof.
  induction ps as [|[k0 v0] ps IH]; simpl; intros Hk; cases.
  all: destruct (key_before _ _); simpl; cases.
  all: rewrite ?IH by done; cases.
Qed.

Lemma own_assign ps k v k' :
  own (assign ps k v) k' = if decide (k = k') then Some v else own ps k'.
Proof.
  unfold assign. destruct (own ps k) eqn:Hk.
  - rewrite own_update, Hk. by destruct (decide _).
  - by apply own_insert_new.
Qed.

Lemma own_elem_of ps k v : NoDup ps.*1 -> (k, v) ∈ ps -> own ps k = Some v.
Proof.
  induction ps as [|[k0 v0] ps IH]; simpl; intros Hnd Hin.
  - by apply elem_of_nil in Hin.
  - apply NoDup_cons in Hnd as [Hnotin Hnd].
    apply elem_of_cons in Hin as [[= -> ->]|Hin].
    + by rewrite bool_decide_true.
    + rewrite bool_decide_false; [by apply IH|].
      intros ->. apply Hnotin. apply list_elem_of_fmap. by exists (k, v).
Qed.

Lemma own_Some_elem_of ps k v : own ps k = Some v -> (k, v) ∈ ps.
Proof.
  induction ps as [|[k0 v0] ps IH]; simpl; [done|].
  case_bool_decide; intros Hk.
  - simplify_eq. apply elem_of_cons; auto.
  - apply elem_of_cons; auto.
Qed.

(** ** Properties of sets *)

Lemma same_value_zero_refl x : same_value_zero x x = true.
Proof. destruct x; simpl; cases. Qed.

Lemma same_value_zero_sym x y : same_value_zero x y = same_value_zero y x.
Proof. destruct x, y; simpl; cases. Qed.

Lemma same_value_zero_trans x y z :
  same_value_zero x y = true -> same_value_zero y z = true ->
  same_value_zero x z = true.
Proof. destruct x, y, z; simpl; cases. Qed.

Lemma existsb_same x l :
  existsb (same_value_zero x) l = true <->
  exists y, y ∈ l /\ same_value_zero x y = true.
Proof.
  rewrite existsb_exists. by setoid_rewrite list_elem_of_In.
Qed.

Lemma existsb_same_false x l :
  existsb (same_value_zero x) l = false <->
  forall y, y ∈ l -> same_value_zero x y = false.
Proof.
  rewrite <-not_true_iff_false, existsb_same. split.
  - intros Hn y Hy. apply not_true_iff_false. eauto.
  - intros Hn (y & Hy & Hs). by rewrite Hn in Hs.
Qed.

Lemma duplicate_free_snoc l x :
  duplicate_free l -> existsb (same_value_zero x) l = false ->
  duplicate_free (l ++ [x]).
Proof.
  intros Hl Hx. rewrite existsb_same_false in Hx.
  induction Hl as [|y l Hy Hl IH]; simpl.
  - constructor; [|constructor]. by intros ? ?%elem_of_nil.
  - constructor.
    + intros z [Hz| ->%list_elem_of_singleton]%elem_of_app; [by apply Hy|].
      rewrite same_value_zero_sym. apply Hx, elem_of_cons; auto.
    + apply IH. intros z Hz. apply Hx, elem_of_cons; auto.
Qed.

Lemma Set_add_duplicate_free l x :
  duplicate_free l -> duplicate_free (Set_add l x).
Proof.
  intros Hl. unfold Set_add.
  destruct (existsb _ _) eqn:Hx; [done|by apply duplicate_free_snoc].
Qed.

Lemma fold_Set_add_duplicate_free l acc :
  duplicate_free acc -> duplicate_free (fold_left Set_add l acc).
Proof.
  revert acc. induction l as [|x l IH]; simpl; [done|].
  intros acc Hacc. by apply IH, Set_add_duplicate_free.
Qed.

(** Adding keeps what was there, in place, and appends only new values. *)
Lemma fold_Set_add_app l acc :
  exists added,
    fold_left Set_add l acc = acc ++ added
    /\ (forall y, y ∈ added ->
          y ∈ l /\ forall x, x ∈ acc -> same_value_zero x y = false).
Proof.
  revert acc. induction l as [|x l IH]; simpl; intros acc.
  - exists []. split; [by rewrite app_nil_r|]. by intros ? ?%elem_of_nil.
  - destruct (IH (Set_add acc x)) as (added & -> & Hadded).
    unfold Set_add in *. destruct (existsb _ _) eqn:Hx.
    + exists added. split; [done|]. intros y Hy.
      destruct (Hadded y Hy) as [? ?]. split; [apply elem_of_cons; auto|done].
    + exists (x :: added). split; [by rewrite <-app_assoc|].
      rewrite existsb_same_false in Hx.
      intros y [->|Hy]%elem_of_cons.
      * split; [apply elem_of_cons; auto|].
        intros z Hz. rewrite same_value_zero_sym. by apply Hx.
      * destruct (Hadded y Hy) as [? Hn]. split; [apply elem_of_cons; auto|].
        intros z Hz. apply Hn, elem_of_app; auto.
Qed.

Lemma fold_Set_add_covers l acc x :
  x ∈ acc ++ l ->
  exists y, y ∈ fold_left Set_add l acc /\ same_value_zero x y = true.
Proof.
  revert acc x. induction l as [|x' l IH]; simpl; intros acc x Hx.
  - rewrite app_nil_r in Hx. exists x. by rewrite same_value_zero_refl.
  - apply elem_of_app in Hx as [Hx|[->|Hx]%elem_of_cons].
    + apply IH. apply elem_of_app. left. unfold Set_add.
      destruct (existsb _ _); [done|apply elem_of_app; auto].
    + unfold Set_add. destruct (existsb _ _) eqn:Hx'.
      * apply existsb_same in Hx' as (y & Hy & Hs).
        destruct (IH acc y) as (z & Hz & Hyz); [apply elem_of_app; auto|].
        exists z. split; [done|]. by eapply same_value_zero_trans.
      * apply IH, elem_of_app. left. apply elem_of_app. right.
        by apply list_elem_of_singleton.
    + apply IH, elem_of_app; auto.
Qed.

Lemma fold_Set_add_absorbed l acc :
  (forall x, x ∈ l -> existsb (same_value_zero x) acc = true) ->
  fold_left Set_add l acc = acc.
Proof.
  induction l as [|x l IH]; simpl; intros Hl; [done|].
  unfold Set_add at 2. rewrite Hl by (apply elem_of_cons; auto).
  apply IH. intros y Hy. apply Hl, elem_of_cons; auto.
Qed.

Lemma fold_Set_add_distinct l acc :
  duplicate_free (acc ++ l) -> fold_left Set_add l acc = acc ++ l.
Proof.
  revert acc. induction l as [|x l IH]; simpl; intros acc Hd.
  - by rewrite app_nil_r.
  - assert (existsb (same_value_zero x) acc = false) as Hx.
    { apply existsb_same_false. intros y Hy.
      clear IH. induction acc as [|a acc IHacc]; [by apply elem_of_nil in Hy|].
      inversion Hd as [|? ? Ha Hd']; subst.
      apply elem_of_cons in Hy as [->|Hy].
      - rewrite same_value_zero_sym. apply Ha, elem_of_app. right.
        apply elem_of_cons; auto.
      - by apply IHacc. }
    unfold Set_add. rewrite Hx. rewrite IH; rewrite <-app_assoc; done.
Qed.

(** The union of two arrays, as [deepMerge] computes it. *)
Lemma Set_from_union t s :
  duplicate_free (Set_from (t ++ s))
  /\ (forall x, x ∈ t ++ s ->
        exists y, y ∈ Set_from (t ++ s) /\ same_value_zero x y = true)
  /\ (forall y, y ∈ Set_from (t ++ s) -> y ∈ t ++ s)
  /\ exists added,
       Set_from (t ++ s) = Set_from t ++ added
       /\ forall y, y ∈ added ->
            y ∈ s /\ forall x, x ∈ t -> same_value_zero x y = false.
Proof.
  unfold Set_from. split; [|split; [|split]].
  - apply fold_Set_add_duplicate_free. constructor.
  - intros x Hx. by apply fold_Set_add_covers.
  - intros y Hy. destruct (fold_Set_add_app (t ++ s) []) as (added & Heq & Hadded).
    rewrite Heq in Hy. by apply Hadded.
  - rewrite fold_left_app.
    destruct (fold_Set_add_app s (fold_left Set_add t [])) as (added & Heq & Hadded).
    exists added. split; [done|]. intros y Hy.
    destruct (Hadded y Hy) as [Hs Hn]. split; [done|].
    intros x Hx. destruct (fold_Set_add_covers t [] x Hx) as (z & Hz & Hxz).
    destruct (same_value_zero x y) eqn:Hxy; [|done].
    rewrite <-(Hn z Hz). rewrite same_value_zero_sym in Hxz.
    by rewrite (same_value_zero_trans z x y).
Qed.

Lemma Set_from_union_idempotent t s :
  Set_from (Set_from (t ++ s) ++ s) = Set_from (t ++ s).
Proof.
  destruct (Set_from_union t s) as (Hd & Hcov & _ & _).
  unfold Set_from at 1. rewrite fold_left_app.
  rewrite (fold_Set_add_distinct (Set_from (t ++ s)) []) by done. simpl.
  apply fold_Set_add_absorbed. intros x Hx. apply existsb_same.
  apply Hcov, elem_of_app; auto.
Qed.

(** [Set] tells two objects apart even when they have the same content, and
    recognizes one object met twice. *)
Example Set_from_objects :
  Set_from ([VObj 1 []] ++ [VObj 2 []]) = [VObj 1 []; VObj 2 []]
  /\ same_content (VObj 1 []) (VObj 2 [])
  /\ Set_from ([VObj 1 []] ++ [VObj 1 []]) = [VObj 1 []].
Proof. by split_and!. Qed.

(** ** Properties of the config merger *)

Lemma abind_Ok {A B} (m : alloc A) (k : A -> alloc B) h r :
  abind m k h = Ok r <-> exists a h1, m h = Ok (a, h1) /\ k a h1 = Ok r.
Proof.
  unfold abind. destruct (m h) as [[a h1]|e]; split.
  - eauto.
  - by intros (? & ? & [= <- <-] & ?).
  - done.
  - by intros (? & ? & ? & ?).
Qed.

Lemma alift_Ok {A} (r : result A) h a h1 :
  alift r h = Ok (a, h1) <-> r = Ok a /\ h1 = h.
Proof. unfold alift. destruct r; naive_solver. Qed.

Lemma merge_key_Ok rec target key s out h out1 h1 :
  merge_key rec target key s out h = Ok (out1, h1) <->
  exists t v, get target key = Ok t /\ merge_value rec t s h = Ok (v, h1)
              /\ out1 = assign out key v.
Proof.
  unfold merge_key. rewrite abind_Ok. setoid_rewrite abind_Ok.
  setoid_rewrite alift_Ok. unfold aret. naive_solver.
Qed.

Lemma merge_elems_indexed rec target i es out h :
  merge_elems rec target i es out h = merge_props rec target (indexed i es) out h.
Proof.
  revert i out h. induction es as [|e es IH]; simpl; intros i out h; [done|].
  unfold abind. destruct (merge_key _ _ _ _ _ _) as [[out1 h1]|]; [apply IH|done].
Qed.

(** After the loop, the result holds under every key of the source the value
    merged for that key, and is as before under every other key. *)
Lemma merge_props_own rec target ps out h out' h' :
  merge_props rec target ps out h = Ok (out', h') ->
  NoDup ps.*1 ->
  (forall k, k ∉ ps.*1 -> own out' k = own out k)
  /\ (forall k s, (k, s) ∈ ps ->
        exists t v h1 h2, get target k = Ok t
                          /\ merge_value rec t s h1 = Ok (v, h2)
                          /\ own out' k = Some v).
Proof.
  revert out h. induction ps as [|[key s] ps IH]; simpl; intros out h Hm Hnd.
  - injection Hm as <- <-. split; [done|]. by intros ? ? ?%elem_of_nil.
  - apply abind_Ok in Hm as (out1 & h1 & Hk & Hm).
    apply merge_key_Ok in Hk as (t & v & Ht & Hv & ->).
    apply NoDup_cons in Hnd as [Hkey Hnd].
    destruct (IH _ _ Hm Hnd) as [Hout Hin]. split.
    + intros k [Hne Hk]%not_elem_of_cons.
      rewrite Hout, own_assign by done. by rewrite decide_False.
    + intros k s' [[= -> ->]|Hks]%elem_of_cons.
      * exists t, v, h, h1. split_and!; [done..|].
        rewrite Hout, own_assign by done. by rewrite decide_True.
      * by apply Hin.
Qed.

(** The properties of an object or an array the loop of [deepMerge] runs
    over. *)
Lemma deepMerge_object target source h out h' :
  typeof target = "object" -> typeof source = "object" -> source <> VNull ->
  deepMerge target source h = Ok (out, h') <->
  exists ps, merge_props deepMerge target (entries source) (entries target) (S h)
               = Ok (ps, h')
             /\ out = VObj h ps.
Proof.
  intros Ht Hs Hnull.
  destruct source as [| | | | |r es|r ps]; try done; simpl;
    rewrite Ht; simpl; unfold abind, fresh, aret;
    rewrite ?merge_elems_indexed;
    destruct (merge_props _ _ _ _ _) as [[out1 h1]|]; naive_solver.
Qed.

Lemma indexed_keys_NoDup i es : NoDup (indexed i es).*1.
Proof.
  revert i. induction es as [|e es IH]; simpl; intros i; constructor; [|done].
  assert (forall j k, k ∈ (indexed j es).*1 ->
            exists n, j <= n /\ k = pretty n) as Hkeys.
  { clear. induction es as [|e es IH]; simpl; intros j k Hk.
    - by apply elem_of_nil in Hk.
    - apply elem_of_cons in Hk as [->|Hk]; [by exists j|].
      destruct (IH _ _ Hk) as (n & ? & ->). exists n. split; [lia|done]. }
  intros (n & Hn & Heq%(inj pretty))%Hkeys. lia.
Qed.

(** When the [typeof] of either operand is not "object", [deepMerge]
    returns the override at once. *)
Lemma deepMerge_primitive target source h :
  typeof target <> "object" \/ typeof source <> "object" ->
  deepMerge target source h = Ok (source, h).
Proof.
  intros Hty.
  assert (bool_decide (typeof target <> "object")
          || bool_decide (typeof source <> "object") = true) as Hb.
  { destruct Hty; apply orb_true_iff; [left|right]; by apply bool_decide_eq_true. }
  destruct source; simpl; simpl in Hb; by rewrite ?Hb.
Qed.

(** C4 (as amended).  When the [typeof] of either operand is not "object" --
    the operand is [undefined], a boolean, a number or a string; arrays and
    [null] have the [typeof] "object" -- [deepMerge] returns the override and
    creates nothing. *)
Theorem deepMerge_not_object target source h :
  typeof target <> "object" \/ typeof source <> "object" ->
  deepMerge target source h = Ok (source, h).
Proof. apply deepMerge_primitive. Qed.

Lemma deepMerge_not_object_witness :
  (typeof (VNum 1) <> "object" \/ typeof (VArr 0 [VNum 5]) <> "object")
  /\ deepMerge (VNum 1) (VArr 0 [VNum 5]) 1 = Ok (VArr 0 [VNum 5], 1).
Proof.
  split; [left; discriminate|].
  apply (deepMerge_not_object (VNum 1) (VArr 0 [VNum 5]) 1). left. discriminate.
Defined.

(** C4 fails as stated: an array override of an object base is merged into a
    copy of the base, key by key, and a [null] override of an object base
    makes the merge throw; neither returns the override. *)
Lemma deepMerge_override_not_returned :
  (isArray (VArr 1 [VNum 5]) = true
   /\ deepMerge (VObj 0 [("a", VNum 1)]) (VArr 1 [VNum 5]) 2
      = Ok (VObj 2 [("0", VNum 5); ("a", VNum 1)], 3)
   /\ VObj 2 [("0", VNum 5); ("a", VNum 1)] <> VArr 1 [VNum 5])
  /\ deepMerge (VObj 0 [("a", VNum 1)]) VNull 2
     = Throw (TypeError "Cannot convert undefined or null to object").
Proof. by split_and!; vm_compute. Qed.

(** C5.  At a key where both operands hold arrays, the merged object holds a
    new array with the elements of [new Set([...t, ...s])]: no two of them
    are the same value, every element of either array is among them, and
    they are the base's elements, in order, followed by those elements of
    the override that the base has not. *)
Theorem deepMerge_array_union target source h out h' k r1 t r2 s :
  deepMerge target source h = Ok (out, h') ->
  NoDup (entries source).*1 ->
  (k, VArr r2 s) ∈ entries source ->
  get target k = Ok (VArr r1 t) ->
  exists r,
    get out k = Ok (VArr r (Set_from (t ++ s)))
    /\ duplicate_free (Set_from (t ++ s))
    /\ (forall x, x ∈ t ++ s ->
          exists y, y ∈ Set_from (t ++ s) /\ same_value_zero x y = true)
    /\ (forall y, y ∈ Set_from (t ++ s) -> y ∈ t ++ s)
    /\ exists added,
         Set_from (t ++ s) = Set_from t ++ added
         /\ forall y, y ∈ added ->
              y ∈ s /\ forall x, x ∈ t -> same_value_zero x y = false.
Proof.
  intros Hm Hnd Hs Ht.
  assert (typeof target = "object") as Htt by (by destruct target).
  assert (typeof source = "object" /\ source <> VNull) as [Hts Hnull].
  { destruct source; try done; simpl in Hs; by apply elem_of_nil in Hs. }
  apply deepMerge_object in Hm as (ps & Hm & ->); [|done..].
  destruct (merge_props_own _ _ _ _ _ _ _ Hm Hnd) as [_ Hin].
  destruct (Hin _ _ Hs) as (t' & v & h1 & h2 & Ht' & Hv & Hown).
  rewrite Ht in Ht'. injection Ht' as <-.
  unfold merge_value in Hv. simpl in Hv. injection Hv as <- <-.
  exists h1. split; [by simpl; rewrite Hown|]. apply Set_from_union.
Qed.


(** ** Merging twice *)

Lemma absorbs_object mr mps r sps :
  absorbs (VObj mr mps) (VObj r sps) <->
  Forall (fun kv => exists mv, own mps kv.1 = Some mv /\ absorbs mv kv.2) sps.
Proof.
  simpl. induction sps as [|[k sv] sps IH].
  - split; [constructor|done].
  - rewrite Forall_cons, <-IH. done.
Qed.

Lemma distinct_keys_object r ps :
  distinct_keys (VObj r ps) <->
  NoDup ps.*1 /\ Forall (fun kv => distinct_keys kv.2) ps.
Proof.
  simpl. apply and_iff_compat_l. induction ps as [|[k v] ps IH].
  - split; [constructor|done].
  - rewrite Forall_cons, <-IH. done.
Qed.

Lemma no_arrays_object r ps :
  no_arrays (VObj r ps) = true <-> Forall (fun kv => no_arrays kv.2 = true) ps.
Proof. simpl. by rewrite forallb_forall, Forall_forall; setoid_rewrite list_elem_of_In. Qed.

Lemma absorbs_self s : distinct_keys s -> absorbs s s.
Proof.
  induction s as [| | | | |r es _|r ps IH] using value_ind; try done.
  rewrite distinct_keys_object, absorbs_object. intros [Hnd Hd].
  rewrite Forall_forall in IH, Hd. apply Forall_forall. intros [k v] Hkv.
  exists v. split; [by apply own_elem_of|]. by apply (IH (k, v)), (Hd (k, v)).
Qed.

(** What a merge returns holds the override. *)
Lemma deepMerge_absorbs s :
  no_arrays s = true -> distinct_keys s ->
  forall t h m h1, deepMerge t s h = Ok (m, h1) -> absorbs m s.
Proof.
  induction s as [| | | | |r es _|r ps IH] using value_ind;
    intros Hna Hd t h m h1 Hm; try done.
  1-5: destruct (decide (typeof t = "object")) as [Ht|Ht];
    try (rewrite deepMerge_primitive in Hm by auto; by injection Hm as <- _);
    simpl in Hm; rewrite Ht in Hm; try done;
    rewrite deepMerge_primitive in Hm by (right; done); by injection Hm as <- _.
  destruct (decide (typeof t = "object")) as [Ht|Ht].
  - apply deepMerge_object in Hm as (out & Hm & ->); [|done..].
    apply distinct_keys_object in Hd as [Hnd Hd].
    destruct (merge_props_own _ _ _ _ _ _ _ Hm Hnd) as [_ Hin].
    apply absorbs_object, Forall_forall. intros [k sv] Hkv.
    destruct (Hin _ _ Hkv) as (t' & v & h2 & h3 & _ & Hv & Hown).
    exists v. split; [done|].
    rewrite no_arrays_object in Hna.
    rewrite Forall_forall in IH, Hna, Hd.
    specialize (IH _ Hkv (Hna _ Hkv) (Hd _ Hkv)). simpl in *.
    unfold merge_value in Hv.
    assert (isArray sv = false) as Hsv.
    { specialize (Hna _ Hkv). simpl in Hna. by destruct sv. }
    rewrite Hsv, andb_false_r in Hv.
    destruct (truthy sv && bool_decide (typeof sv = "object")) eqn:Hobj.
    + by eapply IH.
    + injection Hv as <- _. by destruct sv.
  - rewrite deepMerge_primitive in Hm by auto. injection Hm as <- _.
    by apply absorbs_self.
Qed.

Lemma own_erase_props ps k : own (erase_props ps) k = erase <$> own ps k.
Proof. induction ps as [|[k0 v0] ps IH]; simpl; cases. Qed.

Lemma erase_props_assign out k v v0 :
  own out k = Some v0 -> erase v = erase v0 ->
  erase_props (assign out k v) = erase_props out.
Proof.
  intros Hown Hv. unfold assign. rewrite Hown. clear -Hown Hv.
  induction out as [|[k0 v1] out IH]; simpl in *; [done|].
  cases; [by rewrite Hv|]. by rewrite IH.
Qed.

(** Merging the override into a value that holds it already changes
    nothing but the references of the copies. *)
Lemma absorbs_deepMerge s :
  no_arrays s = true -> typeof s = "object" -> s <> VNull ->
  forall m, absorbs m s ->
  forall h, exists m' h', deepMerge m s h = Ok (m', h') /\ erase m' = erase m.
Proof.
  induction s as [| | | | |r es _|r ps IH] using value_ind;
    intros Hna Hty Hnull m Habs h; try done.
  destruct m as [| | | | | |mr mps]; try done.
  rewrite absorbs_object in Habs. rewrite no_arrays_object in Hna.
  setoid_rewrite deepMerge_object; [|done..]. simpl.
  cut (forall out h, erase_props out = erase_props mps ->
         exists out' h', merge_props deepMerge (VObj mr mps) ps out h = Ok (out', h')
                         /\ erase_props out' = erase_props mps).
  { intros Hloop. destruct (Hloop mps (S h) eq_refl) as (out' & h' & Hm & He).
    exists (VObj h out'), h'. split; [by exists out'|]. simpl.
    f_equal. exact He. }
  clear h Hty Hnull. induction ps as [|[k sv] ps IHps]; intros out h Hout; simpl.
  - by exists out, h.
  - apply Forall_cons in IH as [IHsv IH]. apply Forall_cons in Hna as [Hsv Hna].
    apply Forall_cons in Habs as [(mv & Hmv & Habs_sv) Habs]. simpl in *.
    assert (exists v h1, merge_value deepMerge mv sv h = Ok (v, h1)
                         /\ erase v = erase mv) as (v & h1 & Hv & Hev).
    { unfold merge_value.
      assert (isArray sv = false) as -> by (by destruct sv).
      rewrite andb_false_r.
      destruct (truthy sv && bool_decide (typeof sv = "object")) eqn:Hobj.
      - apply andb_true_iff in Hobj as [Htr Hobj%bool_decide_eq_true].
        apply IHsv; [done..| |done]. by intros ->.
      - exists sv, h. split; [done|]. destruct sv; try done; simpl in Habs_sv; by subst. }
    assert (exists v0, own out k = Some v0 /\ erase v = erase v0) as (v0 & Hv0 & Hev0).
    { assert (own (erase_props out) k = Some (erase mv)) as Ho.
      { by rewrite Hout, own_erase_props, Hmv. }
      rewrite own_erase_props in Ho. destruct (own out k) as [v0|]; [|done].
      exists v0. split; [done|]. simpl in Ho. congruence. }
    destruct (IHps IH Hna Habs (assign out k v) h1) as (out' & h' & Hm & He).
    { by rewrite (erase_props_assign _ _ _ v0). }
    exists out', h'. split; [|done].
    apply abind_Ok. exists (assign out k v), h1. split; [|done].
    apply merge_key_Ok. exists mv, v. split_and!; [|done..].
    simpl. by rewrite Hmv.
Qed.

(** C6.  Merging the same override a second time changes nothing when the
    override holds no array: the second merge returns a value with the
    content of the first result.  And the union of arrays absorbs a second
    union with the same array. *)
Theorem deepMerge_idempotent a b h m h1 :
  typeof b = "object" -> b <> VNull ->
  no_arrays b = true -> distinct_keys b ->
  deepMerge a b h = Ok (m, h1) ->
  (forall h2, exists m' h3, deepMerge m b h2 = Ok (m', h3) /\ same_content m' m)
  /\ (forall t s, Set_from (Set_from (t ++ s) ++ s) = Set_from (t ++ s)).
Proof.
  intros Hty Hnull Hna Hd Hm. split; [|apply Set_from_union_idempotent].
  intros h2. apply absorbs_deepMerge; [done..|]. by eapply deepMerge_absorbs.
Qed.

(** ** JSON.stringify tells values apart *)

Lemma app_cons c s t : String c s +:+ t = String c (s +:+ t).
Proof. done. Qed.

Lemma app_empty s : "" +:+ s = s.
Proof. done. Qed.

Lemma app_assoc' s t u : (s +:+ t) +:+ u = s +:+ (t +:+ u).
Proof. induction s as [|c s IH]; [done|]. by rewrite !app_cons, IH. Qed.

(** *** Characters *)

Lemma unescape_escape_char c r : unescape (escape_char c +:+ r) = Some (c, r).
Proof. by destruct c as [[] [] [] [] [] [] [] []]. Qed.

Lemma escape_inj s1 s2 r1 r2 :
  escape s1 +:+ String dquote r1 = escape s2 +:+ String dquote r2 ->
  s1 = s2 /\ r1 = r2.
Proof.
  revert s2. induction s1 as [|c1 s1 IH]; intros [|c2 s2]; simpl.
  - by intros [= ->].
  - rewrite app_assoc'. intros Heq.
    pose proof (unescape_escape_char c2 (escape s2 +:+ String dquote r2)) as Hu.
    by rewrite <-Heq in Hu.
  - rewrite app_assoc'. intros Heq.
    pose proof (unescape_escape_char c1 (escape s1 +:+ String dquote r1)) as Hu.
    by rewrite Heq in Hu.
  - rewrite !app_assoc'. intros Heq.
    pose proof (unescape_escape_char c1 (escape s1 +:+ String dquote r1)) as Hu.
    rewrite Heq, unescape_escape_char in Hu. injection Hu as <- Hrest.
    destruct (IH _ (eq_sym Hrest)) as [-> ->]. done.
Qed.

Lemma quote_inj s1 s2 r1 r2 :
  quote s1 +:+ r1 = quote s2 +:+ r2 -> s1 = s2 /\ r1 = r2.
Proof.
  unfold quote. rewrite !app_cons, !app_assoc', !app_cons, !app_empty.
  intros [= Heq]. by apply escape_inj.
Qed.

(** *** Numbers *)

Lemma all_digits_app s t :
  all_digits (s +:+ t) = all_digits s && all_digits t.
Proof.
  induction s as [|c s IH]; [done|]. rewrite app_cons. simpl.
  by rewrite IH, andb_assoc.
Qed.

Lemma pretty_N_char_digit x : digit (pretty_N_char x) = true.
Proof. unfold pretty_N_char. by repeat case_match. Qed.

Lemma pretty_N_go_digits x s :
  exists d, pretty_N_go x s = d +:+ s /\ all_digits d = true
            /\ ((0 < x)%N -> d <> "").
Proof.
  revert s. induction (N.lt_wf_0 x) as [x _ IH]; intros s.
  destruct (decide (x = 0)%N) as [->|Hx].
  - exists "". rewrite pretty_N_go_0. split_and!; [done..|lia].
  - rewrite pretty_N_go_step by lia.
    destruct (IH (x `div` 10)%N) with (s := String (pretty_N_char (x `mod` 10)) s)
      as (d & -> & Hd & _).
    { apply N.div_lt; lia. }
    exists (d +:+ String (pretty_N_char (x `mod` 10)) "").
    split_and!.
    + by rewrite app_assoc'.
    + rewrite all_digits_app, Hd. simpl. by rewrite pretty_N_char_digit.
    + intros _. by destruct d.
Qed.

Lemma pretty_N_digits (n : N) :
  exists c d, pretty n = String c d /\ digit c = true /\ all_digits d = true.
Proof.
  unfold pretty, pretty_N. case_decide as Hn.
  - by exists "0"%char, "".
  - destruct (pretty_N_go_digits n "") as (d & -> & Hd & Hne).
    destruct d as [|c d]; [by destruct Hne; [lia|]|].
    exists c, (d +:+ ""). apply andb_true_iff in Hd as [? ?].
    rewrite all_digits_app. split_and!; [done..|]. by rewrite andb_true_r.
Qed.

Lemma digits_span d1 d2 r1 r2 :
  all_digits d1 = true -> all_digits d2 = true -> no_digit r1 -> no_digit r2 ->
  d1 +:+ r1 = d2 +:+ r2 -> d1 = d2 /\ r1 = r2.
Proof.
  revert d2. induction d1 as [|c1 d1 IH]; intros [|c2 d2]; simpl;
    intros Hd1 Hd2 Hr1 Hr2; rewrite ?app_cons, ?app_empty.
  - done.
  - intros ->. apply andb_true_iff in Hd2 as [? ?]. simpl in Hr1. congruence.
  - intros <-. apply andb_true_iff in Hd1 as [? ?]. simpl in Hr2. congruence.
  - intros [= <- Heq]. apply andb_true_iff in Hd1 as [? ?].
    apply andb_true_iff in Hd2 as [? ?].
    destruct (IH d2) as [-> ->]; auto.
Qed.

Lemma pretty_N_span (n1 n2 : N) r1 r2 :
  no_digit r1 -> no_digit r2 ->
  pretty n1 +:+ r1 = pretty n2 +:+ r2 -> n1 = n2 /\ r1 = r2.
Proof.
  intros Hr1 Hr2 Heq.
  destruct (pretty_N_digits n1) as (c1 & d1 & E1 & Hc1 & Hd1).
  destruct (pretty_N_digits n2) as (c2 & d2 & E2 & Hc2 & Hd2).
  destruct (digits_span (pretty n1) (pretty n2) r1 r2) as [Hn ->]; try done.
  - rewrite E1. simpl. by rewrite Hc1.
  - rewrite E2. simpl. by rewrite Hc2.
  - by apply (inj pretty) in Hn.
Qed.

Lemma pretty_Z_span (n1 n2 : Z) r1 r2 :
  no_digit r1 -> no_digit r2 ->
  pretty n1 +:+ r1 = pretty n2 +:+ r2 -> n1 = n2 /\ r1 = r2.
Proof.
  intros Hr1 Hr2.
  assert (forall p : positive, exists c d,
            pretty (Npos p) = String c d /\ digit c = true) as Hpos.
  { intros p. destruct (pretty_N_digits (Npos p)) as (c & d & ? & ? & _). eauto. }
  assert (forall p q : positive,
            pretty (Npos p) +:+ r1 = pretty (Npos q) +:+ r2 -> p = q /\ r1 = r2)
    as Hspan.
  { intros p q Heq. apply pretty_N_span in Heq as [[= ->] ->]; done. }
  destruct n1 as [|p|p], n2 as [|q|q];
    change (pretty 0%Z) with "0";
    change (pretty (Z.pos ?x)) with (pretty (N.pos x));
    change (pretty (Z.neg ?x)) with ("-" +:+ pretty (N.pos x));
    rewrite ?app_assoc', ?app_cons, ?app_empty; intros Heq.
  - by injection Heq as ->.
  - change (String "0" r1) with (pretty 0%N +:+ r1) in Heq.
    apply pretty_N_span in Heq as [? ?]; done.
  - done.
  - change (String "0" r2) with (pretty 0%N +:+ r2) in Heq.
    apply pretty_N_span in Heq as [? ?]; done.
  - apply Hspan in Heq as [-> ->]. done.
  - destruct (Hpos p) as (c & d & E & Hc). rewrite E, app_cons in Heq.
    injection Heq as -> _. done.
  - done.
  - destruct (Hpos q) as (c & d & E & Hc). rewrite E, app_cons in Heq.
    injection Heq as <- _. done.
  - injection Heq as Heq. apply Hspan in Heq as [-> ->]. done.
Qed.

(** *** Values *)

Lemma app_empty_r s : s +:+ "" = s.
Proof. induction s as [|c s IH]; [done|]. by rewrite app_cons, IH. Qed.

Lemma text_head v :
  is_json v = true ->
  exists c t, text v = String c t /\ kind_of_char c = kind v /\ kind v <= 5.
Proof.
  unfold text. destruct v as [| |[]|n|s|r es|r ps]; simpl; try done;
    try (intros _; eexists _, _; split_and!; [reflexivity|reflexivity|lia]).
  intros _. destruct n as [|p|p].
  - exists "0"%char, "". split_and!; [done..|lia].
  - destruct (pretty_N_digits (Npos p)) as (c & d & E & Hc & _).
    exists c, d. split; [done|]. unfold kind_of_char. rewrite Hc. split; [done|lia].
  - eexists _, _; split_and!; [reflexivity|reflexivity|lia].
Qed.

Lemma omap_member ps :
  forallb (fun kv => is_json kv.2) ps = true ->
  omap (member ":" JSON_stringify) ps = map member_text ps.
Proof.
  induction ps as [|[k v] ps IH]; simpl; [done|].
  intros [Hv Hps]%andb_true_iff. specialize (IH Hps).
  unfold member, member_text, text. simpl.
  destruct v; try done; simpl; f_equal; exact IH.
Qed.

Lemma text_array r es :
  text (VArr r es) = String "[" (join "," (map text es) +:+ "]").
Proof. done. Qed.

Lemma text_object r ps :
  forallb (fun kv => is_json kv.2) ps = true ->
  text (VObj r ps) = String "{" (join "," (map member_text ps) +:+ "}").
Proof. intros Hps. unfold text. simpl. by rewrite omap_member. Qed.

Section items.
Context {A B : Type} (txt : A -> string) (E : A -> B) (ok : A -> Prop).
Context (close : ascii).
Hypothesis close_not_comma : close <> ","%char.
Hypothesis head : forall x, ok x -> exists c t, txt x = String c t /\ c <> close.

Lemma join_cons x l : join "," (x :: l) = x +:+ more l.
Proof. destruct l; simpl; [by rewrite app_empty_r|done]. Qed.

Lemma items_prefix l :
  Forall ok l -> Forall (item_apart txt E ok close) l ->
  forall l' r1 r2, Forall ok l' ->
    join "," (map txt l) +:+ String close r1
    = join "," (map txt l') +:+ String close r2 ->
    map E l = map E l' /\ r1 = r2.
Proof.
  induction l as [|x l IH]; intros Hok Hap [|y l'] r1 r2 Hok'.
  - simpl. by intros [= ->].
  - apply Forall_cons in Hok' as [Hy _]. destruct (head y Hy) as (c & t & E1 & Hc).
    rewrite (map_cons _ y), join_cons, E1. simpl. by intros [= <-].
  - apply Forall_cons in Hok as [Hx _]. destruct (head x Hx) as (c & t & E1 & Hc).
    rewrite (map_cons _ x), join_cons, E1. simpl. by intros [= ->].
  - apply Forall_cons in Hok as [Hx Hok]. apply Forall_cons in Hok' as [Hy Hok'].
    apply Forall_cons in Hap as [Hapx Hap].
    rewrite !map_cons, !join_cons, !app_assoc'. intros Heq.
    assert (forall (l0 : list string) r,
              sep_next close (more l0 +:+ String close r)) as Hsep.
    { intros [|??] r; eexists; [right|left]; done. }
    destruct (Hapx y _ _ Hy Heq (Hsep _ _) (Hsep _ _)) as [HE Hrest].
    rewrite HE. destruct l as [|x1 l], l' as [|y1 l'].
    + simpl in Hrest. by injection Hrest as ->.
    + simpl in Hrest. injection Hrest as ? _. done.
    + simpl in Hrest. injection Hrest as ? _. done.
    + change (more (map txt (x1 :: l)))
        with ("," +:+ join "," (map txt (x1 :: l))) in Hrest.
      change (more (map txt (y1 :: l')))
        with ("," +:+ join "," (map txt (y1 :: l'))) in Hrest.
      rewrite !app_assoc', !app_cons, !app_empty in Hrest.
      injection Hrest as Hrest.
      destruct (IH Hok Hap (y1 :: l') r1 r2 Hok' Hrest) as [-> ->]. done.
Qed.
End items.

Lemma head_kind a b r1 r2 :
  is_json a = true -> is_json b = true ->
  text a +:+ r1 = text b +:+ r2 -> kind a = kind b.
Proof.
  intros Ha Hb Heq.
  destruct (text_head a Ha) as (c & t & E1 & <- & _).
  destruct (text_head b Hb) as (c' & t' & E2 & <- & _).
  rewrite E1, E2 in Heq. by injection Heq as -> _.
Qed.

Lemma sep_next_no_digit close R :
  digit close = false -> sep_next close R -> no_digit R.
Proof. by intros Hc [R' [-> | ->]]. Qed.

Lemma stringify_prefix a : is_json a = true -> tells_apart a.
Proof.
  induction a as [| |x|x|x|r es IH|r ps IH] using value_ind;
    intros Ha b r1 r2 Hb Heq Hr1 Hr2;
    pose proof (head_kind _ _ _ _ Ha Hb Heq) as Hk;
    destruct b as [| |y|y|y|r' es'|r' ps']; try done.
  - by apply (String.app_inj "null") in Heq as ->.
  - destruct x, y; unfold text in Heq; simpl in Heq;
      rewrite !app_cons, ?app_empty in Heq; by simplify_eq.
  - unfold text in Heq. simpl in Heq.
    by apply pretty_Z_span in Heq as [-> ->].
  - unfold text in Heq. simpl in Heq. by apply quote_inj in Heq as [-> ->].
  - rewrite !text_array, !app_cons, !app_assoc', !app_cons, !app_empty in Heq.
    injection Heq as Heq. simpl in Ha, Hb.
    rewrite forallb_forall in Ha, Hb. setoid_rewrite <-list_elem_of_In in Ha.
    setoid_rewrite <-list_elem_of_In in Hb.
    apply (items_prefix text erase (fun v => is_json v = true) "]") in Heq
      as [Hes ->]; [by simpl; rewrite Hes|done|..].
    + intros v Hv. destruct (text_head v Hv) as (c & t & E1 & Hc & Hle).
      exists c, t. split; [done|]. intros ->.
      change (kind_of_char "]") with 6 in Hc. lia.
    + by apply Forall_forall.
    + apply Forall_forall. intros e He y R1 R2 Hy HeqR HR1 HR2.
      rewrite Forall_forall in IH.
      apply (IH e He (Ha e He) y R1 R2 Hy HeqR); by apply (sep_next_no_digit "]").
    + by apply Forall_forall.
  - simpl in Ha, Hb. rewrite !text_object in Heq by done.
    rewrite !app_cons, !app_assoc', !app_cons, !app_empty in Heq.
    injection Heq as Heq.
    rewrite forallb_forall in Ha, Hb. setoid_rewrite <-list_elem_of_In in Ha.
    setoid_rewrite <-list_elem_of_In in Hb.
    apply (items_prefix member_text (fun kv => (kv.1, erase kv.2))
             (fun kv => is_json kv.2 = true) "}") in Heq
      as [Hps ->]; [by simpl; rewrite Hps|done|..].
    + intros [k v] _. by eexists _, _.
    + by apply Forall_forall.
    + apply Forall_forall. intros [k v] Hkv [k' v'] R1 R2 Hy HeqR HR1 HR2.
      unfold member_text in HeqR. simpl in *.
      rewrite !app_assoc' in HeqR. apply quote_inj in HeqR as [-> HeqR].
      rewrite !app_cons, !app_empty in HeqR. injection HeqR as HeqR.
      rewrite Forall_forall in IH.
      destruct (IH _ Hkv (Ha _ Hkv) v' R1 R2 Hy HeqR) as [Hv HR];
        [by apply (sep_next_no_digit "}")..|]. simpl in Hv. by rewrite Hv, HR.
    + by apply Forall_forall.
Qed.

(** Two values out of [JSON.parse] with the same text have the same
    content, and a value has no text only when it is [undefined]. *)
Lemma JSON_stringify_inj a b :
  is_json a = true -> is_json b = true ->
  JSON_stringify a = JSON_stringify b -> erase a = erase b.
Proof.
  intros Ha Hb Heq.
  destruct (stringify_prefix a Ha b "" "" Hb) as [? _]; [|done..].
  unfold text. by rewrite Heq.
Qed.

Lemma JSON_stringify_erase a : JSON_stringify (erase a) = JSON_stringify a.
Proof.
  induction a as [| | | | |r es IH|r ps IH] using value_ind; try done; simpl.
  - do 4 f_equal. rewrite map_map. apply map_ext_Forall.
    eapply Forall_impl; [done|]. by intros e ->.
  - do 4 f_equal. induction IH as [|[k v] ps Hv _ IHps]; [done|].
    simpl in *. unfold member. simpl. rewrite Hv.
    destruct (JSON_stringify v); simpl; [f_equal|]; exact IHps.
Qed.

Lemma JSON_stringify_None a : JSON_stringify a = None <-> a = VUndef.
Proof. by destruct a. Qed.

(** ** The config merger returns on the defaults *)

Lemma get_null_free target k t :
  null_free target = true -> get target k = Ok t -> null_free t = true.
Proof.
  destruct target as [| | | | |r es|r ps]; simpl; try done;
    try (by intros _ [= <-]).
  - intros Hes. rewrite forallb_forall in Hes.
    destruct (array_index k) as [i|]; intros [= <-].
    + destruct (es !! N.to_nat i) as [e|] eqn:He; [|done]. simpl.
      apply Hes, list_elem_of_In. by eapply list_elem_of_lookup_2.
    + by case_bool_decide.
  - intros Hps. rewrite forallb_forall in Hps. intros [= <-].
    destruct (own ps k) as [v|] eqn:Hv; [|done]. simpl.
    apply own_Some_elem_of, list_elem_of_In in Hv. by apply (Hps _ Hv).
Qed.

Lemma deepMerge_returns source :
  source <> VNull ->
  forall target h, null_free target = true ->
    exists out h', deepMerge target source h = Ok (out, h').
Proof.
  assert (forall target (ps : props),
    null_free target = true -> typeof target = "object" ->
    Forall (fun kv => kv.2 <> VNull -> forall target h, null_free target = true ->
              exists out h', deepMerge target kv.2 h = Ok (out, h')) ps ->
    forall out h, exists out' h',
      merge_props deepMerge target ps out h = Ok (out', h')) as Hloop.
  { intros target ps Hnf Hty. induction 1 as [|[k s] ps IHs _ IHps];
      intros out h; simpl; [by eexists _, _|].
    assert (exists t, get target k = Ok t /\ null_free t = true) as (t & Ht & Htn).
    { destruct (get target k) as [t|] eqn:Ht;
        [|destruct target; try done; simpl in Ht; by repeat case_match].
      exists t. split; [done|]. by eapply get_null_free. }
    assert (exists v h1, merge_value deepMerge t s h = Ok (v, h1)) as (v & h1 & Hv).
    { unfold merge_value. destruct (isArray t && isArray s); [by eexists _, _|].
      destruct (truthy s && _) eqn:Hs; [|by eexists _, _].
      apply (IHs); [|done]. simpl. intros ->. done. }
    destruct (IHps (assign out k v) h1) as (out' & h' & Hm).
    exists out', h'. apply abind_Ok. exists (assign out k v), h1.
    split; [|done]. apply merge_key_Ok. by exists t, v. }
  induction source as [| | | | |r es IH|r ps IH] using value_ind;
    intros Hnull target h Hnf; try done;
    try (by eexists _, _; apply deepMerge_primitive; right).
  all: destruct (decide (typeof target = "object")) as [Hty|Hty];
    [|by eexists _, _; apply deepMerge_primitive; left].
  all: setoid_rewrite deepMerge_object; [|done..].
  - destruct (Hloop target (indexed 0 es) Hnf Hty) with (out := entries target)
      (h := S h) as (out' & h' & Hm); [|by eexists _, _, _].
    clear -IH. generalize 0. induction IH as [|e es He _ IHes]; intros i;
      constructor; [exact He|apply IHes].
  - destruct (Hloop target ps Hnf Hty IH (entries target) (S h))
      as (out' & h' & Hm). by eexists _, _, _.
Qed.

Lemma deepMerge_not_null target source h out h' :
  source <> VNull -> deepMerge target source h = Ok (out, h') -> out <> VNull.
Proof.
  intros Hnull Hm.
  destruct (decide (typeof target = "object")) as [Ht|Ht];
    [destruct (decide (typeof source = "object")) as [Hs|Hs]|].
  - apply deepMerge_object in Hm as (ps & _ & ->); done.
  - rewrite deepMerge_primitive in Hm by auto. by injection Hm as <- _.
  - rewrite deepMerge_primitive in Hm by auto. by injection Hm as <- _.
Qed.

(** ** The session manager *)

Section Session.
Context {W : Type} `{!Puppeteer W} (env : process_env).

Ltac monad :=
  unfold bind, ret, throw, lift, gets, modify, run, call, try_catch, on_page,
    notification in *; simpl in *.

Lemma mergedConfig_of_eq lo allow st :
  mergedConfig_of env lo allow st =
    match merge_launch_options env lo (heap st)
          return result value * state W with
    | Throw e => (Throw e, st)
    | Ok (merged, h') =>
        let st' := set_heap h' st in
        match get merged "args" with
        | Throw e => (Throw e, st')
        | Ok margs =>
            if truthy margs then
              match filter_dangerous margs with
              | Throw e => (Throw e, st')
              | Ok invalid =>
                  if negb (length invalid =? 0)
                     && negb (truthy allow
                              || env_is (ALLOW_DANGEROUS env) "true")
                  then (Throw (Error ("Dangerous args detected: "
                                      +:+ join ", " invalid)), st')
                  else (Ok merged, st')
              end
            else (Ok merged, st')
        end
    end.
Proof.
  unfold mergedConfig_of. monad.
  destruct (merge_launch_options env lo (heap st)) as [[merged h']|e]; [|done].
  destruct (get merged "args") as [margs|e]; [|done].
  destruct (truthy margs); [|done].
  destruct (filter_dangerous margs) as [invalid|e]; [|done].
  by destruct (negb _ && negb _).
Qed.

Lemma ensureBrowser_eq args st :
  ensureBrowser env args st =
    match get args "launchOptions", get args "allowDangerous"
          return result (option handle) * state W with
    | Ok lo, Ok allow =>
        match mergedConfig_of env lo allow st with
        | (Ok merged, st') => reuse_or_launch env lo merged st'
        | (Throw e, st') => (Throw e, st')
        end
    | Throw e, _ | _, Throw e => (Throw e, st)
    end.
Proof.
  unfold ensureBrowser. monad.
  destruct (get args "launchOptions"); [|done].
  destruct (get args "allowDangerous"); [|done].
  by destruct (mergedConfig_of _ _ _ _) as [[]].
Qed.


Lemma world_record e w (st : state W) : world (record e w st) = w.
Proof. done. Qed.

Lemma set_heap_same (st : state W) : set_heap (heap st) st = st.
Proof. by destruct st. Qed.

(** The first half writes nothing but the allocation pointer. *)
Lemma mergedConfig_of_state lo allow (st : state W) r st1 :
  mergedConfig_of env lo allow st = (r, st1) -> st1 = set_heap (heap st1) st.
Proof.
  rewrite mergedConfig_of_eq. intros Heq.
  repeat (case_match; simplify_eq; simpl in *; try done);
    by rewrite set_heap_same.
Qed.

Lemma mergedConfig_of_not_null lo allow (st : state W) merged st1 :
  mergedConfig_of env lo allow st = (Ok merged, st1) -> merged <> VNull.
Proof.
  rewrite mergedConfig_of_eq.
  destruct (merge_launch_options env lo (heap st)) as [[m h']|] eqn:Hm; [|done].
  intros Heq. assert (merged = m) as ->.
  { repeat (case_match; simplify_eq; simpl in *; try done). }
  clear Heq. unfold merge_launch_options in Hm.
  apply abind_Ok in Hm as (envConfig & h1 & _ & Hm).
  apply abind_Ok in Hm as (source & h2 & Hs & Hm).
  eapply deepMerge_not_null; [|done].
  destruct (truthy lo) eqn:Hlo.
  - injection Hs as <- _. by intros ->.
  - unfold new_object, abind, fresh, aret in Hs. injection Hs as <- _. done.
Qed.


(** C7 (as amended).  A call whose per-call options have the content of
    those remembered from the call before it, and that passes the check,
    finds the browser connected and reuses it: nothing is closed or
    launched, the state changes only in the remembered options and the
    allocation pointer, and the page of the session is returned. *)
Theorem ensureBrowser_reuse args (st : state W) lo allow merged st1 b :
  get args "launchOptions" = Ok lo ->
  get args "allowDangerous" = Ok allow ->
  mergedConfig_of env lo allow st = (Ok merged, st1) ->
  browser st = Some b ->
  isConnected b (world st) = true ->
  same_content lo (previousLaunchOptions st) ->
  ensureBrowser env args st
  = (Ok (page st), set_previousLaunchOptions lo (set_heap (heap st1) st)).
Proof.
  intros Hlo Hallow Hcheck Hb Hconn Hsame.
  rewrite ensureBrowser_eq, Hlo, Hallow, Hcheck.
  rewrite (mergedConfig_of_state _ _ _ _ _ Hcheck).
  assert (JSON_stringify lo = JSON_stringify (previousLaunchOptions st)) as Hjs.
  { rewrite <-(JSON_stringify_erase lo), Hsame. apply JSON_stringify_erase. }
  unfold reuse_or_launch. monad. rewrite Hb. simpl. rewrite Hconn. simpl.
  rewrite (bool_decide_false _) by (by intros []).
  rewrite andb_false_r. simpl. by rewrite Hb.
Qed.

(** C8 (as amended).  A call that passes the check and supplies per-call
    options whose content differs from that of the remembered options --
    those of the last call before it that passed the check, none when that
    call carried none -- closes the browser of the session and launches one:
    the events of the call are one close, one launch and, after them, no
    other close or launch, whatever the merged configuration is.  The
    options are a JSON value; they and the launch options of the
    environment are free of the key "__proto__". *)
Theorem ensureBrowser_relaunch args (st : state W) lo allow merged st1 b :
  get args "launchOptions" = Ok lo ->
  get args "allowDangerous" = Ok allow ->
  proto_free lo = true ->
  (forall v, PUPPETEER_LAUNCH_OPTIONS env = Some v -> proto_free v = true) ->
  mergedConfig_of env lo allow st = (Ok merged, st1) ->
  browser st = Some b ->
  truthy lo = true ->
  is_json lo = true ->
  is_json (previousLaunchOptions st) = true \/ previousLaunchOptions st = VUndef ->
  ~ same_content lo (previousLaunchOptions st) ->
  exists r st' config tail,
    ensureBrowser env args st = (r, st')
    /\ trace st' = trace st ++ Close b :: Launch config :: tail
    /\ Forall quiet tail.
Proof.
  intros Hlo Hallow _ _ Hcheck Hb Htruthy Hjson Hprev Hdiff.
  rewrite ensureBrowser_eq, Hlo, Hallow, Hcheck.
  pose proof (mergedConfig_of_not_null _ _ _ _ _ Hcheck) as Hnull.
  rewrite (mergedConfig_of_state _ _ _ _ _ Hcheck).
  assert (JSON_stringify lo <> JSON_stringify (previousLaunchOptions st)) as Hjs.
  { intros Heq. apply Hdiff. destruct Hprev as [Hprev|Hprev].
    - by apply JSON_stringify_inj.
    - rewrite Hprev in Heq. apply JSON_stringify_None in Heq. by subst. }
  assert (forall defaults h, null_free defaults = true ->
            exists config h2, deepMerge defaults merged h = Ok (config, h2))
    as Hmerge.
  { intros defaults h Hnf. by apply deepMerge_returns. }
  unfold reuse_or_launch. monad. rewrite Hb. simpl.
  rewrite (bool_decide_true _) by done. rewrite Htruthy. simpl.
  assert (exists defaults h1,
    (if env_truthy (DOCKER_CONTAINER env)
     then abind (new_array [VStr "--no-sandbox"; VStr "--single-process";
                            VStr "--no-zygote"])
            (fun a => new_object [("headless", VBool true); ("args", a)])
     else new_object [("headless", VBool false)]) (heap st1)
    = Ok (defaults, h1) /\ null_free defaults = true)
    as (defaults & h1 & Hdef & Hnf).
  { destruct (env_truthy _); by eexists _, _. }
  destruct (Hmerge defaults h1 Hnf) as (config & h2 & Hcfg).
  destruct (isConnected b (world st)); simpl;
    destruct (close b (world st)) as [[[]|e] w1]; simpl;
    rewrite Hdef; simpl; rewrite Hcfg; simpl;
    destruct (launch config w1) as [[b'|e'] w2]; simpl;
    try (destruct (pages b' w2) as [[[|p ps]|e''] w3]; simpl);
    eexists _, _, config, _; (split; [reflexivity|]);
    (split; [simpl; rewrite <-?app_assoc; reflexivity|]);
    repeat constructor.
Qed.

(** The session-ensure step sends no notification. *)
Lemma ensureBrowser_silent args (st : state W) r st' :
  ensureBrowser env args st = (r, st') ->
  exists evs, trace st' = trace st ++ evs /\ Forall silent evs.
Proof.
  rewrite ensureBrowser_eq.
  destruct (get args "launchOptions") as [lo|];
    [|intros [= <- <-]; exists []; by rewrite app_nil_r].
  destruct (get args "allowDangerous") as [allow|];
    [|intros [= <- <-]; exists []; by rewrite app_nil_r].
  destruct (mergedConfig_of env lo allow st) as [[merged|e] st1] eqn:Hcheck;
    rewrite (mergedConfig_of_state _ _ _ _ _ Hcheck);
    [|intros [= <- <-]; exists []; by rewrite app_nil_r].
  generalize (heap st1). clear Hcheck st1. intros h.
  unfold reuse_or_launch. intros Hrun.
  repeat (first [progress monad | case_match]; simplify_eq);
    eexists; (split; [rewrite <-?app_assoc; try reflexivity;
                      symmetry; apply app_nil_r|]);
    repeat constructor.
Qed.

(** ** The tool dispatcher *)

(** C3 (as amended).  A call of a tool that is not in the tool set runs the
    session-ensure step like every other call -- which may launch, close and
    relaunch the browser, and remembers the per-call options -- and does
    nothing more: when that step returns, the result is the error result
    that names the tool; when it throws, so does the call. *)
Theorem handleToolCall_unknown name args (st : state W) :
  name ∉ TOOLS ->
  handleToolCall env name args st =
    match ensureBrowser env args st with
    | (Ok _, st') => (Ok (text_result ("Unknown tool: " +:+ name) true), st')
    | (Throw e, st') => (Throw e, st')
    end.
Proof.
  intros Hname. unfold handleToolCall, bind at 1.
  destruct (ensureBrowser env args st) as [[pg|e] st']; [|done].
  assert (forall t, t ∈ TOOLS -> String.eqb name t = false) as Hne.
  { intros t Ht. apply String.eqb_neq. by intros ->. }
  rewrite !Hne by (unfold TOOLS; set_solver). done.
Qed.

(** C2 fails on the code: a failure of the navigation is not converted, it
    is thrown by the call.  So is a failure of the capture of a
    screenshot. *)
Theorem navigate_failure_is_thrown args (st : state W) p st1 url e w' :
  ensureBrowser env args st = (Ok (Some p), st1) ->
  get args "url" = Ok url ->
  perform p (Goto url) (world st1) = (Throw e, w') ->
  handleToolCall env "puppeteer_navigate" args st
  = (Throw e, record (Perform p (Goto url)) w' st1).
Proof.
  intros Hensure Hurl Hgoto. unfold handleToolCall, bind at 1.
  rewrite Hensure. simpl. monad. by rewrite Hurl, Hgoto.
Qed.

Lemma screenshot_failure_is_thrown args (st : state W) p st1 width height
    selector e w1 w2 :
  ensureBrowser env args st = (Ok (Some p), st1) ->
  get args "width" = Ok width -> get args "height" = Ok height ->
  get args "selector" = Ok selector -> truthy selector = false ->
  let w := nullish_or width (VNum 800) in
  let h := nullish_or height (VNum 600) in
  perform p (SetViewport w h) (world st1) = (Ok tt, w1) ->
  screenshot (WholePage p) w1 = (Throw e, w2) ->
  (handleToolCall env "puppeteer_screenshot" args st).1 = Throw e.
Proof.
  intros Hensure Hw Hh Hsel Hts w h Hview Hshot. unfold handleToolCall, bind at 1.
  rewrite Hensure. simpl. monad. rewrite Hw, Hh. simpl. fold w h.
  rewrite Hview. simpl. rewrite Hsel, Hts. simpl. by rewrite Hshot.
Qed.

(** The other tools convert what is thrown after the session-ensure step:
    their calls return a result, and an error result is one text. *)
Lemma handleToolCall_caught name args (st : state W) pg st1 :
  name ∈ ["puppeteer_click"; "puppeteer_fill"; "puppeteer_select";
          "puppeteer_hover"; "puppeteer_evaluate"] ->
  ensureBrowser env args st = (Ok pg, st1) ->
  exists res st', handleToolCall env name args st = (Ok res, st')
    /\ (isError res = true -> exists t, content res = [TextContent t]).
Proof.
  intros Hname Hensure. unfold handleToolCall, bind at 1. rewrite Hensure.
  repeat (apply elem_of_cons in Hname as [->|Hname]);
    [..|by apply elem_of_nil in Hname]; simpl;
    repeat (first [progress monad | case_match]; simplify_eq);
    eexists _, _; (split; [reflexivity|]); simpl; eauto; done.
Qed.

Lemma Map_get_set {A} (m : list (value * A)) k x :
  Map_get (Map_set m k x) k = Some x.
Proof.
  induction m as [|[k' x'] m IH]; simpl.
  - by rewrite same_value_zero_refl.
  - destruct (same_value_zero k' k) eqn:Hk; simpl; by rewrite Hk.
Qed.

Lemma Map_set_length {A} (m : list (value * A)) k x :
  length (Map_set m k x)
  = match Map_get m k with Some _ => length m | None => S (length m) end.
Proof.
  induction m as [|[k' x'] m IH]; simpl; [done|].
  destruct (same_value_zero k' k); simpl; [done|]. rewrite IH. by case_match.
Qed.

(** C9.  A screenshot call whose session-ensure step returns a page sets the
    viewport to the width and the height of its arguments, whatever they
    are, and to 800 and 600 where they are absent or [null];
    after a capture that succeeds it stores the picture under the name,
    in place of the one stored under it before, sends the two notifications,
    and returns the description followed by the picture, as a data URI in a
    text when [encoded] is true and as an image otherwise. *)
Theorem handleToolCall_screenshot args (st : state W) p st1 width height
    selector name encoded shot evs w1 w2 :
  ensureBrowser env args st = (Ok (Some p), st1) ->
  get args "width" = Ok width -> get args "height" = Ok height ->
  get args "selector" = Ok selector -> get args "name" = Ok name ->
  get args "encoded" = Ok encoded ->
  let w := nullish_or width (VNum 800) in
  let h := nullish_or height (VNum 600) in
  perform p (SetViewport w h) (world st1) = (Ok tt, w1) ->
  captured p selector w1 shot evs w2 ->
  shot <> "" ->
  exists st' ensured,
    trace st1 = trace st ++ ensured /\ Forall silent ensured
    /\ handleToolCall env "puppeteer_screenshot" args st
    = (Ok {| content :=
               [ TextContent ("Screenshot '" +:+ ToString name +:+ "' at "
                              +:+ ToString w +:+ "x" +:+ ToString h);
                 if truthy encoded
                 then TextContent ("data:image/png;base64," +:+ shot)
                 else ImageContent shot "image/png" ];
             isError := false |}, st')
    /\ trace st' =
         trace st1 ++ Perform p (SetViewport w h) :: evs
         ++ [ Notification "notifications/resources/updated"
                (Some ("screenshot://" +:+ ToString name));
              Notification "notifications/resources/list_changed" None ]
    /\ screenshots st' = Map_set (screenshots st1) name shot
    /\ Map_get (screenshots st') name = Some shot
    /\ length (screenshots st')
       = match Map_get (screenshots st1) name with
         | Some _ => length (screenshots st1)
         | None => S (length (screenshots st1))
         end
    /\ browser st' = browser st1 /\ page st' = page st1
    /\ previousLaunchOptions st' = previousLaunchOptions st1
    /\ (width <> VUndef -> width <> VNull -> w = width)
    /\ (height <> VUndef -> height <> VNull -> h = height)
    /\ (width = VUndef \/ width = VNull -> w = VNum 800)
    /\ (height = VUndef \/ height = VNull -> h = VNum 600)
    /\ (encoded = VUndef \/ encoded = VBool false -> truthy encoded = false)
    /\ (encoded = VBool true -> truthy encoded = true).
Proof.
  intros Hensure Hw Hh Hsel Hname Henc w h Hview Hcap Hshot.
  destruct (ensureBrowser_silent _ _ _ _ Hensure) as (ensured & Hensured & Hsilent).
  unfold handleToolCall, bind at 1. rewrite Hensure. simpl. monad.
  rewrite Hw, Hh. simpl. fold w h. rewrite Hview. simpl. rewrite Hsel. simpl.
  unfold captured in Hcap.
  destruct (truthy selector); simpl; rewrite ?world_record.
  - destruct Hcap as (el & w' & Hq & Hs & ->). rewrite Hq. simpl.
    rewrite ?world_record, Hs. simpl.
    destruct shot as [|c shot]; [done|]. rewrite Hname, Henc.
    eexists _, ensured. do 2 (split; [done|]). split; [reflexivity|].
    simpl. rewrite <-!app_assoc. simpl.
    split_and!; try done; [apply Map_get_set|apply Map_set_length
      |by destruct width|by destruct height|by intros [-> | ->]
      |by intros [-> | ->]|by intros [-> | ->]|by intros ->].
  - destruct Hcap as (Hs & ->). rewrite Hs. simpl.
    destruct shot as [|c shot]; [done|]. rewrite Hname, Henc.
    eexists _, ensured. do 2 (split; [done|]). split; [reflexivity|].
    simpl. rewrite <-!app_assoc. simpl.
    split_and!; try done; [apply Map_get_set|apply Map_set_length
      |by destruct width|by destruct height|by intros [-> | ->]
      |by intros [-> | ->]|by intros [-> | ->]|by intros ->].
Qed.

(** ** The resource handlers *)

Lemma prefix_empty s : String.prefix "" s = true.
Proof. by destruct s. Qed.

Lemma prefix_app sep a b :
  String.prefix sep a = true -> String.prefix sep (a +:+ b) = true.
Proof.
  revert a. induction sep as [|c sep IH]; intros a;
    [intros _; apply prefix_empty|].
  destruct a as [|c' a]; [done|]. rewrite app_cons. simpl.
  destruct (ascii_dec c c'); [apply IH|done].
Qed.

Lemma prefix_split sep s :
  String.prefix sep s = true -> exists post, s = sep +:+ post.
Proof.
  revert s. induction sep as [|c sep IH]; intros s; [by exists s|].
  destruct s as [|c' s]; [done|]. simpl.
  destruct (ascii_dec c c') as [<-|]; [|done].
  intros (post & ->)%IH. exists post. by rewrite app_cons.
Qed.

Lemma split_go_without sep s cur :
  contains sep s = false -> split_go sep s 0 cur = [cur +:+ s].
Proof.
  revert cur. induction s as [|c s IH]; intros cur.
  - simpl. by rewrite app_empty_r.
  - change (contains sep (String c s))
      with (String.prefix sep (String c s) || contains sep s).
    change (split_go sep (String c s) 0 cur)
      with (if String.prefix sep (String c s)
            then cur :: split_go sep s (String.length sep - 1) ""
            else split_go sep s 0 (cur +:+ String c "")).
    intros [Hp Hs]%orb_false_iff. rewrite Hp, IH by done.
    by rewrite app_assoc'.
Qed.

Lemma split_go_first sep s cur :
  sep <> "" -> contains sep s = true ->
  exists pre post rest,
    s = pre +:+ sep +:+ post /\ contains sep pre = false
    /\ split_go sep s 0 cur = (cur +:+ pre) :: rest.
Proof.
  intros Hsep. revert cur. induction s as [|c s IH]; intros cur.
  - simpl. rewrite orb_false_r. by destruct sep.
  - change (contains sep (String c s))
      with (String.prefix sep (String c s) || contains sep s).
    change (split_go sep (String c s) 0 cur)
      with (if String.prefix sep (String c s)
            then cur :: split_go sep s (String.length sep - 1) ""
            else split_go sep s 0 (cur +:+ String c "")).
    destruct (String.prefix sep (String c s)) eqn:Hp.
    + intros _. apply prefix_split in Hp as (post & Hp).
      exists "", post, (split_go sep s (String.length sep - 1) "").
      split_and!; [done|by destruct sep|by rewrite app_empty_r].
    + simpl. intros Hs. destruct (IH (cur +:+ String c "") Hs)
        as (pre & post & rest & -> & Hpre & Hsplit).
      exists (String c pre), post, rest. split_and!; [done| |].
      * change (contains sep (String c pre))
          with (String.prefix sep (String c pre) || contains sep pre).
        rewrite Hpre, orb_false_r.
        destruct (String.prefix sep (String c pre)) eqn:Hp'; [|done].
        apply (prefix_app _ _ (sep +:+ post)) in Hp'.
        rewrite app_cons in Hp'. congruence.
      * by rewrite Hsplit, app_assoc'.
Qed.

Lemma Map_get_key {A} (m : list (value * A)) name x :
  Map_get m (VStr name) = Some x -> VStr name ∈ m.*1.
Proof.
  induction m as [|[k y] m IH]; simpl; [done|].
  destruct (same_value_zero k (VStr name)) eqn:Hk.
  - intros _. destruct k; try done. simpl in Hk.
    apply bool_decide_eq_true in Hk as ->. apply elem_of_cons; auto.
  - intros ?%IH. apply elem_of_cons; auto.
Qed.

(** C10 (as amended).  The screenshot stored under a name is listed under
    the URI "screenshot://" followed by the name.  Reading that URI returns
    the picture when the name is free of "://".  When the name holds "://",
    the read looks up the text before its first "://" instead: it returns
    the picture stored under that other name when there is one, and fails
    with the resource-not-found error when there is none. *)
Theorem readResource_screenshot (st : state W) name blob :
  Map_get (screenshots st) (VStr name) = Some blob ->
  blob <> "" ->
  let uri := "screenshot://" +:+ name in
  uri ∈ map res_uri (listResources st)
  /\ (contains "://" name = false ->
       readResource st uri = Ok (BlobResource uri "image/png" blob))
  /\ (contains "://" name = true ->
       exists pre post,
         name = pre +:+ "://" +:+ post /\ contains "://" pre = false
         /\ readResource st uri =
            match Map_get (screenshots st) (VStr pre) with
            | Some (String c b) => Ok (BlobResource uri "image/png" (String c b))
            | _ => Throw (Error ("Resource not found: " +:+ uri))
            end).
Proof.
  intros Hblob Hne uri.
  assert (forall x rest, readResource st uri =
            match Map_get (screenshots st) (VStr x) with
            | Some (String c b) => Ok (BlobResource uri "image/png" (String c b))
            | _ => Throw (Error ("Resource not found: " +:+ uri))
            end
          \/ split_go "://" name 0 "" <> x :: rest) as Hread.
  { intros x rest.
    destruct (decide (split_go "://" name 0 "" = x :: rest)) as [Heq|]; [left|by right].
    unfold readResource, uri, startsWith, str_split.
    rewrite !app_cons, app_empty. simpl. by rewrite prefix_empty, Heq. }
  split_and!.
  - simpl. apply elem_of_cons. right. rewrite map_map.
    apply list_elem_of_fmap. exists (VStr name). split; [done|].
    by eapply Map_get_key.
  - intros Hno. destruct (Hread name []) as [-> | Hsplit].
    + rewrite Hblob. by destruct blob.
    + by rewrite split_go_without in Hsplit.
  - intros Hyes.
    destruct (split_go_first "://" name "" ltac:(done) Hyes)
      as (pre & post & rest & Hname & Hpre & Hsplit).
    exists pre, post. split_and!; [done..|].
    destruct (Hread pre rest) as [-> | Hn]; [done|].
    by rewrite Hsplit in Hn.
Qed.
End Session.

(** * Further properties of the code

    What the code of [index.ts] shows beyond the statements above: the
    config merger key by key and where it throws, the session manager case
    by case and what it hands to the launch, each tool of the dispatcher
    when all goes well and when it does not, the resources as they are
    listed and read, and what holds over every run of the server. *)

(** ** The config merger, key by key *)

Lemma own_None ps k : own ps k = None <-> k ∉ ps.*1.
Proof.
  induction ps as [|[k0 v0] ps IH]; simpl.
  - split; [intros _; apply not_elem_of_nil|done].
  - rewrite not_elem_of_cons. case_bool_decide; naive_solver.
Qed.

Lemma own_is_Some ps k : is_Some (own ps k) <-> k ∈ ps.*1.
Proof.
  rewrite <-not_eq_None_Some, own_None.
  destruct (decide (k ∈ ps.*1)); naive_solver.
Qed.

Lemma merge_props_keys rec target ps out h out' h' :
  merge_props rec target ps out h = Ok (out', h') ->
  forall k, is_Some (own out' k) <-> is_Some (own out k) \/ k ∈ ps.*1.
Proof.
  revert out h. induction ps as [|[key s] ps IH]; simpl; intros out h Hm k.
  - injection Hm as <- <-. rewrite elem_of_nil. naive_solver.
  - apply abind_Ok in Hm as (out1 & h1 & Hk & Hm).
    apply merge_key_Ok in Hk as (t & v & Ht & Hv & ->).
    rewrite (IH _ _ Hm), own_assign, elem_of_cons.
    destruct (decide (key = k)); naive_solver.
Qed.

Lemma merge_props_other rec target ps out h out' h' :
  merge_props rec target ps out h = Ok (out', h') ->
  forall k, k ∉ ps.*1 -> own out' k = own out k.
Proof.
  revert out h. induction ps as [|[key s] ps IH]; simpl; intros out h Hm k Hk.
  - by injection Hm as <- <-.
  - apply abind_Ok in Hm as (out1 & h1 & Hkey & Hm).
    apply merge_key_Ok in Hkey as (t & v & Ht & Hv & ->).
    apply not_elem_of_cons in Hk as [Hne Hk].
    rewrite (IH _ _ Hm) by done. rewrite own_assign. by rewrite decide_False.
Qed.

Lemma deepMerge_null_source target h :
  typeof target = "object" ->
  deepMerge target VNull h
  = Throw (TypeError "Cannot convert undefined or null to object").
Proof. intros Ht. simpl. by rewrite Ht. Qed.

(** *** Values free of the key "__proto__" *)

Lemma proto_free_object r ps :
  proto_free (VObj r ps) = true <->
  Forall (fun kv => kv.1 <> "__proto__" /\ proto_free kv.2 = true) ps.
Proof.
  simpl. rewrite forallb_forall, Forall_forall.
  setoid_rewrite list_elem_of_In. apply forall_proper. intros [k v]. simpl.
  rewrite andb_true_iff, negb_true_iff, String.eqb_neq. done.
Qed.

Lemma proto_free_array r es :
  proto_free (VArr r es) = true <-> Forall (fun e => proto_free e = true) es.
Proof.
  simpl. rewrite forallb_forall, Forall_forall.
  by setoid_rewrite list_elem_of_In.
Qed.

Lemma proto_free_indexed i es :
  Forall (fun e => proto_free e = true) es ->
  Forall (fun kv => kv.1 <> "__proto__" /\ proto_free kv.2 = true) (indexed i es).
Proof.
  intros Hes. revert i. induction Hes as [|e es He _ IH]; intros i; simpl;
    constructor; [|apply IH].
  split; [|done]. simpl. intros Heq.
  destruct (pretty_N_digits (N.of_nat i)) as (c & d & E & Hc & _).
  change (pretty i) with (pretty (N.of_nat i)) in Heq. rewrite E in Heq.
  injection Heq as -> _. done.
Qed.

Lemma proto_free_entries v :
  proto_free v = true ->
  Forall (fun kv => kv.1 <> "__proto__" /\ proto_free kv.2 = true) (entries v).
Proof.
  destruct v; simpl; try (intros _; constructor).
  - intros Hes. apply proto_free_indexed. by apply proto_free_array with (r := r).
  - intros Hps. by apply proto_free_object with (r := r).
Qed.

Lemma proto_free_get v k x :
  proto_free v = true -> get v k = Ok x -> proto_free x = true.
Proof.
  destruct v as [| | | | |r es|r ps]; simpl; try done; try (by intros _ [= <-]).
  - intros Hes. rewrite forallb_forall in Hes.
    destruct (array_index k) as [i|]; intros [= <-].
    + destruct (es !! N.to_nat i) as [e|] eqn:He; [|done]. simpl.
      apply Hes, list_elem_of_In. by eapply list_elem_of_lookup_2.
    + by case_bool_decide.
  - intros Hps. intros [= <-].
    destruct (own ps k) as [v|] eqn:Hv; [|done]. simpl.
    apply own_Some_elem_of in Hv.
    apply (proto_free_object r) in Hps. rewrite Forall_forall in Hps.
    by destruct (Hps _ Hv).
Qed.

Lemma proto_free_assign ps k v :
  k <> "__proto__" -> proto_free v = true ->
  Forall (fun kv => kv.1 <> "__proto__" /\ proto_free kv.2 = true) ps ->
  Forall (fun kv => kv.1 <> "__proto__" /\ proto_free kv.2 = true) (assign ps k v).
Proof.
  intros Hk Hv Hps. unfold assign. destruct (own ps k) as [v1|].
  - clear v1. induction Hps as [|[k0 v0] ps H0 Hps IH]; simpl; [constructor|].
    destruct H0 as [H0 H1]. case_bool_decide; constructor; naive_solver.
  - induction Hps as [|[k0 v0] ps H0 Hps IH]; simpl; [by repeat constructor|].
    destruct (key_before k k0); repeat constructor; naive_solver.
Qed.

Lemma proto_free_Set_from l :
  Forall (fun e => proto_free e = true) l ->
  Forall (fun e => proto_free e = true) (Set_from l).
Proof.
  intros Hl. apply Forall_forall. intros y Hy. rewrite Forall_forall in Hl.
  apply Hl. destruct (Set_from_union l []) as (_ & _ & Hin & _).
  rewrite app_nil_r in Hin. by apply Hin.
Qed.

(** The merge of two values free of the key "__proto__" is free of it: on
    such values every merge the server makes stays among them. *)
Lemma deepMerge_proto_free source :
  proto_free source = true ->
  forall target h out h', proto_free target = true ->
    deepMerge target source h = Ok (out, h') -> proto_free out = true.
Proof.
  assert (forall target (ps : props),
    proto_free target = true ->
    Forall (fun kv => kv.1 <> "__proto__" /\ proto_free kv.2 = true) ps ->
    Forall (fun kv => proto_free kv.2 = true ->
              forall target h out h', proto_free target = true ->
                deepMerge target kv.2 h = Ok (out, h') -> proto_free out = true) ps ->
    forall out h out' h',
      Forall (fun kv => kv.1 <> "__proto__" /\ proto_free kv.2 = true) out ->
      merge_props deepMerge target ps out h = Ok (out', h') ->
      Forall (fun kv => kv.1 <> "__proto__" /\ proto_free kv.2 = true) out')
    as Hloop.
  { intros target ps Ht Hps IH. revert Hps.
    induction IH as [|[k s] ps IHs _ IHps]; intros Hps out h out' h' Hout Hm;
      simpl in Hm; [by injection Hm as <- _|].
    apply Forall_cons in Hps as [[Hk Hs] Hps]. simpl in *.
    apply abind_Ok in Hm as (out1 & h1 & Hkey & Hm).
    apply merge_key_Ok in Hkey as (t & v & Hget & Hv & ->).
    eapply IHps; [done| |done]. apply proto_free_assign; [done| |done].
    pose proof (proto_free_get _ _ _ Ht Hget) as Htf.
    unfold merge_value in Hv. destruct (isArray t && isArray s) eqn:Harr.
    - unfold new_array, abind, fresh, aret in Hv. injection Hv as <- _.
      apply (proto_free_array h). apply proto_free_Set_from, Forall_app.
      destruct t, s; try done. split; by eapply proto_free_array.
    - destruct (truthy s && _); [by eapply IHs|by injection Hv as <- _]. }
  induction source as [| | | | |r es IH|r ps IH] using value_ind;
    intros Hs target h out h' Ht Hm;
    try (rewrite deepMerge_primitive in Hm by (by right);
         by injection Hm as <- _).
  all: destruct (decide (typeof target = "object")) as [Hty|Hty];
    [|rewrite deepMerge_primitive in Hm by (by left); by injection Hm as <- _].
  all: try (by rewrite deepMerge_null_source in Hm).
  all: apply deepMerge_object in Hm as (ps' & Hm & ->); [|done..].
  all: apply proto_free_object.
  all: eapply (Hloop target _ Ht); [| |by apply proto_free_entries|exact Hm].
  - by apply proto_free_entries in Hs.
  - simpl. clear -IH. generalize 0.
    induction IH as [|e es He _ IHes]; intros i; constructor; [exact He|apply IHes].
  - by apply proto_free_entries in Hs.
  - done.
Qed.

(** *** The keys and the values of a merge *)

(** X1.  Merging an override free of the key "__proto__" into a base, both of
    the [typeof] "object", returns a new plain object, also when the operands
    are arrays.  Its keys are the keys of the base and the keys of the
    override, and under every key that the override does not have it holds
    what the base holds. *)
Theorem deepMerge_keys target source h out h' :
  typeof target = "object" -> typeof source = "object" ->
  proto_free source = true ->
  deepMerge target source h = Ok (out, h') ->
  exists ps,
    out = VObj h ps
    /\ (forall k, is_Some (own ps k) <->
          is_Some (own (entries target) k) \/ is_Some (own (entries source) k))
    /\ (forall k, own (entries source) k = None ->
          own ps k = own (entries target) k).
Proof.
  intros Ht Hs _ Hm.
  assert (source <> VNull) as Hnull.
  { intros ->. by rewrite deepMerge_null_source in Hm. }
  apply deepMerge_object in Hm as (ps & Hm & ->); [|done..].
  exists ps. split_and!; [done| |].
  - intros k. rewrite (merge_props_keys _ _ _ _ _ _ _ Hm).
    by rewrite (own_is_Some (entries source)).
  - intros k Hk%own_None. by eapply merge_props_other.
Qed.

(** X2.  The override is free of the key "__proto__".  Under a key where it
    holds a value that is not a non-null object -- a number, a string, a
    boolean, [null], [undefined] -- or where the base holds nothing to merge
    into, the merged object holds the value of the override itself: an
    object or an array of the override is shared with the result, not
    copied. *)
Theorem deepMerge_override_value target source h out h' k s t :
  typeof target = "object" -> typeof source = "object" ->
  proto_free source = true ->
  NoDup (entries source).*1 ->
  deepMerge target source h = Ok (out, h') ->
  own (entries source) k = Some s ->
  get target k = Ok t ->
  typeof t <> "object" \/ truthy s = false \/ typeof s <> "object" ->
  get out k = Ok s.
Proof.
  intros Ht Hs _ Hnd Hm Hk Hget Hcase.
  assert (source <> VNull) as Hnull.
  { intros ->. by rewrite deepMerge_null_source in Hm. }
  apply deepMerge_object in Hm as (ps & Hm & ->); [|done..].
  destruct (merge_props_own _ _ _ _ _ _ _ Hm Hnd) as [_ Hin].
  destruct (Hin k s) as (t' & v & h1 & h2 & Ht' & Hv & Hown);
    [by apply own_Some_elem_of|].
  rewrite Hget in Ht'. injection Ht' as <-.
  simpl. rewrite Hown. simpl. f_equal.
  unfold merge_value in Hv.
  assert (isArray t && isArray s = false) as Harr.
  { destruct Hcase as [?|[?|?]]; destruct t, s; done. }
  rewrite Harr in Hv.
  destruct (truthy s && bool_decide (typeof s = "object")) eqn:Hobj.
  - apply andb_true_iff in Hobj as [Htr Hobj%bool_decide_eq_true].
    destruct Hcase as [Hc|[Hc|Hc]]; [|congruence|done].
    rewrite deepMerge_primitive in Hv by auto. by injection Hv as <- _.
  - by injection Hv as <- _.
Qed.

(** X3.  The merge is deep.  Under a key where the base and the override,
    which is free of the key "__proto__", both hold an object, the result
    holds a new object with the keys of both, and what the object of the
    override does not mention is kept from the object of the base. *)
Theorem deepMerge_nested target source h out h' k rs sps rt tps :
  typeof target = "object" ->
  proto_free source = true ->
  NoDup (entries source).*1 ->
  deepMerge target source h = Ok (out, h') ->
  own (entries source) k = Some (VObj rs sps) ->
  get target k = Ok (VObj rt tps) ->
  exists ro ops,
    get out k = Ok (VObj ro ops)
    /\ (forall j, is_Some (own ops j) <-> is_Some (own tps j) \/ is_Some (own sps j))
    /\ (forall j, own sps j = None -> own ops j = own tps j).
Proof.
  intros Ht _ Hnd Hm Hk Hget.
  assert (typeof source = "object") as Hs.
  { destruct source; try done. }
  assert (source <> VNull) as Hnull by (by intros ->).
  apply deepMerge_object in Hm as (ps & Hm & ->); [|done..].
  destruct (merge_props_own _ _ _ _ _ _ _ Hm Hnd) as [_ Hin].
  destruct (Hin k (VObj rs sps)) as (t' & v & h1 & h2 & Ht' & Hv & Hown);
    [by apply own_Some_elem_of|].
  rewrite Hget in Ht'. injection Ht' as <-.
  unfold merge_value in Hv. simpl in Hv.
  apply (deepMerge_object (VObj rt tps) (VObj rs sps)) in Hv
    as (ops & Hops & ->); [|done..].
  exists h1, ops. split_and!.
  - simpl. by rewrite Hown.
  - intros j. rewrite (merge_props_keys _ _ _ _ _ _ _ Hops).
    by rewrite (own_is_Some sps).
  - intros j Hj%own_None. by eapply merge_props_other.
Qed.

(** ** When the config merger throws *)

Lemma abind_Throw {A B} (m : alloc A) (k : A -> alloc B) h e :
  abind m k h = Throw e <->
  m h = Throw e \/ exists a h1, m h = Ok (a, h1) /\ k a h1 = Throw e.
Proof.
  unfold abind. destruct (m h) as [[a h1]|e']; naive_solver.
Qed.

Lemma get_Throw target k e :
  typeof target = "object" -> get target k = Throw e ->
  target = VNull /\ e = TypeError "Cannot read properties of null".
Proof.
  destruct target; try done; simpl.
  - by intros _ [= <-].
  - intros _. by repeat case_match.
Qed.

(** A merge with an override that is not [null] throws only for reading a
    property of [null]. *)
Lemma deepMerge_Throw source :
  source <> VNull ->
  forall target h e, deepMerge target source h = Throw e ->
    e = TypeError "Cannot read properties of null".
Proof.
  assert (forall target (ps : props),
    typeof target = "object" ->
    Forall (fun kv => kv.2 <> VNull -> forall target h e,
              deepMerge target kv.2 h = Throw e ->
              e = TypeError "Cannot read properties of null") ps ->
    forall out h e, merge_props deepMerge target ps out h = Throw e ->
      e = TypeError "Cannot read properties of null") as Hloop.
  { intros target ps Hty. induction 1 as [|[k s] ps IHs _ IHps];
      intros out h e; simpl; [done|].
    intros [Hk|(out1 & h1 & _ & Hrest)]%abind_Throw; [|by eapply IHps].
    unfold merge_key in Hk.
    apply abind_Throw in Hk as [Hk|(t & h1 & _ & Hk)].
    { unfold alift in Hk. destruct (get target k) as [|e'] eqn:Hg; [done|].
      injection Hk as ->. by apply get_Throw in Hg as [_ ->]. }
    apply abind_Throw in Hk as [Hk|(v & h2 & _ & Hk)]; [|done].
    unfold merge_value in Hk. destruct (isArray t && isArray s); [done|].
    destruct (truthy s && _) eqn:Hs; [|done].
    eapply IHs; [|done]. simpl. intros ->. done. }
  induction source as [| | | | |r es IH|r ps IH] using value_ind;
    intros Hnull target h e; try done;
    try (by rewrite deepMerge_primitive by (by right)).
  all: destruct (decide (typeof target = "object")) as [Hty|Hty];
    [|by rewrite deepMerge_primitive by (by left)].
  all: simpl; rewrite Hty; simpl.
  all: intros [Hk|(r0 & h1 & _ & Hk)]%abind_Throw; [done|].
  all: apply abind_Throw in Hk as [Hk|(? & ? & _ & ?)]; [|done].
  - rewrite merge_elems_indexed in Hk. eapply Hloop; [done| |done].
    clear -IH. generalize 0. induction IH as [|e es He _ IHes]; intros i;
      constructor; [exact He|apply IHes].
  - by eapply Hloop.
Qed.

Lemma merge_props_Throw_at rec target ps out h k s :
  own ps k = Some s ->
  (forall out h, exists e, merge_key rec target k s out h = Throw e) ->
  exists e, merge_props rec target ps out h = Throw e.
Proof.
  intros Hk Hthrow. revert out h.
  induction ps as [|[k0 s0] ps IH]; intros out h; simpl in *; [done|].
  unfold abind at 1.
  destruct (merge_key rec target k0 s0 out h) as [[out1 h1]|e] eqn:Hm;
    [|by eexists].
  case_bool_decide as Hk0.
  - simplify_eq. destruct (Hthrow out h) as [e He]. congruence.
  - by apply IH.
Qed.

(** X4.  A [null] of the base under a key where the override holds an object
    with at least one property makes the merge throw a TypeError: the
    property is read on [null]. *)
Theorem deepMerge_null_under_key rt tps rs sps k r p ps h :
  own tps k = Some VNull ->
  own sps k = Some (VObj r (p :: ps)) ->
  deepMerge (VObj rt tps) (VObj rs sps) h
  = Throw (TypeError "Cannot read properties of null").
Proof.
  intros Ht Hs.
  assert (exists e, deepMerge (VObj rt tps) (VObj rs sps) h = Throw e) as [e He].
  { simpl. unfold abind at 1, fresh. unfold abind at 1.
    destruct (merge_props_Throw_at deepMerge (VObj rt tps) sps tps (S h) k
                (VObj r (p :: ps)) Hs) as [e He]; [|rewrite He; by eexists].
    intros out h0. unfold merge_key. simpl. rewrite Ht. simpl.
    destruct p as [k' s']. unfold merge_value. simpl.
    unfold abind, fresh, merge_key, alift. simpl. eexists. reflexivity. }
  rewrite He. f_equal.
  by apply (deepMerge_Throw (VObj rs sps) ltac:(done) _ _ _ He).
Qed.

(** X5.  On a base that holds no [null] at any depth, merging an override
    that is not [null] and is free of the key "__proto__" returns. *)
Theorem deepMerge_total target source h :
  source <> VNull -> proto_free source = true -> null_free target = true ->
  exists out h', deepMerge target source h = Ok (out, h').
Proof. intros Hs _ Ht. by apply deepMerge_returns. Qed.

(** ** The session manager, case by case *)

(** *** Keys stay distinct *)

Lemma update_keys ps k v : (update ps k v).*1 = ps.*1.
Proof.
  induction ps as [|[k0 v0] ps IH]; csimpl; [done|].
  case_bool_decide; csimpl; [done|]. by rewrite IH.
Qed.

Lemma insert_new_keys ps k v : (insert_new ps k v).*1 ≡ₚ k :: ps.*1.
Proof.
  induction ps as [|[k0 v0] ps IH]; csimpl; [done|].
  destruct (key_before k k0); csimpl; [done|].
  rewrite IH. apply Permutation_swap.
Qed.

Lemma assign_NoDup ps k v : NoDup ps.*1 -> NoDup (assign ps k v).*1.
Proof.
  intros Hnd. unfold assign. destruct (own ps k) eqn:Hk.
  - by rewrite update_keys.
  - rewrite insert_new_keys. apply NoDup_cons. split; [|done].
    by apply own_None.
Qed.

Lemma merge_props_NoDup rec target ps out h out' h' :
  merge_props rec target ps out h = Ok (out', h') ->
  NoDup out.*1 -> NoDup out'.*1.
Proof.
  revert out h. induction ps as [|[key s] ps IH]; simpl; intros out h Hm Hnd.
  - by injection Hm as <- <-.
  - apply abind_Ok in Hm as (out1 & h1 & Hkey & Hm).
    apply merge_key_Ok in Hkey as (t & v & Ht & Hv & ->).
    eapply IH; [done|]. by apply assign_NoDup.
Qed.

Lemma indexed_keys i es k :
  k ∈ (indexed i es).*1 -> exists n : nat, k = pretty n.
Proof.
  revert i. induction es as [|e es IH]; simpl; intros i Hk.
  - by apply elem_of_nil in Hk.
  - apply elem_of_cons in Hk as [->|Hk]; [by exists i|by eapply IH].
Qed.

Lemma distinct_keys_entries v : distinct_keys v -> NoDup (entries v).*1.
Proof.
  destruct v; simpl; try (intros _; constructor).
  - intros _. apply indexed_keys_NoDup.
  - by intros [? _].
Qed.

Lemma deepMerge_NoDup target source h out h' :
  NoDup (entries target).*1 -> NoDup (entries source).*1 ->
  deepMerge target source h = Ok (out, h') -> NoDup (entries out).*1.
Proof.
  intros Ht Hs Hm.
  destruct (decide (typeof target = "object")) as [Hty|Hty];
    [destruct (decide (typeof source = "object")) as [Hsy|Hsy]|].
  - assert (source <> VNull) as Hnull.
    { intros ->. by rewrite deepMerge_null_source in Hm. }
    apply deepMerge_object in Hm as (ps & Hm & ->); [|done..].
    simpl. by eapply merge_props_NoDup.
  - rewrite deepMerge_primitive in Hm by auto. by injection Hm as <- _.
  - rewrite deepMerge_primitive in Hm by auto. by injection Hm as <- _.
Qed.

(** *** Reading a property that is not an index *)

Lemma pretty_nat_digit (n : nat) :
  exists c d, pretty n = String c d /\ digit c = true.
Proof.
  destruct (pretty_N_digits (N.of_nat n)) as (c & d & E & Hc & _).
  by exists c, d.
Qed.

Lemma get_entries v k c k' :
  typeof v = "object" -> v <> VNull ->
  k = String c k' -> digit c = false -> k <> "length" ->
  get v k = Ok (default VUndef (own (entries v) k)).
Proof.
  intros Hty Hnull -> Hc Hlen. destruct v as [| | | | |r es|r ps]; try done.
  simpl.
  assert (own (indexed 0 es) (String c k') = None) as ->.
  { apply own_None. intros (n & Hn)%indexed_keys.
    destruct (pretty_nat_digit n) as (c' & d & E & Hc'). congruence. }
  assert (array_index (String c k') = None) as ->.
  { unfold array_index. simpl. unfold digit in Hc.
    by destruct (Ascii.is_nat c). }
  by rewrite bool_decide_false.
Qed.

(** *** The configuration of a launch *)

(** Merging into defaults that have no [args]: the launch gets the [args]
    of the merged configuration, untouched. *)
Lemma deepMerge_defaults_args d merged h config h' margs :
  typeof d = "object" -> own (entries d) "args" = None ->
  NoDup (entries merged).*1 ->
  get merged "args" = Ok margs ->
  deepMerge d merged h = Ok (config, h') ->
  get config "args" = Ok margs.
Proof.
  intros Hd Hnone Hnd Hget Hm.
  destruct (decide (typeof merged = "object")) as [Hty|Hty];
    [|rewrite deepMerge_primitive in Hm by auto; by injection Hm as <- _].
  assert (merged <> VNull) as Hnull by (by intros ->).
  rewrite (get_entries merged "args" "a" "rgs") in Hget by done.
  injection Hget as <-.
  apply deepMerge_object in Hm as (ps & Hm & ->); [|done..]. simpl. f_equal.
  destruct (own (entries merged) "args") as [s|] eqn:Hs.
  - destruct (merge_props_own _ _ _ _ _ _ _ Hm Hnd) as [_ Hin].
    destruct (Hin "args" s) as (t & v & h1 & h2 & Ht & Hv & ->);
      [by apply own_Some_elem_of|].
    assert (d <> VNull) as Hdn by (by intros ->).
    rewrite (get_entries d "args" "a" "rgs"), Hnone in Ht by done.
    injection Ht as <-. unfold merge_value in Hv. simpl in Hv.
    destruct (truthy s && _); [|by injection Hv as <- _].
    rewrite deepMerge_primitive in Hv by (left; done). by injection Hv as <- _.
  - rewrite (merge_props_other _ _ _ _ _ _ _ Hm) by (by apply own_None).
    by rewrite Hnone.
Qed.

Section Launch.
Context {W : Type} `{!Puppeteer W} (env : process_env).

Ltac monad :=
  unfold bind, ret, throw, lift, gets, modify, run, call, try_catch, on_page,
    notification in *; simpl in *.


(** What the second half does, by cases. *)
Lemma reuse_or_launch_cases lo merged (st : state W) r st' :
  reuse_or_launch env lo merged st = (r, st') ->
  previousLaunchOptions st' = lo
  /\ consoleLogs st' = consoleLogs st /\ screenshots st' = screenshots st
  /\ (forall pg, r = Ok pg -> is_Some (browser st') /\ pg = page st')
  /\ exists evs, trace st' = trace st ++ evs
     /\ forall config, Launch config ∈ evs ->
          exists h d h1 h2, launch_defaults env h = Ok (d, h1)
                            /\ deepMerge d merged h1 = Ok (config, h2).
Proof.
  unfold reuse_or_launch. fold (launch_defaults env). intros Hrun.
  repeat (first [progress monad | case_match]; simplify_eq).
  all: split_and!; try done.
  all: try (intros pg [= <-]; split; [by eexists|done]).
  all: eexists; (split; [rewrite <-?app_assoc; try reflexivity;
                      symmetry; apply app_nil_r|]).
  all: intros config Hin; simpl in Hin.
  all: repeat (apply elem_of_cons in Hin as [Hin|Hin]; simplify_eq);
    try (by apply elem_of_nil in Hin).
  all: by eexists _, _, _, _.
Qed.

(** The merged configuration keeps the keys of its objects distinct. *)
Lemma merge_launch_options_NoDup lo h merged h' :
  distinct_keys lo ->
  (forall v, PUPPETEER_LAUNCH_OPTIONS env = Some v -> distinct_keys v) ->
  merge_launch_options env lo h = Ok (merged, h') ->
  NoDup (entries merged).*1.
Proof.
  intros Hlo Henv Hm. unfold merge_launch_options in Hm.
  apply abind_Ok in Hm as (envConfig & h1 & He & Hm).
  apply abind_Ok in Hm as (source & h2 & Hs & Hm).
  eapply deepMerge_NoDup; [| |done].
  - destruct (PUPPETEER_LAUNCH_OPTIONS env) as [v|].
    + injection He as <- <-. by apply distinct_keys_entries, Henv.
    + unfold new_object, abind, fresh, aret in He. injection He as <- <-.
      constructor.
  - destruct (truthy lo).
    + injection Hs as <- <-. by apply distinct_keys_entries.
    + unfold new_object, abind, fresh, aret in Hs. injection Hs as <- <-.
      constructor.
Qed.

(** The merged configuration is free of the key "__proto__" when the options
    of the call and those of the environment are. *)
Lemma merge_launch_options_proto_free lo h merged h' :
  proto_free lo = true ->
  (forall v, PUPPETEER_LAUNCH_OPTIONS env = Some v -> proto_free v = true) ->
  merge_launch_options env lo h = Ok (merged, h') ->
  proto_free merged = true.
Proof.
  intros Hlo Henv Hm. unfold merge_launch_options in Hm.
  apply abind_Ok in Hm as (envConfig & h1 & He & Hm).
  apply abind_Ok in Hm as (source & h2 & Hs & Hm).
  eapply (deepMerge_proto_free source); [| |done].
  - destruct (truthy lo).
    + by injection Hs as <- <-.
    + unfold new_object, abind, fresh, aret in Hs. by injection Hs as <- <-.
  - destruct (PUPPETEER_LAUNCH_OPTIONS env) as [v|].
    + injection He as <- <-. by apply Henv.
    + unfold new_object, abind, fresh, aret in He. by injection He as <- <-.
Qed.

(** What a merged configuration that passed the check without an override
    holds under [args]. *)
Lemma mergedConfig_of_checked lo allow (st : state W) merged st1 :
  truthy allow = false -> env_is (ALLOW_DANGEROUS env) "true" = false ->
  mergedConfig_of env lo allow st = (Ok merged, st1) ->
  merge_launch_options env lo (heap st) = Ok (merged, heap st1)
  /\ exists margs, get merged "args" = Ok margs /\ args_checked margs.
Proof.
  intros Hallow Henv. rewrite mergedConfig_of_eq, Hallow, Henv.
  destruct (merge_launch_options env lo (heap st)) as [[m h']|]; [|done].
  simpl. destruct (get m "args") as [margs|] eqn:Hget; [|done].
  destruct (truthy margs) eqn:Htr.
  - destruct (filter_dangerous margs) as [invalid|] eqn:Hf; [|done].
    rewrite andb_true_r. destruct invalid as [|a invalid]; [|done]. simpl.
    intros [= <- <-]. split; [done|]. exists margs. split; [done|]. right.
    unfold filter_dangerous in Hf. destruct margs as [| | | | |r es|]; try done.
    destruct (strings_of es) as [l|] eqn:Hl; [|done]. injection Hf as Hf.
    exists r, es, l. split_and!; [done..|].
    apply Forall_forall. intros a Ha. destruct (dangerous a) eqn:Hd; [|done].
    assert (a ∈ List.filter dangerous l) as Hin.
    { apply list_elem_of_In, filter_In. by rewrite <-list_elem_of_In. }
    rewrite Hf in Hin. by apply elem_of_nil in Hin.
  - intros [= <- <-]. split; [done|]. exists margs. split; [done|]. by left.
Qed.

Lemma mergedConfig_of_trace lo allow (st : state W) r st1 :
  mergedConfig_of env lo allow st = (r, st1) ->
  trace st1 = trace st /\ browser st1 = browser st /\ world st1 = world st
  /\ page st1 = page st /\ consoleLogs st1 = consoleLogs st
  /\ screenshots st1 = screenshots st
  /\ previousLaunchOptions st1 = previousLaunchOptions st.
Proof. intros Hc. by rewrite (mergedConfig_of_state _ _ _ _ _ _ Hc). Qed.




(** X9.  When the session-ensure step returns there is a browser, the page
    returned is the page of the session, the options of the call are the
    remembered ones, and neither the console log nor the screenshots were
    touched. *)
Theorem ensureBrowser_returns args (st : state W) pg st' :
  ensureBrowser env args st = (Ok pg, st') ->
  is_Some (browser st') /\ pg = page st'
  /\ get args "launchOptions" = Ok (previousLaunchOptions st')
  /\ consoleLogs st' = consoleLogs st /\ screenshots st' = screenshots st.
Proof.
  rewrite ensureBrowser_eq.
  destruct (get args "launchOptions") as [lo|]; [|done].
  destruct (get args "allowDangerous") as [allow|]; [|done].
  destruct (mergedConfig_of env lo allow st) as [[merged|e] st1] eqn:Hcheck;
    [|done].
  apply mergedConfig_of_trace in Hcheck as (_ & _ & _ & _ & <- & <- & _).
  intros (Hprev & Hlogs & Hshots & Hpg & _)%reuse_or_launch_cases.
  destruct (Hpg pg eq_refl) as [? ?]. by rewrite Hprev.
Qed.

(** X10.  Outside a container and without an override, when neither the
    options of the call nor the launch options of the environment hold the
    key "__proto__", a browser is only ever launched with arguments that
    passed the check: merging the checked configuration into the defaults
    leaves its [args] as they were checked, and brings no key "__proto__"
    into the configuration of the launch. *)
Theorem ensureBrowser_launch_args args (st : state W) lo allow r st' evs config :
  env_truthy (DOCKER_CONTAINER env) = false ->
  env_is (ALLOW_DANGEROUS env) "true" = false ->
  get args "launchOptions" = Ok lo ->
  get args "allowDangerous" = Ok allow ->
  truthy allow = false ->
  proto_free lo = true ->
  (forall v, PUPPETEER_LAUNCH_OPTIONS env = Some v -> proto_free v = true) ->
  distinct_keys lo ->
  (forall v, PUPPETEER_LAUNCH_OPTIONS env = Some v -> distinct_keys v) ->
  ensureBrowser env args st = (r, st') ->
  trace st' = trace st ++ evs ->
  Launch config ∈ evs ->
  proto_free config = true
  /\ exists cargs, get config "args" = Ok cargs /\ args_checked cargs.
Proof.
  intros Hdocker Henv Hlo Hallow Hal Hpf Hpfenv Hdk Hdkenv.
  rewrite ensureBrowser_eq, Hlo, Hallow.
  destruct (mergedConfig_of env lo allow st) as [[merged|e] st1] eqn:Hcheck.
  - pose proof (mergedConfig_of_trace _ _ _ _ _ Hcheck) as (Htr & _).
    intros (_ & _ & _ & _ & evs' & Htrace & Hlaunch)%reuse_or_launch_cases.
    rewrite Htr in Htrace. intros Hevs. rewrite Hevs in Htrace.
    apply app_inv_head in Htrace as ->. intros Hin.
    destruct (Hlaunch _ Hin) as (h & d & h1 & h2 & Hdef & Hcfg).
    unfold launch_defaults in Hdef. rewrite Hdocker in Hdef.
    injection Hdef as <- <-.
    destruct (mergedConfig_of_checked _ _ _ _ _ Hal Henv Hcheck)
      as (Hm & margs & Hget & Hok).
    split.
    { assert (proto_free merged = true) as Hmf
        by (by eapply merge_launch_options_proto_free).
      exact (deepMerge_proto_free merged Hmf
               (VObj h [("headless", VBool false)]) _ _ _ eq_refl Hcfg). }
    exists margs. split; [|done].
    eapply deepMerge_defaults_args; [| | |done|done]; [done..|].
    by eapply merge_launch_options_NoDup.
  - pose proof (mergedConfig_of_trace _ _ _ _ _ Hcheck) as (Htr & _).
    intros [= <- <-] Hevs. rewrite Htr in Hevs.
    rewrite <-(app_nil_r (trace st)) in Hevs at 1.
    apply app_inv_head in Hevs as <-. by intros ?%elem_of_nil.
Qed.

(** X11.  In a container the arguments of every launch are those of the
    defaults followed by the new ones of the merged configuration, although
    two of the defaults are on the deny list and no override was given: the
    check looks at the merged configuration only. *)
Theorem ensureBrowser_launch_args_container args (st : state W) lo allow
    rm mps st1 r st' evs config l :
  env_truthy (DOCKER_CONTAINER env) = true ->
  get args "launchOptions" = Ok lo ->
  get args "allowDangerous" = Ok allow ->
  mergedConfig_of env lo allow st = (Ok (VObj rm mps), st1) ->
  NoDup mps.*1 ->
  own mps "args" = None /\ l = [] \/ (exists ra, own mps "args" = Some (VArr ra l)) ->
  ensureBrowser env args st = (r, st') ->
  trace st' = trace st ++ evs ->
  Launch config ∈ evs ->
  let defaults := [VStr "--no-sandbox"; VStr "--single-process";
                   VStr "--no-zygote"] in
  Forall (fun a => exists s, a = VStr s /\ dangerous s = true) (take 2 defaults)
  /\ exists r' added,
       get config "args" = Ok (VArr r' (defaults ++ added))
       /\ defaults ++ added = Set_from (defaults ++ l)
       /\ forall y, y ∈ added -> y ∈ l.
Proof.
  intros Hdocker Hlo Hallow Hcheck Hnd Hargs.
  rewrite ensureBrowser_eq, Hlo, Hallow, Hcheck.
  pose proof (mergedConfig_of_trace _ _ _ _ _ Hcheck) as (Htr & _).
  intros (_ & _ & _ & _ & evs' & Htrace & Hlaunch)%reuse_or_launch_cases.
  rewrite Htr in Htrace. intros Hevs. rewrite Hevs in Htrace.
  apply app_inv_head in Htrace as ->. intros Hin defaults.
  split; [repeat constructor; by eexists|].
  destruct (Hlaunch _ Hin) as (h & d & h1 & h2 & Hdef & Hcfg).
  unfold launch_defaults in Hdef. rewrite Hdocker in Hdef.
  injection Hdef as <- <-.
  apply deepMerge_object in Hcfg as (ps & Hm & ->); [|done..].
  destruct (Set_from_union defaults l) as (_ & _ & _ & added & Hadd & Hadded).
  change (Set_from defaults) with defaults in Hadd.
  destruct Hargs as [[Hnone ->]|[ra Hsome]].
  - exists h, []. split_and!; [|by rewrite app_nil_r|by intros y ?%elem_of_nil].
    simpl. rewrite (merge_props_other _ _ _ _ _ _ _ Hm) by (by apply own_None).
    done.
  - destruct (merge_props_own _ _ _ _ _ _ _ Hm Hnd) as [_ Hown].
    destruct (Hown "args" (VArr ra l)) as (t & v & h3 & h4 & Ht & Hv & Hps);
      [by apply own_Some_elem_of|].
    simpl in Ht. injection Ht as <-. unfold merge_value in Hv. simpl in Hv.
    unfold new_array, abind, fresh, aret in Hv. injection Hv as <- <-.
    exists h3, added. split_and!; [|done|by intros y [? _]%Hadded].
    unfold get. rewrite Hps. simpl. do 2 f_equal. exact Hadd.
Qed.
End Launch.

(** Reading a value under one key returns as under any other. *)
Lemma get_total v k x k' : get v k = Ok x -> exists y, get v k' = Ok y.
Proof.
  destruct v; try done; intros _; simpl; repeat case_match; by eexists.
Qed.

(** ** The tool dispatcher, tool by tool *)

Section Dispatcher.
Context {W : Type} `{!Puppeteer W} (env : process_env).

Ltac monad :=
  unfold bind, ret, throw, lift, gets, modify, run, call, try_catch, on_page,
    notification in *; simpl in *.

(** What the session-ensure step leaves untouched, and what it records. *)
Lemma ensureBrowser_frame args (st : state W) r st' :
  ensureBrowser env args st = (r, st') ->
  consoleLogs st' = consoleLogs st /\ screenshots st' = screenshots st
  /\ exists evs, trace st' = trace st ++ evs /\ Forall silent evs.
Proof.
  intros Hrun.
  cut (consoleLogs st' = consoleLogs st /\ screenshots st' = screenshots st).
  { intros [? ?]. split_and!; [done..|by eapply ensureBrowser_silent]. }
  revert Hrun. rewrite ensureBrowser_eq.
  destruct (get args "launchOptions") as [lo|]; [|by intros [= <- <-]].
  destruct (get args "allowDangerous") as [allow|]; [|by intros [= <- <-]].
  destruct (mergedConfig_of env lo allow st) as [[merged|e] st1] eqn:Hcheck;
    apply mergedConfig_of_trace in Hcheck as (_ & _ & _ & _ & <- & <- & _);
    [|by intros [= <- <-]].
  by intros (_ & ? & ? & _)%reuse_or_launch_cases.
Qed.

(** X12.  A screenshot of an element that is not on the page, and one that
    comes out empty, are answered as failed: nothing is stored and nothing is
    notified. *)
Theorem handleToolCall_screenshot_failed args (st : state W) p st1 width height
    selector w1 :
  ensureBrowser env args st = (Ok (Some p), st1) ->
  get args "width" = Ok width -> get args "height" = Ok height ->
  get args "selector" = Ok selector ->
  let w := nullish_or width (VNum 800) in
  let h := nullish_or height (VNum 600) in
  perform p (SetViewport w h) (world st1) = (Ok tt, w1) ->
  (truthy selector = true /\ exists w2, query p selector w1 = (Ok None, w2))
  \/ (exists evs w2, captured p selector w1 "" evs w2) ->
  exists st' evs,
    handleToolCall env "puppeteer_screenshot" args st
    = (Ok (text_result "Screenshot failed" true), st')
    /\ trace st' = trace st1 ++ Perform p (SetViewport w h) :: evs
    /\ Forall silent evs
    /\ screenshots st' = screenshots st.
Proof.
  intros Hensure Hw Hh Hsel w h Hview Hfail.
  destruct (ensureBrowser_frame _ _ _ _ Hensure) as (_ & Hshots & _).
  unfold handleToolCall, bind at 1. rewrite Hensure. simpl. monad.
  rewrite Hw, Hh. simpl. fold w h. rewrite Hview. simpl. rewrite Hsel. simpl.
  destruct Hfail as [[Htr (w2 & Hq)]|(evs & w2 & Hcap)].
  - rewrite Htr. simpl. rewrite ?world_record, Hq. simpl.
    eexists _, _. split; [reflexivity|].
    split; [simpl; rewrite <-!app_assoc; reflexivity|].
    split; [repeat constructor|done].
  - unfold captured in Hcap. destruct (truthy selector); simpl;
      rewrite ?world_record.
    + destruct Hcap as (el & w' & Hq & Hs & ->). rewrite Hq. simpl.
      rewrite ?world_record, Hs. simpl.
      eexists _, _. split; [reflexivity|].
      split; [simpl; rewrite <-!app_assoc; reflexivity|].
      split; [repeat constructor|done].
    + destruct Hcap as (Hs & ->). rewrite Hs. simpl.
      eexists _, _. split; [reflexivity|].
      split; [simpl; rewrite <-!app_assoc; reflexivity|].
      split; [repeat constructor|done].
Qed.

(** X13.  When the wait for the selector fails, a fill does not type, a select
    does not select and a hover does not hover: the failed wait is the only
    call made, and it is answered as an error result. *)
Theorem handleToolCall_wait_failure name verb args (st : state W) p st1
    selector e w1 :
  (name, verb) ∈ [("puppeteer_fill", "Fill"); ("puppeteer_select", "Select");
                  ("puppeteer_hover", "Hover")] ->
  ensureBrowser env args st = (Ok (Some p), st1) ->
  get args "selector" = Ok selector ->
  perform p (WaitForSelector selector) (world st1) = (Throw e, w1) ->
  handleToolCall env name args st
  = (Ok (text_result (verb +:+ " failed: " +:+ message e) true),
     record (Perform p (WaitForSelector selector)) w1 st1).
Proof.
  intros Hname Hensure Hsel Hwait. unfold handleToolCall, bind at 1.
  rewrite Hensure.
  repeat (apply elem_of_cons in Hname as [[= -> ->]|Hname]);
    [..|by apply elem_of_nil in Hname]; simpl; monad;
    by rewrite Hsel, Hwait.
Qed.

(** X14.  When the script of the caller throws, the logs are not collected and
    the helper stays installed in the page: the third evaluation, the one
    that removes it, is not made. *)
Theorem handleToolCall_evaluate_failure args (st : state W) p st1 code v0 e
    w1 w2 :
  ensureBrowser env args st = (Ok (Some p), st1) ->
  evaluate p InstallHelper (world st1) = (Ok v0, w1) ->
  get args "script" = Ok code ->
  evaluate p (UserScript code) w1 = (Throw e, w2) ->
  exists st',
    handleToolCall env "puppeteer_evaluate" args st
    = (Ok (text_result ("Eval failed: " +:+ message e) true), st')
    /\ trace st' = trace st1 ++ [Evaluate p InstallHelper;
                                 Evaluate p (UserScript code)].
Proof.
  intros Hensure Hinstall Hcode Hrun. unfold handleToolCall, bind at 1.
  rewrite Hensure. simpl. monad. rewrite Hinstall. simpl. rewrite Hcode. simpl.
  rewrite Hrun. simpl. eexists. split; [reflexivity|]. simpl.
  by rewrite <-app_assoc.
Qed.

(** X15.  A call whose arguments are refused by the check is refused for every
    tool name, known or not: the call throws the error that names them, and
    nothing is done to the browser or to the state.  The options of the call
    are free of the key "__proto__". *)
Theorem handleToolCall_dangerous_args name args (st : state W) lo allow merged
    h' r margs l :
  get args "launchOptions" = Ok lo ->
  get args "allowDangerous" = Ok allow ->
  proto_free lo = true ->
  merge_launch_options env lo (heap st) = Ok (merged, h') ->
  get merged "args" = Ok (VArr r margs) ->
  strings_of margs = Some l ->
  List.filter dangerous l <> [] ->
  truthy allow = false -> env_is (ALLOW_DANGEROUS env) "true" = false ->
  handleToolCall env name args st
  = (Throw (Error ("Dangerous args detected: "
                   +:+ join ", " (List.filter dangerous l))),
     set_heap h' st).
Proof.
  intros Hlo Hallow _ Hm Hargs Hl Hne Hal Henv.
  unfold handleToolCall, bind at 1.
  rewrite ensureBrowser_eq, Hlo, Hallow, mergedConfig_of_eq, Hm. simpl.
  rewrite Hargs. simpl. rewrite Hl, Hal, Henv. simpl.
  by destruct (List.filter dangerous l).
Qed.

(** What a tool call does to the state. *)
Lemma handleToolCall_effects name args (st : state W) r st' :
  handleToolCall env name args st = (r, st') ->
  consoleLogs st' = consoleLogs st
  /\ (screenshots st' = screenshots st
      \/ exists k c b, screenshots st' = Map_set (screenshots st) k (String c b))
  /\ exists evs, trace st' = trace st ++ evs
     /\ (name <> "puppeteer_screenshot" ->
         screenshots st' = screenshots st /\ Forall silent evs).
Proof.
  unfold handleToolCall, bind at 1.
  destruct (ensureBrowser env args st) as [[pg|e] st1] eqn:Hensure.
  2:{ intros [= <- <-].
      destruct (ensureBrowser_frame _ _ _ _ Hensure) as (? & ? & evs & ? & ?).
      split_and!; [done|by left|]. by exists evs. }
  destruct (ensureBrowser_frame _ _ _ _ Hensure) as (<- & <- & evs & Hevs & Hsil).
  intros Hrun.
  repeat (first [progress monad | case_match]; simplify_eq).
  all: split; [done|].
  all: split; [first [by left | right; by eexists _, _, _]|].
  all: rewrite ?Hevs.
  all: eexists; (split; [rewrite <-?app_assoc; try reflexivity; by rewrite app_nil_r|]).
  all: intros Hname;
    try (match goal with
         | Hs : (_ =? "puppeteer_screenshot")%string = true |- _ =>
             by apply String.eqb_eq in Hs
         end).
  all: split; [done|].
  all: rewrite ?app_nil_r; try done.
  all: apply Forall_app; split; [done|repeat constructor].
Qed.

(** X16.  Every call leaves the console log alone; only a screenshot call
    writes the screenshots and sends notifications. *)
Theorem handleToolCall_frame name args (st : state W) r st' :
  handleToolCall env name args st = (r, st') ->
  consoleLogs st' = consoleLogs st
  /\ exists evs, trace st' = trace st ++ evs
     /\ (name <> "puppeteer_screenshot" ->
         screenshots st' = screenshots st /\ Forall silent evs).
Proof. intros (? & _ & ?)%handleToolCall_effects. done. Qed.

(** X17.  Every tool of the list is known to the dispatcher: a call of one of
    them is never answered as an unknown tool. *)
Theorem handleToolCall_advertised name args (st : state W) res st' :
  name ∈ TOOLS ->
  handleToolCall env name args st = (Ok res, st') ->
  content res <> [TextContent ("Unknown tool: " +:+ name)].
Proof.
  intros Hname. unfold handleToolCall, bind at 1.
  destruct (ensureBrowser env args st) as [[pg|e] st1]; [|done].
  unfold TOOLS in Hname.
  repeat (apply elem_of_cons in Hname as [->|Hname]);
    [..|by apply elem_of_nil in Hname]; simpl; intros Hrun;
    repeat (first [progress monad | case_match]; simplify_eq);
    simpl; rewrite ?app_cons; by intros [=].
Qed.

(** X18.  The calls each tool of the page makes when all goes well, in order,
    and what it answers: a navigate goes to the URL; a click clicks; a fill,
    a select and a hover wait for the selector first. *)
Theorem handleToolCall_performs name ops text args (st : state W) p st1
    url selector value w' :
  ensureBrowser env args st = (Ok (Some p), st1) ->
  get args "url" = Ok url -> get args "selector" = Ok selector ->
  get args "value" = Ok value ->
  (name, ops, text)
  ∈ [ ("puppeteer_navigate", [Goto url], "Navigated to " +:+ ToString url);
      ("puppeteer_click", [Click selector], "Clicked " +:+ ToString selector);
      ("puppeteer_fill", [WaitForSelector selector; TypeText selector value],
       "Filled " +:+ ToString selector);
      ("puppeteer_select", [WaitForSelector selector; Select selector value],
       "Selected " +:+ ToString selector);
      ("puppeteer_hover", [WaitForSelector selector; Hover selector],
       "Hovered " +:+ ToString selector) ] ->
  performed p ops (world st1) w' ->
  exists st',
    handleToolCall env name args st = (Ok (text_result text false), st')
    /\ trace st' = trace st1 ++ map (Perform p) ops
    /\ world st' = w'
    /\ screenshots st' = screenshots st1.
Proof.
  intros Hensure Hurl Hsel Hval Hname Hops. unfold handleToolCall, bind at 1.
  rewrite Hensure.
  repeat (apply elem_of_cons in Hname as [[= -> -> ->]|Hname]);
    [..|by apply elem_of_nil in Hname]; simpl in Hops; simpl; monad.
  - destruct Hops as (w1 & Ho & ->). rewrite Hurl, Ho. simpl. by eexists.
  - destruct Hops as (w1 & Ho & ->). rewrite Hsel, Ho. simpl. by eexists.
  - destruct Hops as (w1 & Ho1 & w2 & Ho2 & ->). rewrite Hsel, Ho1. simpl.
    rewrite Hval, Ho2. simpl. eexists. split; [reflexivity|]. simpl.
    by rewrite <-?app_assoc.
  - destruct Hops as (w1 & Ho1 & w2 & Ho2 & ->). rewrite Hsel, Ho1. simpl.
    rewrite Hval, Ho2. simpl. eexists. split; [reflexivity|]. simpl.
    by rewrite <-?app_assoc.
  - destruct Hops as (w1 & Ho1 & w2 & Ho2 & ->). rewrite Hsel, Ho1. simpl.
    rewrite Ho2. simpl. eexists. split; [reflexivity|]. simpl.
    by rewrite <-?app_assoc.
Qed.



(** X20.  What the browser throws during a screenshot call -- when the viewport
    is set, when the element is looked up, when the picture is taken -- is
    thrown by the call: nothing is stored and nothing is notified. *)
Theorem handleToolCall_screenshot_throws args (st : state W) p st1 width height
    selector e w1 :
  ensureBrowser env args st = (Ok (Some p), st1) ->
  get args "width" = Ok width -> get args "height" = Ok height ->
  get args "selector" = Ok selector ->
  let w := nullish_or width (VNum 800) in
  let h := nullish_or height (VNum 600) in
  perform p (SetViewport w h) (world st1) = (Throw e, w1)
  \/ (exists w0, perform p (SetViewport w h) (world st1) = (Ok tt, w0)
      /\ if truthy selector
         then query p selector w0 = (Throw e, w1)
              \/ exists el w', query p selector w0 = (Ok (Some el), w')
                               /\ screenshot (Element el) w' = (Throw e, w1)
         else screenshot (WholePage p) w0 = (Throw e, w1)) ->
  exists st' evs,
    handleToolCall env "puppeteer_screenshot" args st = (Throw e, st')
    /\ trace st' = trace st1 ++ evs /\ Forall silent evs
    /\ screenshots st' = screenshots st.
Proof.
  intros Hensure Hw Hh Hsel w h Hfail.
  destruct (ensureBrowser_frame _ _ _ _ Hensure) as (_ & Hshots & _).
  unfold handleToolCall, bind at 1. rewrite Hensure. simpl. monad.
  rewrite Hw, Hh. simpl. fold w h.
  destruct Hfail as [Hview|(w0 & Hview & Hfail)]; rewrite Hview; simpl.
  { eexists _, _. split; [reflexivity|]. split; [reflexivity|].
    split; [repeat constructor|done]. }
  rewrite Hsel. simpl. destruct (truthy selector); simpl; rewrite ?world_record.
  - destruct Hfail as [Hq|(el & w' & Hq & Hs)]; rewrite Hq; simpl;
      rewrite ?world_record, ?Hs; simpl;
      eexists _, _; (split; [reflexivity|]);
      (split; [simpl; rewrite <-?app_assoc; reflexivity|]);
      (split; [repeat constructor|done]).
  - rewrite Hfail. simpl. eexists _, _. split; [reflexivity|].
    split; [simpl; rewrite <-?app_assoc; reflexivity|].
    split; [repeat constructor|done].
Qed.



End Dispatcher.

(** ** The resources, listed and read *)

(** *** Maps *)

Lemma Map_get_Some {A} (m : list (value * A)) k x :
  Map_get m k = Some x ->
  exists k', (k', x) ∈ m /\ same_value_zero k' k = true.
Proof.
  induction m as [|[k0 x0] m IH]; simpl; [done|].
  destruct (same_value_zero k0 k) eqn:Hk.
  - intros [= ->]. exists k0. split; [apply elem_of_cons; auto|done].
  - intros (k' & Hin & Hs)%IH. exists k'. split; [apply elem_of_cons; auto|done].
Qed.

Lemma Map_get_elem_of {A} (m : list (value * A)) k :
  k ∈ Map_keys m -> is_Some (Map_get m k).
Proof.
  unfold Map_keys. induction m as [|[k0 x0] m IH]; csimpl.
  - by intros ?%elem_of_nil.
  - intros [->|Hin]%elem_of_cons.
    + by rewrite same_value_zero_refl.
    + destruct (same_value_zero k0 k); [done|by apply IH].
Qed.

Lemma Map_set_keys {A} (m : list (value * A)) k x :
  Map_keys (Map_set m k x)
  = match Map_get m k with Some _ => Map_keys m | None => Map_keys m ++ [k] end.
Proof.
  unfold Map_keys. induction m as [|[k0 x0] m IH]; csimpl; [done|].
  destruct (same_value_zero k0 k); csimpl; [done|]. rewrite IH.
  by destruct (Map_get m k).
Qed.

Lemma Map_get_None {A} (m : list (value * A)) k :
  Map_get m k = None ->
  existsb (same_value_zero k) (Map_keys m) = false.
Proof.
  unfold Map_keys. induction m as [|[k0 x0] m IH]; csimpl; [done|].
  rewrite (same_value_zero_sym k k0).
  destruct (same_value_zero k0 k); [done|]. intros ?%IH. done.
Qed.

Lemma Map_set_duplicate_free {A} (m : list (value * A)) k x :
  duplicate_free (Map_keys m) -> duplicate_free (Map_keys (Map_set m k x)).
Proof.
  intros Hm. rewrite Map_set_keys. destruct (Map_get m k) eqn:Hk; [done|].
  by apply duplicate_free_snoc, Map_get_None.
Qed.

Lemma Map_set_values {A} (P : A -> Prop) (m : list (value * A)) k x :
  Forall (fun kv => P kv.2) m -> P x ->
  Forall (fun kv => P kv.2) (Map_set m k x).
Proof.
  intros Hm Hx. induction Hm as [|[k0 x0] m H0 Hm IH]; simpl.
  - by repeat constructor.
  - destruct (same_value_zero k0 k); constructor; done.
Qed.

Lemma Map_get_set_other {A} (m : list (value * A)) k x k' :
  is_Some (Map_get m k') -> is_Some (Map_get (Map_set m k x) k').
Proof.
  induction m as [|[k0 x0] m IH]; simpl; [by intros [? ?]|].
  destruct (same_value_zero k0 k) eqn:Hk; simpl;
    destruct (same_value_zero k0 k'); auto.
Qed.

(** *** Strings *)

Lemma join_snoc sep l x :
  join sep (l ++ [x])
  = match l with [] => x | _ => join sep l +:+ sep +:+ x end.
Proof.
  unfold join. induction l as [|y l IH]; [done|].
  change ((y :: l) ++ [x]) with (y :: (l ++ [x])).
  destruct l as [|z l]; [done|].
  change (String.concat sep (y :: (z :: l) ++ [x]))
    with (y +:+ sep +:+ String.concat sep ((z :: l) ++ [x])).
  rewrite IH.
  change (String.concat sep (y :: z :: l))
    with (y +:+ sep +:+ String.concat sep (z :: l)).
  by rewrite !app_assoc'.
Qed.

Lemma append_inj_l s t u : s +:+ t = s +:+ u -> t = u.
Proof. induction s as [|c s IH]; [done|]. rewrite !app_cons. intros [=]. auto. Qed.

Lemma split_go_nonempty sep s skip cur : split_go sep s skip cur <> [].
Proof.
  revert skip cur. induction s as [|c s IH]; intros skip cur; [done|].
  change (split_go sep (String c s) skip cur)
    with (match skip with
          | S k => split_go sep s k cur
          | O => if String.prefix sep (String c s)
                 then cur :: split_go sep s (String.length sep - 1) ""
                 else split_go sep s 0 (cur +:+ String c "")
          end).
  destruct skip; [|apply IH].
  destruct (String.prefix sep (String c s)); [done|apply IH].
Qed.

Lemma screenshot_uris_NoDup (ks : list value) :
  duplicate_free ks -> Forall (fun k => typeof k = "string") ks ->
  NoDup (map (fun n => "screenshot://" +:+ ToString n) ks).
Proof.
  induction 1 as [|k l Hk Hd IH]; intros Hs; [constructor|].
  apply Forall_cons in Hs as [Hks Hs]. simpl. apply NoDup_cons. split; [|auto].
  intros (k' & Heq & Hin)%list_elem_of_fmap.
  apply append_inj_l in Heq.
  rewrite Forall_forall in Hs. specialize (Hs _ Hin). specialize (Hk _ Hin).
  destruct k, k'; try done. simpl in *. subst.
  by rewrite bool_decide_true in Hk.
Qed.

Section Resources.
Context {W : Type} `{!Puppeteer W} (env : process_env).

Ltac monad :=
  unfold bind, ret, throw, lift, gets, modify, run, call, try_catch, on_page,
    notification in *; simpl in *.

(** Reading the URI of a name free of "://" looks the name up. *)
Lemma readResource_plain (st : state W) name :
  contains "://" name = false ->
  readResource st ("screenshot://" +:+ name)
  = match Map_get (screenshots st) (VStr name) with
    | Some (String c b) =>
        Ok (BlobResource ("screenshot://" +:+ name) "image/png" (String c b))
    | _ => Throw (Error ("Resource not found: " +:+ "screenshot://" +:+ name))
    end.
Proof.
  intros Hno. unfold readResource, startsWith, str_split.
  rewrite !app_cons, app_empty. simpl. rewrite prefix_empty.
  by rewrite split_go_without.
Qed.

(** X22.  What is not there cannot be read: a URI that is neither the console
    log nor a screenshot, and the URI of a name under which nothing is
    stored, are answered with the resource-not-found error that quotes the
    URI. *)
Theorem readResource_missing (st : state W) uri :
  (uri <> "console://logs" /\ startsWith uri "screenshot://" = false)
  \/ (exists name, uri = "screenshot://" +:+ name
                   /\ contains "://" name = false
                   /\ Map_get (screenshots st) (VStr name) = None) ->
  readResource st uri = Throw (Error ("Resource not found: " +:+ uri)).
Proof.
  intros [[Hne Hs]|(name & -> & Hno & Hget)].
  - unfold readResource. rewrite Hs.
    by apply String.eqb_neq in Hne as ->.
  - by rewrite readResource_plain, Hget.
Qed.

(** X23.  A picture that is read was stored, under the name that the URI
    gives between its first and second "://", and it is not empty: a picture
    stored under a name that is not a string is never read. *)
Theorem readResource_blob (st : state W) uri u m blob :
  readResource st uri = Ok (BlobResource u m blob) ->
  u = uri /\ m = "image/png" /\ blob <> ""
  /\ startsWith uri "screenshot://" = true
  /\ exists n, second (str_split uri "://") = VStr n
               /\ (VStr n, blob) ∈ screenshots st.
Proof.
  unfold readResource. destruct (String.eqb uri "console://logs"); [done|].
  destruct (startsWith uri "screenshot://") eqn:Hpre; [|done].
  destruct (Map_get _ _) as [[|c b]|] eqn:Hget; [done| |done].
  intros [= <- <- <-]. split_and!; [done..|].
  apply Map_get_Some in Hget as (k' & Hin & Hs).
  assert (exists n, second (str_split uri "://") = VStr n) as [n Hn].
  { apply prefix_split in Hpre as (post & ->). unfold second, str_split.
    rewrite !app_cons, app_empty. simpl. rewrite prefix_empty.
    destruct (split_go "://" post 0 "") as [|n rest] eqn:Hsplit;
      [by apply split_go_nonempty in Hsplit|]. by exists n. }
  exists n. split; [done|]. rewrite Hn in Hs. destruct k'; try done.
  simpl in Hs. by apply bool_decide_eq_true in Hs as ->.
Qed.

(** X24.  Every console message adds one line, "[type] text", at the end of
    the console log resource, and is announced by one notification. *)
Theorem console_listener_read (st : state W) type text :
  let line := "[" +:+ type +:+ "] " +:+ text in
  let st' := (console_listener type text st).2 in
  readResource st' "console://logs"
  = Ok (TextResource "console://logs" "text/plain"
          (match consoleLogs st with
           | [] => line
           | _ => join nl (consoleLogs st) +:+ nl +:+ line
           end))
  /\ readResource st "console://logs"
     = Ok (TextResource "console://logs" "text/plain" (join nl (consoleLogs st)))
  /\ trace st' = trace st ++ [Notification "notifications/resources/updated"
                                (Some "console://logs")]
  /\ screenshots st' = screenshots st.
Proof.
  intros line st'. split_and!; [|done..].
  unfold readResource. simpl. by rewrite join_snoc.
Qed.

(** X25.  The list of resources starts with the console log and has one more
    entry for every stored screenshot; the URI of every name that is a
    string is listed, and no URI is listed twice when the names are
    strings. *)
Theorem listResources_uris (st : state W) :
  length (listResources st) = S (length (screenshots st))
  /\ head (map res_uri (listResources st)) = Some "console://logs"
  /\ (forall n, VStr n ∈ Map_keys (screenshots st) ->
        "screenshot://" +:+ n ∈ map res_uri (listResources st))
  /\ (duplicate_free (Map_keys (screenshots st)) ->
      Forall (fun k => typeof k = "string") (Map_keys (screenshots st)) ->
      NoDup (map res_uri (listResources st))).
Proof.
  unfold listResources, Map_keys. split_and!.
  - simpl. by rewrite !length_map.
  - done.
  - intros n Hn. simpl. apply elem_of_cons. right. rewrite map_map.
    apply list_elem_of_fmap. by exists (VStr n).
  - intros Hd Hs. simpl. apply NoDup_cons. split.
    + rewrite map_map. intros (k & Hk & _)%list_elem_of_fmap. simpl in Hk.
      rewrite app_cons in Hk. discriminate.
    + rewrite map_map. simpl. exact (screenshot_uris_NoDup _ Hd Hs).
Qed.

(** X26.  A picture taken under a name that is a string free of "://" is
    listed and read back at once, whatever was stored under the name
    before. *)
Theorem screenshot_then_read args (st : state W) p st1 width height selector
    name shot evs w1 w2 :
  ensureBrowser env args st = (Ok (Some p), st1) ->
  get args "width" = Ok width -> get args "height" = Ok height ->
  get args "selector" = Ok selector -> get args "name" = Ok (VStr name) ->
  perform p (SetViewport (nullish_or width (VNum 800))
                         (nullish_or height (VNum 600))) (world st1)
  = (Ok tt, w1) ->
  captured p selector w1 shot evs w2 ->
  shot <> "" ->
  contains "://" name = false ->
  let st' := (handleToolCall env "puppeteer_screenshot" args st).2 in
  let uri := "screenshot://" +:+ name in
  uri ∈ map res_uri (listResources st')
  /\ readResource st' uri = Ok (BlobResource uri "image/png" shot).
Proof.
  intros Hensure Hw Hh Hsel Hname Hview Hcap Hshot Hno st' uri.
  destruct (get_total _ _ _ "encoded" Hname) as [encoded Henc].
  assert (screenshots st' = Map_set (screenshots st1) (VStr name) shot) as Hst.
  { unfold st', handleToolCall, bind at 1. rewrite Hensure. simpl. monad.
    rewrite Hw, Hh. simpl. rewrite Hview. simpl. rewrite Hsel. simpl.
    unfold captured in Hcap.
    destruct (truthy selector); simpl; rewrite ?world_record.
    - destruct Hcap as (el & w' & Hq & Hs & ->). rewrite Hq. simpl.
      rewrite ?world_record, Hs. simpl.
      destruct shot as [|c shot]; [done|]. by rewrite Hname, Henc.
    - destruct Hcap as (Hs & ->). rewrite Hs. simpl.
      destruct shot as [|c shot]; [done|]. by rewrite Hname, Henc. }
  split.
  - unfold listResources. rewrite Hst. simpl. apply elem_of_cons. right.
    rewrite map_map. apply list_elem_of_fmap. exists (VStr name).
    split; [done|]. apply (Map_get_key _ _ shot), Map_get_set.
  - unfold uri. rewrite readResource_plain, Hst, Map_get_set by done.
    by destruct shot.
Qed.
End Resources.

(** ** Runs of the server *)

Section Runs.
Context {W : Type} `{!Puppeteer W} (env : process_env).

Ltac monad :=
  unfold bind, ret, throw, lift, gets, modify, run, call, try_catch, on_page,
    notification in *; simpl in *.

(** A request stores at most one picture, and never an empty one. *)
Lemma callTool_frame name arguments (st : state W) :
  let st' := (callTool env name arguments st).2 in
  consoleLogs st' = consoleLogs st
  /\ (screenshots st' = screenshots st
      \/ exists k c b, screenshots st' = Map_set (screenshots st) k (String c b)).
Proof.
  unfold callTool. monad.
  destruct (truthy arguments); simpl;
    destruct (handleToolCall env name _ _) as [r st'] eqn:Hcall;
    apply handleToolCall_effects in Hcall as (Hlogs & Hshots & _);
    by destruct r.
Qed.

Lemma step_invariant (st st' : state W) :
  step env st st' ->
  consoleLogs st `prefix_of` consoleLogs st'
  /\ (forall k, is_Some (Map_get (screenshots st) k) ->
        is_Some (Map_get (screenshots st') k))
  /\ (screenshots_ok (screenshots st) -> screenshots_ok (screenshots st')).
Proof.
  intros [name arguments|type text].
  - destruct (callTool_frame name arguments st) as [-> [-> |(k & c & b & ->)]].
    + done.
    + split_and!; [done|intros k'; apply Map_get_set_other|].
      intros [Hd Hne]. split; [by apply Map_set_duplicate_free|].
      by apply (Map_set_values (fun x => x <> "")).
  - simpl. split_and!; [by apply prefix_app_r|done..].
Qed.

Lemma steps_invariant (st st' : state W) :
  rtc (step env) st st' ->
  consoleLogs st `prefix_of` consoleLogs st'
  /\ (forall k, is_Some (Map_get (screenshots st) k) ->
        is_Some (Map_get (screenshots st') k))
  /\ (screenshots_ok (screenshots st) -> screenshots_ok (screenshots st')).
Proof.
  induction 1 as [st|st st1 st' Hstep _ IH]; [done|].
  apply step_invariant in Hstep as (Hl & Hk & Hok).
  destruct IH as (Hl' & Hk' & Hok').
  split_and!; [by etrans|auto..].
Qed.

(** The runs of [serve] are runs of the server. *)
Lemma serve_steps calls (st : state W) :
  rtc (step env) st (serve env calls st).2.
Proof.
  revert st. induction calls as [|[name arguments] calls IH]; intros st; [done|].
  simpl. pose proof (step_call env st name arguments) as Hstep.
  destruct (callTool env name arguments st) as [r st1]. simpl in Hstep.
  specialize (IH st1). destruct (serve env calls st1) as [rs st2].
  by eapply rtc_l.
Qed.

(** X27.  Nothing is ever taken back: over any run of the server the console
    log grows at its end, and a name under which a picture is stored stays
    so. *)
Theorem steps_grow (st st' : state W) :
  rtc (step env) st st' ->
  consoleLogs st `prefix_of` consoleLogs st'
  /\ (forall k, is_Some (Map_get (screenshots st) k) ->
        is_Some (Map_get (screenshots st') k)).
Proof. intros (? & ? & _)%steps_invariant. done. Qed.

(** X28.  In every state the server reaches, no name is stored twice and no
    stored picture is empty. *)
Theorem reachable_screenshots_ok h w (st : state W) :
  rtc (step env) (initial h w) st -> screenshots_ok (screenshots st).
Proof.
  intros (_ & _ & Hok)%steps_invariant. apply Hok.
  split; constructor.
Qed.

(** X29.  In every state the server reaches, the picture stored under a name
    that is a string free of "://" is listed, and reading what is listed
    returns it. *)
Theorem reachable_readable h w (st : state W) name :
  rtc (step env) (initial h w) st ->
  VStr name ∈ Map_keys (screenshots st) ->
  contains "://" name = false ->
  let uri := "screenshot://" +:+ name in
  uri ∈ map res_uri (listResources st)
  /\ exists blob, (VStr name, blob) ∈ screenshots st
       /\ readResource st uri = Ok (BlobResource uri "image/png" blob).
Proof.
  intros (_ & _ & Hok)%steps_invariant Hin Hno uri.
  destruct Hok as [_ Hne]; [split; constructor|]. split.
  - unfold listResources. simpl. apply elem_of_cons. right. rewrite map_map.
    apply list_elem_of_fmap. by exists (VStr name).
  - unfold uri. rewrite readResource_plain by done.
    destruct (Map_get_elem_of _ _ Hin) as [blob Hget]. rewrite Hget.
    apply Map_get_Some in Hget as (k' & Hk' & Hs).
    assert (k' = VStr name) as ->.
    { destruct k'; try done. simpl in Hs.
      by apply bool_decide_eq_true in Hs as ->. }
    exists blob. split; [done|].
    rewrite Forall_forall in Hne. specialize (Hne _ Hk'). by destruct blob.
Qed.
End Runs.

(** ** Examples *)


Lemma navigate_failure_is_thrown_witness :
  ensureBrowser no_env navigate_nowhere (initial 100 0) = (Ok (Some 1), launched)
  /\ get navigate_nowhere "url" = Ok (VStr "not a url")
  /\ perform 1 (Goto (VStr "not a url")) (world launched)
     = (Throw (Error "Cannot navigate to invalid URL"), 2)
  /\ handleToolCall no_env "puppeteer_navigate" navigate_nowhere (initial 100 0)
     = (Throw (Error "Cannot navigate to invalid URL"),
        record (Perform 1 (Goto (VStr "not a url"))) 2 launched).
Proof.
  split_and!; [reflexivity..|].
  apply (navigate_failure_is_thrown no_env navigate_nowhere (initial 100 0) 1
           launched (VStr "not a url")); reflexivity.
Defined.

Lemma not_a_tool : "puppeteer_launch" ∉ TOOLS.
Proof. unfold TOOLS. set_solver. Qed.

Lemma handleToolCall_unknown_witness :
  ("puppeteer_launch" ∉ TOOLS)
  /\ handleToolCall no_env "puppeteer_launch" click_go (initial 100 0)
     = (Ok (text_result "Unknown tool: puppeteer_launch" true), launched).
Proof.
  split; [exact not_a_tool|].
  rewrite (handleToolCall_unknown no_env "puppeteer_launch" click_go
             (initial 100 0) not_a_tool).
  reflexivity.
Defined.

(** C3 fails as stated: the call of a tool that does not exist, as the first
    call the server receives, launches a browser and replaces the
    remembered options. *)
Lemma unknown_tool_launches :
  ("puppeteer_launch" ∉ TOOLS)
  /\ browser (initial 100 0) = None
  /\ previousLaunchOptions (initial 100 0 : state nat) = VNull
  /\ handleToolCall no_env "puppeteer_launch" click_go (initial 100 0)
     = (Ok (text_result "Unknown tool: puppeteer_launch" true), launched)
  /\ browser launched = Some 0
  /\ previousLaunchOptions launched = VUndef
  /\ trace launched
     = [Launch (VObj 104 [("headless", VBool false)]); Pages 0; OnConsole 1].
Proof. split_and!; [exact not_a_tool|reflexivity..]. Qed.

Lemma deepMerge_array_union_witness :
  deepMerge (VObj 0 [("args", VArr 1 [VStr "--a"; VStr "--b"])])
            (VObj 2 [("args", VArr 3 [VStr "--b"; VStr "--c"])]) 4
  = Ok (VObj 4 [("args", VArr 5 [VStr "--a"; VStr "--b"; VStr "--c"])], 6)
  /\ NoDup (entries (VObj 2 [("args", VArr 3 [VStr "--b"; VStr "--c"])])).*1
  /\ ("args", VArr 3 [VStr "--b"; VStr "--c"])
     ∈ entries (VObj 2 [("args", VArr 3 [VStr "--b"; VStr "--c"])])
  /\ get (VObj 0 [("args", VArr 1 [VStr "--a"; VStr "--b"])]) "args"
     = Ok (VArr 1 [VStr "--a"; VStr "--b"])
  /\ exists r,
       get (VObj 4 [("args", VArr 5 [VStr "--a"; VStr "--b"; VStr "--c"])]) "args"
       = Ok (VArr r (Set_from ([VStr "--a"; VStr "--b"] ++ [VStr "--b"; VStr "--c"]))).
Proof.
  assert (NoDup (entries (VObj 2 [("args", VArr 3 [VStr "--b"; VStr "--c"])])).*1)
    as Hnd by apply NoDup_singleton.
  assert (("args", VArr 3 [VStr "--b"; VStr "--c"])
          ∈ entries (VObj 2 [("args", VArr 3 [VStr "--b"; VStr "--c"])]))
    as Hin by (apply list_elem_of_singleton; reflexivity).
  split_and!; [reflexivity|exact Hnd|exact Hin|reflexivity|].
  destruct (deepMerge_array_union
              (VObj 0 [("args", VArr 1 [VStr "--a"; VStr "--b"])])
              (VObj 2 [("args", VArr 3 [VStr "--b"; VStr "--c"])]) 4
              (VObj 4 [("args", VArr 5 [VStr "--a"; VStr "--b"; VStr "--c"])]) 6
              "args" 1 [VStr "--a"; VStr "--b"] 3 [VStr "--b"; VStr "--c"]
              eq_refl Hnd Hin eq_refl) as (r & Hr & _).
  exists r. exact Hr.
Defined.

Lemma override_config_distinct_keys : distinct_keys override_config.
Proof.
  simpl. split_and!; try done;
    repeat (apply NoDup_cons_2 || apply NoDup_nil_2); set_solver.
Qed.

Lemma deepMerge_idempotent_witness :
  typeof override_config = "object" /\ override_config <> VNull
  /\ no_arrays override_config = true /\ distinct_keys override_config
  /\ deepMerge base_config override_config 10
     = Ok (VObj 10 [("headless", VBool true);
                    ("timeout", VObj 11 [("connect", VNum 5); ("idle", VNull)])],
           12)
  /\ exists m' h3,
       deepMerge (VObj 10 [("headless", VBool true);
                           ("timeout", VObj 11 [("connect", VNum 5);
                                                ("idle", VNull)])])
         override_config 12 = Ok (m', h3)
       /\ same_content m'
            (VObj 10 [("headless", VBool true);
                      ("timeout", VObj 11 [("connect", VNum 5); ("idle", VNull)])]).
Proof.
  assert (override_config <> VNull) as Hnull by discriminate.
  split_and!; [reflexivity|exact Hnull|reflexivity
              |exact override_config_distinct_keys|reflexivity|].
  destruct (deepMerge_idempotent base_config override_config 10 _ 12
              eq_refl Hnull eq_refl override_config_distinct_keys eq_refl)
    as [Htwice _].
  exact (Htwice 12).
Defined.

Lemma ensureBrowser_reuse_witness :
  get navigate_headless "launchOptions" = Ok headless
  /\ get navigate_headless "allowDangerous" = Ok VUndef
  /\ mergedConfig_of no_env headless VUndef after_navigate
     = (Ok (VObj 105 [("headless", VBool true)]), set_heap 106 after_navigate)
  /\ browser after_navigate = Some 0
  /\ isConnected 0 (world after_navigate) = true
  /\ same_content headless (previousLaunchOptions after_navigate)
  /\ ensureBrowser no_env navigate_headless after_navigate
     = (Ok (Some 1), set_previousLaunchOptions headless (set_heap 106 after_navigate)).
Proof.
  split_and!; [reflexivity..|].
  apply (ensureBrowser_reuse no_env navigate_headless after_navigate headless
           VUndef (VObj 105 [("headless", VBool true)])
           (set_heap 106 after_navigate) 0); reflexivity.
Defined.

(** C7 fails as stated.  A navigation with the options [headless] created
    the session; a click, which carries no options, followed; the session is
    live and connected.  A second navigation with the very same options then
    closes the browser and launches another, and returns a new page. *)
Lemma same_options_relaunch :
  serve no_env [("puppeteer_navigate", navigate_headless);
                ("puppeteer_click", click_go)] (initial 100 0)
  = ([ (Ok (text_result "Navigated to https://example.com" false),
        [Launch (VObj 103 [("headless", VBool true)]); Pages 0; OnConsole 1;
         Perform 1 (Goto (VStr "https://example.com"))]);
       (Ok (text_result "Clicked #go" false), [Perform 1 (Click (VStr "#go"))]) ],
     after_click)
  /\ browser after_click = Some 0 /\ page after_click = Some 1
  /\ isConnected 0 (world after_click) = true
  /\ get navigate_headless "launchOptions" = Ok headless
  /\ (ensureBrowser no_env navigate_headless after_click).1 = Ok (Some 3)
  /\ trace (ensureBrowser no_env navigate_headless after_click).2
     = trace after_click
       ++ [Close 0; Launch (VObj 110 [("headless", VBool true)]); Pages 2;
           OnConsole 3].
Proof. split_and!; reflexivity. Qed.

(** C8 fails as stated.  A navigation with the options [headless] created
    the session.  A second navigation, with the options [sandbox_off], is
    refused by the check: it closes nothing and launches nothing, although
    its options differ from those of the call before it.  A third
    navigation, with [headless] again, differs in its options from the call
    before it, the refused one, and passes the check: it reuses the browser
    and its page, for the remembered options are still those of the first
    call. *)
Lemma different_options_no_relaunch :
  serve no_env [("puppeteer_navigate", navigate_headless);
                ("puppeteer_navigate", navigate_sandbox_off)] (initial 100 0)
  = ([ (Ok (text_result "Navigated to https://example.com" false),
        [Launch (VObj 103 [("headless", VBool true)]); Pages 0; OnConsole 1;
         Perform 1 (Goto (VStr "https://example.com"))]);
       (Throw (Error "Dangerous args detected: --no-sandbox, --disable-web-security=1"),
        []) ],
     after_refused)
  /\ get navigate_headless "launchOptions" = Ok headless
  /\ get navigate_sandbox_off "launchOptions" = Ok sandbox_off
  /\ ~ same_content sandbox_off headless
  /\ browser after_refused = Some 0 /\ page after_refused = Some 1
  /\ isConnected 0 (world after_refused) = true
  /\ previousLaunchOptions after_refused = headless
  /\ (ensureBrowser no_env navigate_headless after_refused).1 = Ok (Some 1)
  /\ trace (ensureBrowser no_env navigate_headless after_refused).2
     = trace after_refused.
Proof. split_and!; try reflexivity. intros [=]. Qed.

Lemma env_headless_proto_free v :
  PUPPETEER_LAUNCH_OPTIONS env_headless = Some v -> proto_free v = true.
Proof. by intros [= <-]. Qed.

Lemma ensureBrowser_relaunch_witness :
  get navigate_headless "launchOptions" = Ok headless
  /\ get navigate_headless "allowDangerous" = Ok VUndef
  /\ proto_free headless = true
  /\ (forall v, PUPPETEER_LAUNCH_OPTIONS env_headless = Some v ->
        proto_free v = true)
  /\ mergedConfig_of env_headless headless VUndef after_navigate_plain
     = (Ok (VObj 103 [("headless", VBool true)]), set_heap 104 after_navigate_plain)
  /\ browser after_navigate_plain = Some 0
  /\ truthy headless = true /\ is_json headless = true
  /\ is_json (previousLaunchOptions after_navigate_plain) = true
  /\ ~ same_content headless (previousLaunchOptions after_navigate_plain)
  /\ same_content (VObj 103 [("headless", VBool true)])
       (VObj 102 [("headless", VBool true)])
  /\ exists r st' config tail,
       ensureBrowser env_headless navigate_headless after_navigate_plain = (r, st')
       /\ trace st' = trace after_navigate_plain
                      ++ Close 0 :: Launch config :: tail
       /\ Forall quiet tail.
Proof.
  assert (~ same_content headless (previousLaunchOptions after_navigate_plain))
    as Hdiff by (intros [=]).
  split_and!; [reflexivity|reflexivity|reflexivity|exact env_headless_proto_free
              |reflexivity..|exact Hdiff|reflexivity|].
  apply (ensureBrowser_relaunch env_headless navigate_headless
           after_navigate_plain headless VUndef
           (VObj 103 [("headless", VBool true)])
           (set_heap 104 after_navigate_plain) 0);
    [reflexivity|reflexivity|reflexivity|exact env_headless_proto_free
    |reflexivity..|left; reflexivity|exact Hdiff].
Defined.

Lemma handleToolCall_screenshot_witness :
  ensureBrowser no_env shot_wide (initial 100 0) = (Ok (Some 1), launched)
  /\ get shot_wide "width" = Ok (VNum 1024)
  /\ get shot_wide "height" = Ok (VNum 768)
  /\ perform 1 (SetViewport (VNum 1024) (VNum 768)) (world launched) = (Ok tt, 2)
  /\ captured 1 VUndef 2 "iVBORw0KGgo=" [Screenshot (WholePage 1)] 2
  /\ (handleToolCall no_env "puppeteer_screenshot" shot_wide (initial 100 0)).1
     = Ok {| content := [TextContent "Screenshot 'home' at 1024x768";
                         ImageContent "iVBORw0KGgo=" "image/png"];
             isError := false |}
  /\ trace (handleToolCall no_env "puppeteer_screenshot" shot_wide
              (initial 100 0)).2
     = trace launched
       ++ [ Perform 1 (SetViewport (VNum 1024) (VNum 768));
            Screenshot (WholePage 1);
            Notification "notifications/resources/updated"
              (Some "screenshot://home");
            Notification "notifications/resources/list_changed" None ].
Proof.
  assert (captured 1 VUndef 2 "iVBORw0KGgo=" [Screenshot (WholePage 1)] 2)
    as Hcap by (split; reflexivity).
  assert (ensureBrowser no_env shot_wide (initial 100 0)
          = (Ok (Some 1), launched)) as Hensure by reflexivity.
  assert (perform 1 (SetViewport (VNum 1024) (VNum 768)) (world launched)
          = (Ok tt, 2)) as Hview by reflexivity.
  destruct (handleToolCall_screenshot no_env shot_wide (initial 100 0) 1
              launched (VNum 1024) (VNum 768) VUndef (VStr "home") VUndef
              "iVBORw0KGgo=" [Screenshot (WholePage 1)] 2 2
              Hensure eq_refl eq_refl eq_refl eq_refl eq_refl Hview Hcap
              ltac:(discriminate)) as (st' & ensured & _ & _ & Hcall & Htr & _).
  split_and!; [exact Hensure|reflexivity|reflexivity|exact Hview|exact Hcap
              |by rewrite Hcall|rewrite Hcall; exact Htr].
Defined.

Lemma readResource_screenshot_witness :
  Map_get (screenshots after_shots) (VStr "home") = Some "iVBORw0KGgo="
  /\ "iVBORw0KGgo=" <> ""
  /\ contains "://" "home" = false
  /\ readResource after_shots "screenshot://home"
     = Ok (BlobResource "screenshot://home" "image/png" "iVBORw0KGgo=").
Proof.
  assert ("iVBORw0KGgo=" <> "") as Hne by discriminate.
  split_and!; [reflexivity|exact Hne|reflexivity|].
  destruct (readResource_screenshot after_shots "home" "iVBORw0KGgo="
              eq_refl Hne) as (_ & Hread & _).
  apply Hread. reflexivity.
Defined.

(** C10 fails as stated for a name that holds "://": with a screenshot
    named "home" and another named "home://logo", the URI listed for the
    second is read without error, and what is returned is the first
    picture. *)
Lemma truncated_name_is_read :
  screenshots after_shots
  = [(VStr "home", "iVBORw0KGgo="); (VStr "home://logo", "R0lGODlhAQABAAAAACw=")]
  /\ contains "://" "home://logo" = true
  /\ "screenshot://home://logo" ∈ map res_uri (listResources after_shots)
  /\ readResource after_shots "screenshot://home://logo"
     = Ok (BlobResource "screenshot://home://logo" "image/png" "iVBORw0KGgo=").
Proof.
  split_and!; [reflexivity|reflexivity| |reflexivity].
  simpl. set_solver.
Qed.

(** ** Examples of the further properties *)

Lemma override_config_keys : NoDup (entries override_config).*1.
Proof. repeat (apply NoDup_cons_2 || apply NoDup_nil_2); set_solver. Qed.

Lemma window_size_keys : NoDup (entries window_size).*1.
Proof. apply NoDup_singleton. Qed.

Lemma deepMerge_keys_witness :
  typeof base_config = "object" /\ typeof override_config = "object"
  /\ proto_free override_config = true
  /\ deepMerge base_config override_config 10 = Ok (merged_config, 12)
  /\ exists ps,
       merged_config = VObj 10 ps
       /\ (forall k, is_Some (own ps k) <->
             is_Some (own (entries base_config) k)
             \/ is_Some (own (entries override_config) k))
       /\ (forall k, own (entries override_config) k = None ->
             own ps k = own (entries base_config) k).
Proof.
  split_and!; [reflexivity..|].
  exact (deepMerge_keys base_config override_config 10 merged_config 12
           eq_refl eq_refl eq_refl eq_refl).
Defined.

(** The array of the override is shared with the result, not copied. *)
Lemma deepMerge_override_value_witness :
  typeof (VObj 0 []) = "object" /\ typeof window_size = "object"
  /\ proto_free window_size = true
  /\ NoDup (entries window_size).*1
  /\ deepMerge (VObj 0 []) window_size 10
     = Ok (VObj 10 [("args", VArr 2 [VStr "--window-size=800,600"])], 11)
  /\ own (entries window_size) "args" = Some (VArr 2 [VStr "--window-size=800,600"])
  /\ get (VObj 0 []) "args" = Ok VUndef
  /\ get (VObj 10 [("args", VArr 2 [VStr "--window-size=800,600"])]) "args"
     = Ok (VArr 2 [VStr "--window-size=800,600"]).
Proof.
  split_and!; [reflexivity|reflexivity|reflexivity|exact window_size_keys
              |reflexivity|reflexivity|reflexivity|].
  apply (deepMerge_override_value (VObj 0 []) window_size 10 _ 11 "args"
           (VArr 2 [VStr "--window-size=800,600"]) VUndef);
    [reflexivity|reflexivity|reflexivity|exact window_size_keys
    |reflexivity|reflexivity|reflexivity|left; discriminate].
Defined.

Lemma deepMerge_nested_witness :
  typeof base_config = "object"
  /\ proto_free override_config = true
  /\ NoDup (entries override_config).*1
  /\ deepMerge base_config override_config 10 = Ok (merged_config, 12)
  /\ own (entries override_config) "timeout" = Some (VObj 3 [("idle", VNull)])
  /\ get base_config "timeout" = Ok (VObj 1 [("connect", VNum 5)])
  /\ exists ro ops,
       get merged_config "timeout" = Ok (VObj ro ops)
       /\ (forall j, is_Some (own ops j) <->
             is_Some (own [("connect", VNum 5)] j)
             \/ is_Some (own [("idle", VNull)] j))
       /\ (forall j, own [("idle", VNull)] j = None ->
             own ops j = own [("connect", VNum 5)] j).
Proof.
  split_and!; [reflexivity|reflexivity|exact override_config_keys
              |reflexivity|reflexivity|reflexivity|].
  exact (deepMerge_nested base_config override_config 10 merged_config 12
           "timeout" 3 [("idle", VNull)] 1 [("connect", VNum 5)]
           eq_refl eq_refl override_config_keys eq_refl eq_refl eq_refl).
Defined.

Lemma deepMerge_null_under_key_witness :
  own [("defaultViewport", VNull)] "defaultViewport" = Some VNull
  /\ own [("defaultViewport", VObj 2 [("width", VNum 1280)])] "defaultViewport"
     = Some (VObj 2 [("width", VNum 1280)])
  /\ deepMerge viewport_null viewport_wide 3
     = Throw (TypeError "Cannot read properties of null").
Proof.
  split_and!; [reflexivity..|].
  exact (deepMerge_null_under_key 0 [("defaultViewport", VNull)] 1
           [("defaultViewport", VObj 2 [("width", VNum 1280)])]
           "defaultViewport" 2 ("width", VNum 1280) [] 3 eq_refl eq_refl).
Defined.

Lemma deepMerge_total_witness :
  override_config <> VNull /\ proto_free override_config = true
  /\ null_free base_config = true
  /\ exists out h', deepMerge base_config override_config 10 = Ok (out, h').
Proof.
  assert (override_config <> VNull) as Hnull by discriminate.
  split_and!; [exact Hnull|reflexivity|reflexivity|].
  exact (deepMerge_total base_config override_config 10 Hnull eq_refl eq_refl).
Defined.




Lemma ensureBrowser_returns_witness :
  ensureBrowser no_env shot_home (initial 100 0) = (Ok (Some 1), launched)
  /\ is_Some (browser launched) /\ Some 1 = page launched
  /\ get shot_home "launchOptions" = Ok (previousLaunchOptions launched)
  /\ consoleLogs launched = consoleLogs (initial 100 0 : state nat)
  /\ screenshots launched = screenshots (initial 100 0 : state nat).
Proof.
  split; [reflexivity|].
  apply (ensureBrowser_returns no_env shot_home (initial 100 0) (Some 1)
           launched). reflexivity.
Defined.

Lemma window_size_distinct_keys : distinct_keys window_size.
Proof. simpl. split_and!; try done. apply NoDup_singleton. Qed.

Lemma env_headless_distinct_keys v :
  PUPPETEER_LAUNCH_OPTIONS env_headless = Some v -> distinct_keys v.
Proof. intros [= <-]. simpl. split_and!; try done. apply NoDup_singleton. Qed.

Lemma ensureBrowser_launch_args_witness :
  env_truthy (DOCKER_CONTAINER env_headless) = false
  /\ env_is (ALLOW_DANGEROUS env_headless) "true" = false
  /\ get navigate_window_size "launchOptions" = Ok window_size
  /\ get navigate_window_size "allowDangerous" = Ok VUndef
  /\ truthy VUndef = false
  /\ proto_free window_size = true
  /\ (forall v, PUPPETEER_LAUNCH_OPTIONS env_headless = Some v ->
        proto_free v = true)
  /\ distinct_keys window_size
  /\ (forall v, PUPPETEER_LAUNCH_OPTIONS env_headless = Some v -> distinct_keys v)
  /\ ensureBrowser env_headless navigate_window_size (initial 100 0)
     = (Ok (Some 1), windowed)
  /\ trace windowed
     = trace (initial 100 0 : state nat)
       ++ [Launch (VObj 102 [("headless", VBool true);
                             ("args", VArr 2 [VStr "--window-size=800,600"])]);
           Pages 0; OnConsole 1]
  /\ proto_free (VObj 102 [("headless", VBool true);
                           ("args", VArr 2 [VStr "--window-size=800,600"])])
     = true
  /\ exists cargs,
       get (VObj 102 [("headless", VBool true);
                      ("args", VArr 2 [VStr "--window-size=800,600"])]) "args"
       = Ok cargs
       /\ args_checked cargs.
Proof.
  do 11 (split; [first [reflexivity|exact env_headless_proto_free
                        |exact window_size_distinct_keys
                        |exact env_headless_distinct_keys]|]).
  apply (ensureBrowser_launch_args env_headless navigate_window_size
           (initial 100 0) window_size VUndef (Ok (Some 1)) windowed
           [Launch (VObj 102 [("headless", VBool true);
                              ("args", VArr 2 [VStr "--window-size=800,600"])]);
            Pages 0; OnConsole 1]);
    [reflexivity|reflexivity|reflexivity|reflexivity|reflexivity
    |reflexivity|exact env_headless_proto_free
    |exact window_size_distinct_keys
    |exact env_headless_distinct_keys|reflexivity|reflexivity|].
  apply elem_of_cons. left. reflexivity.
Defined.

Lemma ensureBrowser_launch_args_container_witness :
  env_truthy (DOCKER_CONTAINER env_container) = true
  /\ get navigate_window_size "launchOptions" = Ok window_size
  /\ get navigate_window_size "allowDangerous" = Ok VUndef
  /\ mergedConfig_of env_container window_size VUndef (initial 100 0)
     = (Ok (VObj 101 [("args", VArr 2 [VStr "--window-size=800,600"])]),
        set_heap 102 (initial 100 0))
  /\ ensureBrowser env_container navigate_window_size (initial 100 0)
     = (Ok (Some 1), contained)
  /\ trace contained
     = trace (initial 100 0 : state nat)
       ++ [Launch (VObj 104
                     [("headless", VBool true);
                      ("args", VArr 105 [VStr "--no-sandbox";
                                         VStr "--single-process";
                                         VStr "--no-zygote";
                                         VStr "--window-size=800,600"])]);
           Pages 0; OnConsole 1]
  /\ Forall (fun a => exists s, a = VStr s /\ dangerous s = true)
       [VStr "--no-sandbox"; VStr "--single-process"]
  /\ exists r' added,
       get (VObj 104
              [("headless", VBool true);
               ("args", VArr 105 [VStr "--no-sandbox"; VStr "--single-process";
                                  VStr "--no-zygote";
                                  VStr "--window-size=800,600"])]) "args"
       = Ok (VArr r' ([VStr "--no-sandbox"; VStr "--single-process";
                       VStr "--no-zygote"] ++ added))
       /\ [VStr "--no-sandbox"; VStr "--single-process"; VStr "--no-zygote"]
          ++ added
          = Set_from ([VStr "--no-sandbox"; VStr "--single-process";
                       VStr "--no-zygote"] ++ [VStr "--window-size=800,600"])
       /\ forall y, y ∈ added -> y ∈ [VStr "--window-size=800,600"].
Proof.
  assert (Launch (VObj 104
                    [("headless", VBool true);
                     ("args", VArr 105 [VStr "--no-sandbox";
                                        VStr "--single-process";
                                        VStr "--no-zygote";
                                        VStr "--window-size=800,600"])])
          ∈ [Launch (VObj 104
                       [("headless", VBool true);
                        ("args", VArr 105 [VStr "--no-sandbox";
                                           VStr "--single-process";
                                           VStr "--no-zygote";
                                           VStr "--window-size=800,600"])]);
             Pages 0; OnConsole 1]) as Hin
    by (apply elem_of_cons; left; reflexivity).
  do 6 (split; [reflexivity|]).
  exact (ensureBrowser_launch_args_container env_container navigate_window_size
           (initial 100 0) window_size VUndef 101
           [("args", VArr 2 [VStr "--window-size=800,600"])]
           (set_heap 102 (initial 100 0)) (Ok (Some 1)) contained _ _
           [VStr "--window-size=800,600"]
           eq_refl eq_refl eq_refl eq_refl (NoDup_singleton "args")
           (or_intror (ex_intro _ 2 eq_refl)) eq_refl eq_refl Hin).
Defined.

Lemma handleToolCall_screenshot_failed_witness :
  @ensureBrowser nat flaky no_env shot_logo (initial 100 0)
  = (Ok (Some 1), launched_flaky)
  /\ get shot_logo "width" = Ok VUndef /\ get shot_logo "height" = Ok VUndef
  /\ get shot_logo "selector" = Ok (VStr "#logo")
  /\ @perform nat flaky 1 (SetViewport (VNum 800) (VNum 600)) (world launched_flaky)
     = (Ok tt, 2)
  /\ truthy (VStr "#logo") = true
  /\ @query nat flaky 1 (VStr "#logo") 2 = (Ok None, 2)
  /\ exists st' evs,
       @handleToolCall nat flaky no_env "puppeteer_screenshot" shot_logo
         (initial 100 0)
       = (Ok (text_result "Screenshot failed" true), st')
       /\ trace st' = trace launched_flaky
                      ++ Perform 1 (SetViewport (VNum 800) (VNum 600)) :: evs
       /\ Forall silent evs
       /\ screenshots st' = screenshots (initial 100 0 : state nat).
Proof.
  split_and!; [reflexivity..|].
  exact (@handleToolCall_screenshot_failed nat flaky no_env shot_logo
           (initial 100 0) 1 launched_flaky VUndef VUndef (VStr "#logo") 2
           eq_refl eq_refl eq_refl eq_refl eq_refl
           (or_introl (conj eq_refl (ex_intro _ 2 eq_refl)))).
Defined.

Lemma fill_waits :
  ("puppeteer_fill", "Fill")
  ∈ [("puppeteer_fill", "Fill"); ("puppeteer_select", "Select");
     ("puppeteer_hover", "Hover")].
Proof. set_solver. Qed.

Lemma handleToolCall_wait_failure_witness :
  (("puppeteer_fill", "Fill")
   ∈ [("puppeteer_fill", "Fill"); ("puppeteer_select", "Select");
      ("puppeteer_hover", "Hover")])
  /\ @ensureBrowser nat flaky no_env fill_name (initial 100 0)
     = (Ok (Some 1), launched_flaky)
  /\ get fill_name "selector" = Ok (VStr "#name")
  /\ @perform nat flaky 1 (WaitForSelector (VStr "#name")) (world launched_flaky)
     = (Throw (Error "Waiting for selector failed"), 2)
  /\ @handleToolCall nat flaky no_env "puppeteer_fill" fill_name (initial 100 0)
     = (Ok (text_result "Fill failed: Waiting for selector failed" true),
        record (Perform 1 (WaitForSelector (VStr "#name"))) 2 launched_flaky).
Proof.
  split_and!; [exact fill_waits|reflexivity..|].
  exact (@handleToolCall_wait_failure nat flaky no_env "puppeteer_fill" "Fill"
           fill_name (initial 100 0) 1 launched_flaky (VStr "#name")
           (Error "Waiting for selector failed") 2
           fill_waits eq_refl eq_refl eq_refl).
Defined.

Lemma handleToolCall_evaluate_failure_witness :
  @ensureBrowser nat flaky no_env evaluate_title (initial 100 0)
  = (Ok (Some 1), launched_flaky)
  /\ @evaluate nat flaky 1 InstallHelper (world launched_flaky) = (Ok VUndef, 2)
  /\ get evaluate_title "script" = Ok (VStr "document.title")
  /\ @evaluate nat flaky 1 (UserScript (VStr "document.title")) 2
     = (Throw (Error "boom"), 2)
  /\ exists st',
       @handleToolCall nat flaky no_env "puppeteer_evaluate" evaluate_title
         (initial 100 0)
       = (Ok (text_result "Eval failed: boom" true), st')
       /\ trace st' = trace launched_flaky
                      ++ [Evaluate 1 InstallHelper;
                          Evaluate 1 (UserScript (VStr "document.title"))].
Proof.
  split_and!; [reflexivity..|].
  exact (@handleToolCall_evaluate_failure nat flaky no_env evaluate_title
           (initial 100 0) 1 launched_flaky (VStr "document.title") VUndef
           (Error "boom") 2 2 eq_refl eq_refl eq_refl eq_refl).
Defined.

(** The click of a call that carries refused arguments is not performed. *)
Lemma handleToolCall_dangerous_args_witness :
  get navigate_sandbox_off "launchOptions" = Ok sandbox_off
  /\ get navigate_sandbox_off "allowDangerous" = Ok VUndef
  /\ proto_free sandbox_off = true
  /\ merge_launch_options no_env sandbox_off 100
     = Ok (VObj 101 [("args", VArr 2 [VStr "--no-sandbox";
                                      VStr "--window-size=800,600";
                                      VStr "--disable-web-security=1"])], 102)
  /\ List.filter dangerous ["--no-sandbox"; "--window-size=800,600";
                            "--disable-web-security=1"] <> []
  /\ truthy VUndef = false /\ env_is (ALLOW_DANGEROUS no_env) "true" = false
  /\ handleToolCall no_env "puppeteer_click" navigate_sandbox_off (initial 100 0)
     = (Throw (Error "Dangerous args detected: --no-sandbox, --disable-web-security=1"),
        set_heap 102 (initial 100 0)).
Proof.
  assert (List.filter dangerous ["--no-sandbox"; "--window-size=800,600";
                                 "--disable-web-security=1"] <> []) as Hne
    by discriminate.
  split_and!; [reflexivity|reflexivity|reflexivity|reflexivity|exact Hne
              |reflexivity|reflexivity|].
  exact (handleToolCall_dangerous_args no_env "puppeteer_click"
           navigate_sandbox_off (initial 100 0) sandbox_off VUndef
           (VObj 101 [("args", VArr 2 [VStr "--no-sandbox";
                                       VStr "--window-size=800,600";
                                       VStr "--disable-web-security=1"])])
           102 2
           [VStr "--no-sandbox"; VStr "--window-size=800,600";
            VStr "--disable-web-security=1"]
           ["--no-sandbox"; "--window-size=800,600"; "--disable-web-security=1"]
           eq_refl eq_refl eq_refl eq_refl eq_refl eq_refl Hne eq_refl eq_refl).
Defined.

Lemma click_is_a_tool : "puppeteer_click" ∈ TOOLS.
Proof. unfold TOOLS. set_solver. Qed.

Lemma handleToolCall_advertised_witness :
  ("puppeteer_click" ∈ TOOLS)
  /\ @handleToolCall nat flaky no_env "puppeteer_click" click_go (initial 100 0)
     = (Ok (text_result "Clicked #go" false),
        record (Perform 1 (Click (VStr "#go"))) 2 launched_flaky)
  /\ content (text_result "Clicked #go" false)
     <> [TextContent ("Unknown tool: " +:+ "puppeteer_click")].
Proof.
  split_and!; [exact click_is_a_tool|reflexivity|].
  exact (@handleToolCall_advertised nat flaky no_env "puppeteer_click" click_go
           (initial 100 0) _ _ click_is_a_tool eq_refl).
Defined.

Lemma handleToolCall_frame_witness :
  handleToolCall no_env "puppeteer_navigate" navigate_headless (initial 100 0)
  = (Ok (text_result "Navigated to https://example.com" false), after_navigate)
  /\ consoleLogs after_navigate = consoleLogs (initial 100 0 : state nat)
  /\ exists evs,
       trace after_navigate = trace (initial 100 0 : state nat) ++ evs
       /\ ("puppeteer_navigate" <> "puppeteer_screenshot" ->
           screenshots after_navigate = screenshots (initial 100 0 : state nat)
           /\ Forall silent evs).
Proof.
  split; [reflexivity|].
  exact (handleToolCall_frame no_env "puppeteer_navigate" navigate_headless
           (initial 100 0) _ after_navigate eq_refl).
Defined.

(** A screenshot taken without a name is listed and cannot be read. *)
Lemma readResource_missing_witness :
  "screenshot://undefined" ∈ map res_uri (listResources after_unnamed_shot)
  /\ contains "://" "undefined" = false
  /\ Map_get (screenshots after_unnamed_shot) (VStr "undefined") = None
  /\ readResource after_unnamed_shot "screenshot://undefined"
     = Throw (Error ("Resource not found: " +:+ "screenshot://undefined")).
Proof.
  split_and!; [simpl; set_solver|reflexivity|reflexivity|].
  apply (readResource_missing after_unnamed_shot "screenshot://undefined").
  right. exists "undefined". split_and!; reflexivity.
Defined.

Lemma readResource_blob_witness :
  readResource after_shots "screenshot://home"
  = Ok (BlobResource "screenshot://home" "image/png" "iVBORw0KGgo=")
  /\ "iVBORw0KGgo=" <> ""
  /\ startsWith "screenshot://home" "screenshot://" = true
  /\ exists n, second (str_split "screenshot://home" "://") = VStr n
               /\ (VStr n, "iVBORw0KGgo=") ∈ screenshots after_shots.
Proof.
  split; [reflexivity|].
  destruct (readResource_blob after_shots "screenshot://home"
              "screenshot://home" "image/png" "iVBORw0KGgo=" eq_refl)
    as (_ & _ & Hne & Hpre & Hn).
  split_and!; [exact Hne|exact Hpre|exact Hn].
Defined.

Lemma screenshot_then_read_witness :
  ensureBrowser no_env shot_home (initial 100 0) = (Ok (Some 1), launched)
  /\ get shot_home "name" = Ok (VStr "home")
  /\ perform 1 (SetViewport (VNum 800) (VNum 600)) (world launched) = (Ok tt, 2)
  /\ captured 1 VUndef 2 "iVBORw0KGgo=" [Screenshot (WholePage 1)] 2
  /\ "iVBORw0KGgo=" <> "" /\ contains "://" "home" = false
  /\ "screenshot://home"
     ∈ map res_uri
         (listResources
            (handleToolCall no_env "puppeteer_screenshot" shot_home
               (initial 100 0)).2)
  /\ readResource
       (handleToolCall no_env "puppeteer_screenshot" shot_home (initial 100 0)).2
       "screenshot://home"
     = Ok (BlobResource "screenshot://home" "image/png" "iVBORw0KGgo=").
Proof.
  assert (captured 1 VUndef 2 "iVBORw0KGgo=" [Screenshot (WholePage 1)] 2)
    as Hcap by (split; reflexivity).
  assert ("iVBORw0KGgo=" <> "") as Hne by discriminate.
  assert (ensureBrowser no_env shot_home (initial 100 0)
          = (Ok (Some 1), launched)) as Hensure by reflexivity.
  assert (perform 1 (SetViewport (VNum 800) (VNum 600)) (world launched)
          = (Ok tt, 2)) as Hview by reflexivity.
  do 6 (split; [first [reflexivity|assumption]|]).
  exact (screenshot_then_read no_env shot_home (initial 100 0) 1 launched
           VUndef VUndef VUndef "home" "iVBORw0KGgo="
           [Screenshot (WholePage 1)] 2 2
           Hensure eq_refl eq_refl eq_refl eq_refl Hview Hcap Hne eq_refl).
Defined.

(** A console message after the two screenshots. *)
Lemma steps_grow_witness :
  rtc (step no_env) after_shots (console_listener "log" "ready" after_shots).2
  /\ consoleLogs after_shots
     `prefix_of` consoleLogs (console_listener "log" "ready" after_shots).2
  /\ consoleLogs (console_listener "log" "ready" after_shots).2 = ["[log] ready"]
  /\ forall k, is_Some (Map_get (screenshots after_shots) k) ->
       is_Some (Map_get
                  (screenshots (console_listener "log" "ready" after_shots).2) k).
Proof.
  assert (rtc (step no_env) after_shots
            (console_listener "log" "ready" after_shots).2) as Hrun
    by (apply rtc_once, step_console).
  destruct (steps_grow no_env after_shots _ Hrun) as [Hlogs Hshots].
  split_and!; [exact Hrun|exact Hlogs|reflexivity|exact Hshots].
Defined.

Lemma after_shots_reachable : rtc (step no_env) (initial 100 0) after_shots.
Proof.
  exact (serve_steps no_env [("puppeteer_screenshot", shot_home);
                             ("puppeteer_screenshot", shot_logo)] (initial 100 0)).
Qed.

Lemma reachable_screenshots_ok_witness :
  rtc (step no_env) (initial 100 0) after_shots
  /\ screenshots_ok (screenshots after_shots).
Proof.
  split; [exact after_shots_reachable|].
  exact (reachable_screenshots_ok no_env 100 0 after_shots after_shots_reachable).
Defined.

Lemma home_is_stored : VStr "home" ∈ Map_keys (screenshots after_shots).
Proof. unfold Map_keys. simpl. set_solver. Qed.

Lemma reachable_readable_witness :
  rtc (step no_env) (initial 100 0) after_shots
  /\ VStr "home" ∈ Map_keys (screenshots after_shots)
  /\ contains "://" "home" = false
  /\ "screenshot://home" ∈ map res_uri (listResources after_shots)
  /\ exists blob,
       (VStr "home", blob) ∈ screenshots after_shots
       /\ readResource after_shots "screenshot://home"
          = Ok (BlobResource "screenshot://home" "image/png" blob).
Proof.
  do 3 (split; [first [exact after_shots_reachable|exact home_is_stored
                       |reflexivity]|]).
  exact (reachable_readable no_env 100 0 after_shots "home"
           after_shots_reachable home_is_stored eq_refl).
Defined.

Lemma fill_performs :
  ("puppeteer_fill",
   [WaitForSelector (VStr "#name"); TypeText (VStr "#name") (VStr "Ada")],
   "Filled " +:+ ToString (VStr "#name"))
  ∈ [ ("puppeteer_navigate", [Goto VUndef], "Navigated to " +:+ ToString VUndef);
      ("puppeteer_click", [Click (VStr "#name")],
       "Clicked " +:+ ToString (VStr "#name"));
      ("puppeteer_fill",
       [WaitForSelector (VStr "#name"); TypeText (VStr "#name") (VStr "Ada")],
       "Filled " +:+ ToString (VStr "#name"));
      ("puppeteer_select",
       [WaitForSelector (VStr "#name"); Select (VStr "#name") (VStr "Ada")],
       "Selected " +:+ ToString (VStr "#name"));
      ("puppeteer_hover", [WaitForSelector (VStr "#name"); Hover (VStr "#name")],
       "Hovered " +:+ ToString (VStr "#name")) ].
Proof. set_solver. Qed.

Lemma handleToolCall_performs_witness :
  ensureBrowser no_env fill_name (initial 100 0) = (Ok (Some 1), launched)
  /\ performed 1 [WaitForSelector (VStr "#name");
                  TypeText (VStr "#name") (VStr "Ada")] (world launched) 2
  /\ exists st',
       handleToolCall no_env "puppeteer_fill" fill_name (initial 100 0)
       = (Ok (text_result "Filled #name" false), st')
       /\ trace st' = trace launched
                      ++ [Perform 1 (WaitForSelector (VStr "#name"));
                          Perform 1 (TypeText (VStr "#name") (VStr "Ada"))]
       /\ world st' = 2
       /\ screenshots st' = screenshots launched.
Proof.
  assert (performed 1 [WaitForSelector (VStr "#name");
                       TypeText (VStr "#name") (VStr "Ada")] (world launched) 2)
    as Hops.
  { exists 2. split; [reflexivity|]. exists 2. split; reflexivity. }
  assert (ensureBrowser no_env fill_name (initial 100 0)
          = (Ok (Some 1), launched)) as Hensure by reflexivity.
  split_and!; [exact Hensure|exact Hops|].
  exact (handleToolCall_performs no_env "puppeteer_fill" _ _ fill_name
           (initial 100 0) 1 launched VUndef (VStr "#name") (VStr "Ada") 2
           Hensure eq_refl eq_refl eq_refl fill_performs Hops).
Defined.


Lemma handleToolCall_screenshot_throws_witness :
  @ensureBrowser nat flaky no_env shot_home (initial 100 0)
  = (Ok (Some 1), launched_flaky)
  /\ get shot_home "width" = Ok VUndef /\ get shot_home "height" = Ok VUndef
  /\ get shot_home "selector" = Ok VUndef
  /\ @perform nat flaky 1 (SetViewport (VNum 800) (VNum 600)) (world launched_flaky)
     = (Ok tt, 2)
  /\ truthy VUndef = false
  /\ @screenshot nat flaky (WholePage 1) 2 = (Throw (Error "Target closed"), 2)
  /\ exists st' evs,
       @handleToolCall nat flaky no_env "puppeteer_screenshot" shot_home
         (initial 100 0)
       = (Throw (Error "Target closed"), st')
       /\ trace st' = trace launched_flaky ++ evs /\ Forall silent evs
       /\ screenshots st' = screenshots (initial 100 0 : state nat).
Proof.
  do 7 (split; [reflexivity|]).
  exact (@handleToolCall_screenshot_throws nat flaky no_env shot_home
           (initial 100 0) 1 launched_flaky VUndef VUndef VUndef
           (Error "Target closed") 2 eq_refl eq_refl eq_refl eq_refl
           (or_intror (ex_intro _ 2 (conj eq_refl eq_refl)))).
Defined.


